(** * BVHImporter: a shallow embedding of [BVHImporter.py]

    The importer reads a BioVision Hierarchy file line by line, rebuilds the
    joint tree in a Maya scene through [maya.cmds] calls and streams the
    motion section into keyframes.

    The Python code is embedded as functions in a small state-and-exception
    monad.  The state holds the importer object ([self]), the host scene and
    the trace of every [maya.cmds] call together with the value the host
    returned.  The host itself (Maya, the file system, and Python's [float])
    is an interface: the development is parametric in it, and a small
    simulated scene is provided to run the importer on concrete files. *)

From Stdlib Require Import String Ascii List ZArith Bool Lia.
Import ListNotations.
Open Scope string_scope.
Open Scope Z_scope.

Set Implicit Arguments.

(** ** Python string built-ins

    Text is modelled with code points below 256. *)

Module Py.

(** [str.isspace] on one character; the same set is matched by [\s]. *)
Definition is_space (c : ascii) : bool :=
  let n := nat_of_ascii c in
  ((9 <=? n) && (n <=? 13))%nat || ((28 <=? n) && (n <=? 32))%nat
  || (n =? 133)%nat || (n =? 160)%nat.

(** [s.startswith(p)] *)
Fixpoint starts (p s : string) : bool :=
  match p with
  | EmptyString => true
  | String a p' =>
      match s with
      | EmptyString => false
      | String b s' => Ascii.eqb a b && starts p' s'
      end
  end.

Definition startswith (s p : string) : bool := starts p s.

(** [sub in s] *)
Fixpoint contains (sub s : string) : bool :=
  starts sub s ||
  match s with
  | EmptyString => false
  | String _ s' => contains sub s'
  end.

(** [s.replace(old, new)] for a one-character [old] and [new]. *)
Fixpoint replace_char (old new : ascii) (s : string) : string :=
  match s with
  | EmptyString => EmptyString
  | String c s' =>
      String (if Ascii.eqb c old then new else c) (replace_char old new s')
  end.

(** [s.replace(old, new)] for a non-empty [old]: occurrences are replaced
    left to right without overlap.  [skip] counts the characters of a matched
    occurrence that are still to be dropped. *)
Fixpoint replace_from (old new : string) (skip : nat) (s : string) : string :=
  match s with
  | EmptyString => EmptyString
  | String c s' =>
      match skip with
      | S k => replace_from old new k s'
      | O =>
          if starts old s
          then new ++ replace_from old new (String.length old - 1) s'
          else String c (replace_from old new O s')
      end
  end.

Definition replace (old new s : string) : string := replace_from old new O s.

(** [s.lstrip()], [s.rstrip()], [s.strip()] *)
Fixpoint lstrip (s : string) : string :=
  match s with
  | EmptyString => EmptyString
  | String c s' => if is_space c then lstrip s' else s
  end.

Fixpoint rstrip (s : string) : string :=
  match s with
  | EmptyString => EmptyString
  | String c s' =>
      match rstrip s' with
      | EmptyString => if is_space c then EmptyString else String c EmptyString
      | r => String c r
      end
  end.

Definition strip (s : string) : string := rstrip (lstrip s).

(** [re.compile(r"\s+").split(s)]: [tok] is the token being read (reversed),
    [in_ws] tells whether the previous character was white space. *)
Fixpoint split_from (in_ws : bool) (tok : list ascii) (s : string)
  : list string :=
  match s with
  | EmptyString => [string_of_list_ascii (rev tok)]
  | String c s' =>
      if is_space c then
        if in_ws then split_from true tok s'
        else string_of_list_ascii (rev tok) :: split_from true [] s'
      else split_from false (c :: tok) s'
  end.

Definition space_re_split (s : string) : list string := split_from false [] s.

(** [s[n:]] *)
Fixpoint slice_from (n : nat) (s : string) : string :=
  match n, s with
  | O, _ => s
  | S _, EmptyString => EmptyString
  | S k, String _ s' => slice_from k s'
  end.

(** [l[-n:]] for [n > 0] *)
Definition last_n {A} (n : nat) (l : list A) : list A :=
  skipn (List.length l - n) l.

(** [''.join(l)] *)
Definition join (l : list string) : string := String.concat "" l.

(** [s.split(sep)[0]] for a one-character [sep] *)
Fixpoint split_head (sep : ascii) (s : string) : string :=
  match s with
  | EmptyString => EmptyString
  | String c s' => if Ascii.eqb c sep then EmptyString else String c (split_head sep s')
  end.

(** [os.path.basename(p)]: what follows the last slash. *)
Fixpoint basename (p : string) : string :=
  match p with
  | EmptyString => EmptyString
  | String c p' =>
      if contains "/" p' then basename p'
      else if Ascii.eqb c "/" then p' else p
  end.

(** [l.index(x)] on a list of strings; [None] stands for [ValueError]. *)
Fixpoint index (x : string) (l : list string) : option Z :=
  match l with
  | [] => None
  | y :: l' => if String.eqb y x then Some 0
               else option_map Z.succ (index x l')
  end.

(** [int(s)] on a token: an optional sign, then decimal digits in which
    single underscores may separate digits.  [None] stands for [ValueError]. *)
Definition digit (c : ascii) : option Z :=
  let n := nat_of_ascii c in
  if ((48 <=? n) && (n <=? 57))%nat then Some (Z.of_nat (n - 48)) else None.

(** [acc] is the value read so far, [prev_digit] whether the previous
    character was a digit. *)
Fixpoint digits_from (acc : Z) (prev_digit : bool) (s : string) : option Z :=
  match s with
  | EmptyString => if prev_digit then Some acc else None
  | String c s' =>
      match digit c with
      | Some d => digits_from (10 * acc + d) true s'
      | None =>
          if Ascii.eqb c "_" && prev_digit then digits_from acc false s'
          else None
      end
  end.

Definition int (s : string) : option Z :=
  match s with
  | String "-" s' => option_map Z.opp (digits_from 0 false s')
  | String "+" s' => digits_from 0 false s'
  | _ => digits_from 0 false s
  end.

End Py.


Import Py.

(** ** Data model *)

(** [TinyDAG]: an object and an optional parent.  The object is a name, or,
    when [readFile] wraps the persisted root, another [TinyDAG]. *)
#[warnings="-register-all"]
Inductive TinyDAG : Type :=
| Dag (obj : DagObj) (parent : option TinyDAG)
with DagObj : Type :=
| ObjStr (s : string)
| ObjDag (d : TinyDAG).

Definition parent (d : TinyDAG) : option TinyDAG :=
  match d with Dag _ p => p end.

(** [TinyDAG.__str__]: [str(self.obj)] *)
Fixpoint dag_str (d : TinyDAG) : string :=
  match d with
  | Dag o _ => match o with ObjStr s => s | ObjDag d' => dag_str d' end
  end.

(** [TinyDAG.full_path] *)
Fixpoint full_path (d : TinyDAG) : string :=
  match d with
  | Dag _ p =>
      match p with
      | Some q => full_path q ++ "|" ++ dag_str d
      | None => dag_str d
      end
  end.

Definition rotation_orders : list string :=
  ["XYZ"; "YZX"; "ZXY"; "XZY"; "YXZ"; "ZYX"].

(** [cleanPath] *)
Definition cleanPath (path : string) : string := replace_char "\" "/" path.

(** [ImportBVH.translationDict]; [None] stands for [KeyError]. *)
Definition translationDict (k : string) : option string :=
  if String.eqb k "Xposition" then Some "translateX"
  else if String.eqb k "Yposition" then Some "translateY"
  else if String.eqb k "Zposition" then Some "translateZ"
  else if String.eqb k "Xrotation" then Some "rotateX"
  else if String.eqb k "Yrotation" then Some "rotateY"
  else if String.eqb k "Zrotation" then Some "rotateZ"
  else None.

(** The exceptions the importer can raise. *)
Inductive PyExn : Type :=
| Exception (msg : string)
| IndexError
| ValueError
| KeyError
| AttributeError
| UnboundLocalError
| TypeError
| OSError.

(** The local variable [jnt] of [readFile] holds the token list of the last
    [JOINT] line or the joint reference of the last [OFFSET] line. *)
Inductive JntVal : Type :=
| JntTokens (toks : list string)
| JntRef (name : string).

(** [f'{jnt}']: a string is printed as it is, a list with [repr] (written
    here for tokens without quotes, backslashes or control characters). *)
Definition format_jnt (j : JntVal) : string :=
  match j with
  | JntRef s => s
  | JntTokens l =>
      "[" ++ String.concat ", " (map (fun t => "'" ++ t ++ "'") l) ++ "]"
  end.

(** ** The host: Maya, the file system, Python floats *)

Section Events.

(** The type of Python floats. *)
Variable F : Type.

(** One [maya.cmds] call with the value it returned. *)
Inductive MayaEvent : Type :=
| EvGroup (name : string) (ret : string)
    (* mc.group(em=True, name=name) *)
| EvSetAttrF (attr : string) (vs : list F) (typ : option string)
    (* mc.setAttr(attr, *vs) and mc.setAttr(attr, *vs, typ=typ) *)
| EvSetAttrZ (attr : string) (v : Z)
    (* mc.setAttr(attr, v) *)
| EvSelect (path : string)
    (* mc.select(path) *)
| EvSelectHi (name : string)
    (* mc.select(name, hi=True) *)
| EvLs (ret : list string)
    (* mc.ls(sl=True) *)
| EvListConnections (attr : string) (ret : option (list string))
    (* mc.listConnections(attr, s=True, d=False) *)
| EvDelete (nodes : list string)
    (* mc.delete(nodes) *)
| EvObjExists (path : string) (ret : bool)
    (* mc.objExists(path) *)
| EvJoint (name : string) (ret : string)
    (* mc.joint(name=name, p=(0, 0, 0)) *)
| EvSetKeyframe (attr : string) (time : Z) (value : F).
    (* mc.setKeyframe(attr, time=time, value=value) *)

(** The host answers the queries from its current scene, and every call
    moves the scene on.  [open_readlines] is [open(p, 'r').readlines()] and
    [py_float] is [float(s)]; [None] stands for [OSError] and [ValueError].
    Errors raised inside Maya are outside the model. *)
Class Host (Scene : Type) : Type := {
  maya_group : string -> Scene -> string;
  maya_objExists : string -> Scene -> bool;
  maya_joint : string -> Scene -> string;
  maya_ls : Scene -> list string;
  maya_listConnections : string -> Scene -> option (list string);
  maya_step : MayaEvent -> Scene -> Scene;
  os_path_exists : string -> bool;
  open_readlines : string -> option (list string);
  py_float : string -> option F
}.

End Events.

Arguments maya_group {F Scene _}.
Arguments maya_objExists {F Scene _}.
Arguments maya_joint {F Scene _}.
Arguments maya_ls {F Scene _}.
Arguments maya_listConnections {F Scene _}.
Arguments maya_step {F Scene _}.
Arguments os_path_exists {F Scene _}.
Arguments open_readlines {F Scene _}.
Arguments py_float {F Scene _}.
Arguments EvGroup {F}.
Arguments EvSetAttrZ {F}.
Arguments EvSelect {F}.
Arguments EvSelectHi {F}.
Arguments EvLs {F}.
Arguments EvListConnections {F}.
Arguments EvDelete {F}.
Arguments EvObjExists {F}.
Arguments EvJoint {F}.

(** ** The importer object and the monad of its methods *)

Section Monad.

Variables F Scene : Type.

(** The fields of an [ImportBVH] object; [file_path] is [None] until
    [__init__] has assigned it. *)
Record Session : Type := mkSession {
  data : option (list string);
  scale : F;
  _channels : list string;
  _root_node : option TinyDAG;
  _root_node_full_path : option string;
  file_path : option string
}.

Record World : Type := mkWorld {
  self : Session;
  scene : Scene;
  trace : list (MayaEvent F)
}.

Inductive Result (A : Type) : Type :=
| Ok (a : A)
| Raise (e : PyExn).

(** Computations: they read and change the world and return or raise.  The
    world reached when an exception is raised is kept. *)
Definition M (A : Type) : Type := World -> Result A * World.

Definition ret A (a : A) : M A := fun w => (Ok a, w).

Definition bind A B (c : M A) (k : A -> M B) : M B :=
  fun w =>
    match c w with
    | (Ok a, w') => k a w'
    | (Raise _ e, w') => (Raise _ e, w')
    end.

Definition raise A (e : PyExn) : M A := fun w => (Raise _ e, w).

Definition get_self : M Session := fun w => (Ok (self w), w).

Definition set_self (s : Session) : M unit :=
  fun w => (Ok tt, mkWorld s (scene w) (trace w)).

(** [for x in l: body(x)] *)
Fixpoint for_each A (l : list A) (body : A -> M unit) : M unit :=
  match l with
  | [] => ret tt
  | x :: l' => bind (body x) (fun _ => for_each l' body)
  end.

End Monad.

Arguments Ok {A} a.
Arguments Raise {A} e.
Arguments ret {F Scene A} a.
Arguments raise {F Scene A} e.
Arguments get_self {F Scene}.
Arguments mkSession {F}.

Declare Scope py_scope.
Delimit Scope py_scope with py.
Notation "x <- c ;; k" := (bind c (fun x => k))
  (at level 61, c at next level, right associativity) : py_scope.
Notation "c ;; k" := (bind c (fun _ => k))
  (at level 61, right associativity) : py_scope.
Open Scope py_scope.

Definition set_data F (v : option (list string)) (s : Session F) :=
  mkSession v (scale s) (_channels s) (_root_node s) (_root_node_full_path s)
    (file_path s).
Definition set_scale F (v : F) (s : Session F) :=
  mkSession (data s) v (_channels s) (_root_node s) (_root_node_full_path s)
    (file_path s).
Definition set_channels F (v : list string) (s : Session F) :=
  mkSession (data s) (scale s) v (_root_node s) (_root_node_full_path s)
    (file_path s).
Definition set_root F (r : TinyDAG) (s : Session F) :=
  mkSession (data s) (scale s) (_channels s) (Some r) (Some (full_path r))
    (file_path s).
Definition set_file_path F (v : string) (s : Session F) :=
  mkSession (data s) (scale s) (_channels s) (_root_node s)
    (_root_node_full_path s) (Some v).

(** The property [root_node]: [str(self._root_node_full_path)] *)
Definition root_node F (s : Session F) : string :=
  match _root_node_full_path s with
  | Some p => p
  | None => "None"
  end.

(** The local variables of [readFile] that live across lines; [jnt] is
    [None] while the name is unbound. *)
Record Locals : Type := mkLocals {
  safe_close : bool;
  motion : bool;
  frame : Z;
  my_parent : option TinyDAG;
  jnt : option JntVal
}.

Definition set_safe_close (v : bool) (l : Locals) :=
  mkLocals v (motion l) (frame l) (my_parent l) (jnt l).
Definition set_motion (v : bool) (l : Locals) :=
  mkLocals (safe_close l) v (frame l) (my_parent l) (jnt l).
Definition set_frame (v : Z) (l : Locals) :=
  mkLocals (safe_close l) (motion l) v (my_parent l) (jnt l).
Definition set_my_parent (v : option TinyDAG) (l : Locals) :=
  mkLocals (safe_close l) (motion l) (frame l) v (jnt l).
Definition set_jnt (v : JntVal) (l : Locals) :=
  mkLocals (safe_close l) (motion l) (frame l) (my_parent l) (Some v).

Definition trans_attrs : list string := ["translateX"; "translateY"; "translateZ"].
Definition rot_attrs : list string := ["rotateX"; "rotateY"; "rotateZ"].

(** [[float(i) for i in l]] *)
Fixpoint floats F (py_float : string -> option F) (l : list string)
  : option (list F) :=
  match l with
  | [] => Some []
  | x :: l' =>
      match py_float x with
      | None => None
      | Some v => option_map (cons v) (floats py_float l')
      end
  end.

(** [enumerate(l)] counted from [i] *)
Fixpoint enumerate_from A (i : nat) (l : list A) : list (nat * A) :=
  match l with
  | [] => []
  | x :: l' => (i, x) :: enumerate_from (S i) l'
  end.

(** The tokens of a line: [space_re.split(line.strip())] *)
Definition tokens (line : string) : list string := space_re_split (strip line).

(** The axis string of a [CHANNELS] token list *)
Definition axis_string (chan : list string) : string :=
  join (rev (map (replace "rotation" "") (last_n 3 chan))).

(** ** The methods of [ImportBVH] *)

Section Importer.

Variables F Scene : Type.
Context {host : Host F Scene}.

Local Abbreviation M := (M F Scene).
Local Abbreviation Session := (Session F).
Local Abbreviation World := (World F Scene).

(** A [maya.cmds] call: the host answers from the current scene, the event
    is appended to the trace and the scene moves on. *)
Definition call A (answer : Scene -> A) (ev : A -> MayaEvent F) : M A :=
  fun w =>
    let a := answer (scene w) in
    (Ok a, mkWorld (self w) (maya_step (ev a) (scene w)) (trace w ++ [ev a])).

Definition emit (ev : MayaEvent F) : M unit := call (fun _ => tt) (fun _ => ev).

Definition update_self (f : Session -> Session) : M unit :=
  s <- get_self ;; set_self (f s).

(** [_clear_animation] *)
Definition clear_attr (node attr : string) : M unit :=
  connections <- call (maya_listConnections (node ++ "." ++ attr))
                      (EvListConnections (node ++ "." ++ attr)) ;;
  match connections with
  | Some c => emit (EvDelete c)
  | None => ret tt
  end.

Definition clear_node (node : string) : M unit :=
  for_each (trans_attrs ++ rot_attrs) (clear_attr node) ;;
  for_each rot_attrs (fun attr => emit (EvSetAttrZ (node ++ "." ++ attr) 0)).

Definition _clear_animation : M unit :=
  s <- get_self ;;
  match _root_node s with
  | None => raise (Exception "Could not find root node to clear animation.")
  | Some r =>
      emit (EvSelectHi (dag_str r)) ;;
      nodes <- call maya_ls EvLs ;;
      for_each nodes clear_node
  end.

(** The checks [readFile] applies to a line of the hierarchy section, in the
    order of the source. *)

(** [if line.startswith('ROOT')] *)
Definition step_root (line : string) (loc : Locals) : M Locals :=
  if startswith line "ROOT" then
    s <- get_self ;;
    match _root_node s with
    | Some r => ret (set_my_parent (Some (Dag (ObjStr (dag_str r)) None)) loc)
    | None =>
        let p := Dag (ObjStr (rstrip (slice_from 5 line))) (my_parent loc) in
        set_self (set_root p s) ;;
        ret (set_my_parent (Some p) loc)
    end
  else ret loc.

(** [if 'JOINT' in line] *)
Definition step_joint (line : string) (loc : Locals) : M Locals :=
  if contains "JOINT" line then
    let toks := tokens line in
    match nth_error toks 1 with
    | None => raise IndexError
    | Some name =>
        ret (set_my_parent (Some (Dag (ObjStr name) (my_parent loc)))
               (set_jnt (JntTokens toks) loc))
    end
  else ret loc.

(** [if 'End Site' in line] *)
Definition step_end_site (line : string) (loc : Locals) : Locals :=
  if contains "End Site" line then set_safe_close true loc else loc.

(** [if '}' in line]; the boolean tells whether [continue] was executed. *)
Definition step_brace (line : string) (loc : Locals) : M (bool * Locals) :=
  if contains "}" line then
    if safe_close loc then ret (true, set_safe_close false loc)
    else
      match my_parent loc with
      | None => ret (false, loc)
      | Some p =>
          match parent p with
          | None => ret (false, set_my_parent None loc)
          | Some q =>
              emit (EvSelect (full_path q)) ;;
              ret (false, set_my_parent (Some q) loc)
          end
      end
  else ret (false, loc).

(** One round of the loop that appends the animated channels *)
Definition append_channel (chan : list string) (loc : Locals) (i : nat)
  : M unit :=
  match my_parent loc with
  | None => raise AttributeError
  | Some p =>
      match nth_error chan (2 + i) with
      | None => raise IndexError
      | Some name =>
          match translationDict name with
          | None => raise KeyError
          | Some attr =>
              update_self (fun s =>
                set_channels (_channels s ++ [full_path p ++ "." ++ attr]) s)
          end
      end
  end.

(** [if 'CHANNELS' in line] *)
Definition step_channels (line : string) (loc : Locals) : M Locals :=
  if contains "CHANNELS" line then
    let chan := tokens line in
    match index (axis_string chan) rotation_orders with
    | None => raise ValueError
    | Some rot_order =>
        match nth_error chan 1 with
        | None => raise IndexError
        | Some count =>
            match int count with
            | None => raise ValueError
            | Some n =>
                for_each (seq 0 (Z.to_nat n)) (append_channel chan loc) ;;
                match jnt loc with
                | None => raise UnboundLocalError
                | Some j =>
                    emit (EvSetAttrZ (format_jnt j ++ ".rotateOrder") rot_order) ;;
                    ret loc
                end
            end
        end
    end
  else ret loc.

(** [if 'OFFSET' in line] *)
Definition step_offset (line : string) (loc : Locals) : M Locals :=
  if contains "OFFSET" line then
    let offset := tokens line in
    let jnt_name :=
      match my_parent loc with Some p => dag_str p | None => "None" end in
    let jnt_name := if safe_close loc then jnt_name ++ "_tip" else jnt_name in
    match my_parent loc with
    | None => raise AttributeError
    | Some p =>
        exists_ <- call (maya_objExists (full_path p))
                        (EvObjExists (full_path p)) ;;
        j <- (if exists_ : bool then ret (full_path p)
              else call (maya_joint jnt_name) (EvJoint jnt_name)) ;;
        match floats py_float (tl offset) with
        | None => raise ValueError
        | Some vs =>
            emit (EvSetAttrF (j ++ ".translate") vs (Some "double3")) ;;
            ret (set_jnt (JntRef j) loc)
        end
    end
  else ret loc.

(** [if 'MOTION' in line] *)
Definition step_motion (line : string) (loc : Locals) : Locals :=
  if contains "MOTION" line then set_motion true loc else loc.

(** A line read while [motion] is off *)
Definition hierarchy_line (line : string) (loc : Locals) : M Locals :=
  loc <- step_root line loc ;;
  loc <- step_joint line loc ;;
  r <- step_brace line (step_end_site line loc) ;;
  if fst r then ret (snd r)
  else
    loc <- step_channels line (snd r) ;;
    loc <- step_offset line loc ;;
    ret (step_motion line loc).

(** One round of the loop over the values of a data line *)
Definition set_key (time : Z) (iv : nat * string) : M unit :=
  s <- get_self ;;
  match nth_error (_channels s) (fst iv) with
  | None => raise IndexError
  | Some attr =>
      match py_float (snd iv) with
      | None => raise ValueError
      | Some v => emit (EvSetKeyframe attr time v)
      end
  end.

(** A line read while [motion] is on *)
Definition motion_line (line : string) (loc : Locals) : M Locals :=
  if contains "Frame" line then ret loc
  else
    for_each (enumerate_from 0 (tokens line)) (set_key (frame loc)) ;;
    ret (set_frame (frame loc + 1) loc).

(** The body of [for line in self.data] *)
Definition read_line (line : string) (loc : Locals) : M Locals :=
  let line := replace_char "009" " " line in
  if motion loc then motion_line line loc else hierarchy_line line loc.

Fixpoint read_lines (lines : list string) (loc : Locals) : M Locals :=
  match lines with
  | [] => ret loc
  | line :: rest => loc' <- read_line line loc ;; read_lines rest loc'
  end.

(** What [readFile] does before the loop: the channels are cleared and the
    first parent is the new group or the persisted root. *)
Definition readFile_enter : M TinyDAG :=
  update_self (set_channels []) ;;
  s <- get_self ;;
  match _root_node s with
  | None =>
      match file_path s with
      | None => raise AttributeError
      | Some fp =>
          grp <- call (maya_group ("_mocap_" ++ basename fp ++ "_grp"))
                      (EvGroup ("_mocap_" ++ basename fp ++ "_grp")) ;;
          emit (EvSetAttrF (grp ++ ".scale") [scale s; scale s; scale s] None) ;;
          ret (Dag (ObjStr grp) None)
      end
  | Some r =>
      emit (EvSetAttrF (split_head "|" (root_node s) ++ ".scale")
              [scale s; scale s; scale s] None) ;;
      _clear_animation ;;
      ret (Dag (ObjDag r) None)
  end.

(** [readFile]; the local variables at the end of the loop are returned so
    that the frame counter can be observed. *)
Definition readFile : M Locals :=
  p <- readFile_enter ;;
  s <- get_self ;;
  match data s with
  | None => raise TypeError
  | Some lines => read_lines lines (mkLocals false false 0 (Some p) None)
  end.

(** [getData] *)
Definition getData (path : string) (scale : F) : M Locals :=
  match open_readlines path with
  | None => raise OSError
  | Some lines =>
      update_self (set_data (Some lines)) ;;
      match lines with
      | [] => raise IndexError
      | first :: _ =>
          if startswith first "HIERARCHY" then
            update_self (set_scale scale) ;; readFile
          else
            update_self (set_data None) ;;
            raise (Exception "No valid bvh file was loaded")
      end
  end.

(** [__init__] *)
Definition init (path : string) (scale : F) : M Locals :=
  let path := cleanPath path in
  set_self (mkSession None scale [] None None None) ;;
  if os_path_exists path then
    update_self (set_file_path path) ;; getData path scale
  else raise (Exception "File does not exist on disk").

End Importer.

Arguments call {F Scene host A}.
Arguments emit {F Scene host}.
Arguments update_self {F Scene}.
Arguments clear_attr {F Scene host}.
Arguments clear_node {F Scene host}.
Arguments _clear_animation {F Scene host}.
Arguments step_root {F Scene}.
Arguments step_joint {F Scene}.
Arguments step_brace {F Scene host}.
Arguments append_channel {F Scene}.
Arguments step_channels {F Scene host}.
Arguments step_offset {F Scene host}.
Arguments hierarchy_line {F Scene host}.
Arguments set_key {F Scene host}.
Arguments motion_line {F Scene host}.
Arguments read_line {F Scene host}.
Arguments read_lines {F Scene host}.
Arguments readFile_enter {F Scene host}.
Arguments readFile {F Scene host}.
Arguments getData {F Scene host}.
Arguments init {F Scene host}.

(** ** A simulated host

    A small scene to run the importer on concrete files: the nodes are kept
    by their paths, a path names a node when it is the node's path or a
    suffix of it after a [|], a new joint goes under the selected node, and
    the keys of an attribute stand for its animation curve. *)

Module Sim.

(** Decimal literals without exponent: the digits as an integer and the
    number of digits after the point. *)
Definition Dec : Type := (Z * nat)%type.

Fixpoint split_point (s : string) : string * option string :=
  match s with
  | EmptyString => (EmptyString, None)
  | String c s' =>
      if Ascii.eqb c "." then (EmptyString, Some s')
      else let r := split_point s' in (String c (fst r), snd r)
  end.

Definition float (s : string) : option Dec :=
  match split_point s with
  | (i, None) => option_map (fun n => (n, O)) (Py.int i)
  | (i, Some f) => option_map (fun n => (n, String.length f)) (Py.int (i ++ f))
  end.

Record Scene : Type := mkScene {
  nodes : list string;
  selection : list string;
  keys : list (string * Z * Dec)
}.

Fixpoint ends_with (s suffix : string) : bool :=
  String.eqb s suffix ||
  match s with
  | EmptyString => false
  | String _ s' => ends_with s' suffix
  end.

Definition names (path node : string) : bool :=
  String.eqb node path || ends_with node ("|" ++ path).

Definition resolve (path : string) (sc : Scene) : option string :=
  find (names path) (nodes sc).

(** [node.attr] with the node resolved; an unknown node is left as it is. *)
Fixpoint resolve_attr (acc attr : string) (sc : Scene) : string :=
  match attr with
  | EmptyString => acc
  | String c rest =>
      if Ascii.eqb c "." && negb (Py.contains "." rest) then
        match resolve acc sc with
        | Some n => n ++ "." ++ rest
        | None => acc ++ "." ++ rest
        end
      else resolve_attr (acc ++ String c EmptyString) rest sc
  end.

Definition has_key (attr : string) (k : string * Z * Dec) : bool :=
  String.eqb (fst (fst k)) attr.

Definition under (root node : string) : bool :=
  String.eqb node root || Py.startswith node (root ++ "|").

Definition new_joint (name : string) (sc : Scene) : string :=
  match selection sc with
  | p :: _ => p ++ "|" ++ name
  | [] => name
  end.

Definition step (ev : MayaEvent Dec) (sc : Scene) : Scene :=
  match ev with
  | EvGroup name _ =>
      mkScene (nodes sc ++ [name]) [name] (keys sc)
  | EvJoint name _ =>
      mkScene (nodes sc ++ [new_joint name sc]) [new_joint name sc] (keys sc)
  | EvSelect path =>
      mkScene (nodes sc)
        (match resolve path sc with Some n => [n] | None => [] end)
        (keys sc)
  | EvSelectHi name =>
      mkScene (nodes sc)
        (match resolve name sc with
         | Some n => filter (under n) (nodes sc)
         | None => []
         end)
        (keys sc)
  | EvDelete curves =>
      mkScene (nodes sc) (selection sc)
        (filter (fun k => negb (existsb (String.eqb (fst (fst k))) curves))
           (keys sc))
  | EvSetKeyframe attr time value =>
      mkScene (nodes sc) (selection sc)
        (filter (fun k => negb (has_key (resolve_attr "" attr sc) k
                                && (snd (fst k) =? time)))
           (keys sc)
         ++ [(resolve_attr "" attr sc, time, value)])
  | _ => sc
  end.

Definition listConnections (attr : string) (sc : Scene) : option (list string) :=
  if existsb (has_key (resolve_attr "" attr sc)) (keys sc)
  then Some [resolve_attr "" attr sc] else None.

Definition lookup_file (path : string) (fs : list (string * list string))
  : option (list string) :=
  option_map snd (find (fun e => String.eqb (fst e) path) fs).

End Sim.

(** The file system is fixed when the host is built. *)
Definition sim_host (fs : list (string * list string))
  : Host Sim.Dec Sim.Scene := {|
  maya_group := fun name _ => name;
  maya_objExists := fun path sc =>
    match Sim.resolve path sc with Some _ => true | None => false end;
  maya_joint := fun name _ => name;
  maya_ls := Sim.selection;
  maya_listConnections := Sim.listConnections;
  maya_step := Sim.step;
  os_path_exists := fun path =>
    match Sim.lookup_file path fs with Some _ => true | None => false end;
  open_readlines := fun path => Sim.lookup_file path fs;
  py_float := Sim.float
|}.

(** [f.readlines()] of a text: the lines with their line ends *)
Fixpoint readlines_from (cur : list ascii) (text : string) : list string :=
  match text with
  | EmptyString =>
      match cur with
      | [] => []
      | _ => [string_of_list_ascii (rev cur)]
      end
  | String c rest =>
      if Ascii.eqb c "010"
      then string_of_list_ascii (rev (c :: cur)) :: readlines_from [] rest
      else readlines_from (c :: cur) rest
  end.

Definition readlines (text : string) : list string := readlines_from [] text.

(** The empty scene and a world over it *)
Definition empty_scene : Sim.Scene := Sim.mkScene [] [] [].

Definition new_world : World Sim.Dec Sim.Scene :=
  mkWorld (mkSession None (1, O) [] None None None) empty_scene [].

(** The scenario of the specification: one root joint with six channels and
    two frames. *)
Definition hip_bvh : list string := readlines
"HIERARCHY
ROOT Hip
{
OFFSET 0 0 0
CHANNELS 6 Xposition Yposition Zposition Zrotation Xrotation Yrotation
}
MOTION
Frames: 2
Frame Time: 0.033333
0 0 0 0 0 0
1 2 3 4 5 6
".

(** A chain of two joints under the root, the last one closed by an
    [End Site]. *)
Definition arm_bvh : list string := readlines
"HIERARCHY
ROOT Hip
{
	OFFSET 0 0 0
	CHANNELS 6 Xposition Yposition Zposition Zrotation Xrotation Yrotation
	JOINT A
	{
		OFFSET 1 2 3
		CHANNELS 3 Zrotation Xrotation Yrotation
		JOINT B
		{
			OFFSET 4 5 6
			CHANNELS 3 Zrotation Xrotation Yrotation
			End Site
			{
				OFFSET 0 0 5
			}
		}
	}
}
MOTION
Frames: 2
Frame Time: 0.033333
0 0 0 0 0 0 10 11 12 20 21 22
1 2 3 4 5 6 13 14 15 23 24 25
".

(** A file in which the block of joint [A] has its [CHANNELS] line before
    its [OFFSET] line. *)
Definition swapped_bvh : list string := readlines
"HIERARCHY
ROOT Hip
{
OFFSET 0 0 0
CHANNELS 6 Xposition Yposition Zposition Zrotation Xrotation Yrotation
JOINT A
{
CHANNELS 3 Zrotation Xrotation Yrotation
OFFSET 1 2 3
}
}
MOTION
Frames: 1
Frame Time: 0.033333
0 0 0 0 0 0 10 11 12
".

(** A text file that is no BVH file: its first line is blank. *)
Definition notes_txt : list string := readlines
"
walk cycle, take 3
".

Definition sim_fs : list (string * list string) :=
  [("hip.bvh", hip_bvh); ("takes/arm.bvh", arm_bvh);
   ("swapped.bvh", swapped_bvh); ("notes.txt", notes_txt)].

#[export] Instance sim : Host Sim.Dec Sim.Scene := sim_host sim_fs.

Definition one : Sim.Dec := (1, O).

(** The worlds after a first import of the scenario files *)
Definition hip_world : World Sim.Dec Sim.Scene :=
  snd (init (host := sim) "hip.bvh" one new_world).

Definition arm_world : World Sim.Dec Sim.Scene :=
  snd (init (host := sim) "takes\arm.bvh" one new_world).

(** An object that has loaded the first scenario and has not read it yet;
    its channel table holds an entry of an earlier use. *)
Definition hip_loaded : World Sim.Dec Sim.Scene :=
  mkWorld (mkSession (Some hip_bvh) one ["old|Hip.rotateX"] None None
             (Some "hip.bvh"))
    empty_scene [].

(** The local variables when the loop of a first pass starts under a group
    [grp], and those at the end of the first scenario. *)
Definition start_loc : Locals :=
  mkLocals false false 0 (Some (Dag (ObjStr "grp") None)) None.

Definition hip_end_loc : Locals :=
  mkLocals false true 2 (Some (Dag (ObjStr "_mocap_hip.bvh_grp") None))
    (Some (JntRef "Hip")).

(** The joints created in a trace, and the translations set *)
Fixpoint joints_created {F} (tr : list (MayaEvent F)) : list string :=
  match tr with
  | [] => []
  | EvJoint name _ :: tr' => name :: joints_created tr'
  | _ :: tr' => joints_created tr'
  end.

Fixpoint translations {F} (tr : list (MayaEvent F)) : list (string * list F) :=
  match tr with
  | [] => []
  | EvSetAttrF attr vs (Some _) :: tr' => (attr, vs) :: translations tr'
  | _ :: tr' => translations tr'
  end.


Unset Implicit Arguments.

(** ** Reading a file as the specification sees it *)

(** The line as [readFile] looks at it: tabs replaced by spaces. *)
Definition norm (line : string) : string := replace_char "009" " " line.

(** A line on which [readFile] looks for numbers *)
Definition is_data_line (line : string) : bool :=
  negb (contains "Frame" (norm line)).

Definition is_channels_line (line : string) : bool :=
  contains "CHANNELS" (norm line).

(** The count declared by a [CHANNELS] line, as [range] uses it *)
Definition declared_count (line : string) : nat :=
  match nth_error (tokens (norm line)) 1 with
  | Some count =>
      match int count with
      | Some n => Z.to_nat n
      | None => O
      end
  | None => O
  end.

(** The hierarchy section: the lines up to the [MOTION] marker, the marker
    included.  The motion section: what follows the marker. *)
Fixpoint hierarchy_section (lines : list string) : list string :=
  match lines with
  | [] => []
  | l :: rest =>
      if contains "MOTION" (norm l) then [l] else l :: hierarchy_section rest
  end.

Fixpoint motion_section (lines : list string) : list string :=
  match lines with
  | [] => []
  | l :: rest =>
      if contains "MOTION" (norm l) then rest else motion_section rest
  end.

(** In a valid file a line with a closing brace carries no keyword that
    [readFile] checks after the brace. *)
Definition brace_alone (line : string) : bool :=
  negb (contains "}" (norm line))
  || negb (contains "CHANNELS" (norm line) || contains "OFFSET" (norm line)
           || contains "MOTION" (norm line)).

(** The first line with content *)
Definition first_content_line (lines : list string) : option string :=
  find (fun l => negb (String.eqb (strip l) "")) lines.

(** The keyframes set in a trace: attribute, time and value *)
Definition keyframe_of {F} (ev : MayaEvent F) : option (string * Z * F) :=
  match ev with
  | EvSetKeyframe attr time value => Some (attr, time, value)
  | _ => None
  end.

Fixpoint keyframes {F} (tr : list (MayaEvent F)) : list (string * Z * F) :=
  match tr with
  | [] => []
  | ev :: tr' =>
      match keyframe_of ev with
      | Some k => k :: keyframes tr'
      | None => keyframes tr'
      end
  end.

(** The events of the clear-animation pass on one node, given what the host
    answered for each of the six attributes. *)
Definition clear_attr_events F (node : string)
  (q : string * option (list string)) : list (MayaEvent F) :=
  EvListConnections (node ++ "." ++ fst q) (snd q)
  :: match snd q with
     | Some c => [EvDelete c]
     | None => []
     end.

Definition clear_node_events F (node : string)
  (answers : list (option (list string))) : list (MayaEvent F) :=
  flat_map (clear_attr_events F node)
    (combine (trans_attrs ++ rot_attrs) answers)
  ++ map (fun attr => EvSetAttrZ (node ++ "." ++ attr) 0) rot_attrs.

Definition clear_events F (nodes : list string)
  (answers : list (list (option (list string)))) : list (MayaEvent F) :=
  concat (map (fun na => clear_node_events F (fst na) (snd na))
            (combine nodes answers)).

(** What the clear-animation pass may write: 0 into a rotation attribute of
    one of the listed nodes, and no keyframe. *)
Definition writes_only_rotation_zero F (nodes : list string)
  (ev : MayaEvent F) : Prop :=
  match ev with
  | EvSetAttrZ a v =>
      v = 0 /\ exists node attr,
        In node nodes /\ In attr rot_attrs /\ a = node ++ "." ++ attr
  | EvSetAttrF _ _ _ => False
  | EvSetKeyframe _ _ _ => False
  | EvGroup _ _ => False
  | EvJoint _ _ => False
  | _ => True
  end.

(** The keyframe event of a channel and a value at a time *)
Definition key_event {F} (time : Z) (cv : string * F) : MayaEvent F :=
  EvSetKeyframe (fst cv) time (snd cv).

(** The keys a motion section asks for, with the number as it is written:
    the tokens of the data lines paired with the channels in order, the data
    lines counted from [time]. *)
Definition row_keys (channels : list string) (time : Z) (line : string)
  : list (string * Z * string) :=
  map (fun ct => (fst ct, time, snd ct)) (combine channels (tokens (norm line))).

Fixpoint motion_keys (channels : list string) (time : Z) (lines : list string)
  : list (string * Z * string) :=
  match lines with
  | [] => []
  | l :: rest =>
      if is_data_line l
      then (row_keys channels time l ++ motion_keys channels (time + 1) rest)%list
      else motion_keys channels time rest
  end.

(** A key that was set agrees with a key that was asked for. *)
Definition key_agrees {F} (py_float : string -> option F)
  (set : string * Z * F) (asked : string * Z * string) : Prop :=
  fst (fst set) = fst (fst asked) /\ snd (fst set) = snd (fst asked) /\
  py_float (snd asked) = Some (snd set).

(** The entry of the channel table for a channel name of a joint *)
Definition binding (path name : string) : option string :=
  option_map (fun attr => path ++ "." ++ attr) (translationDict name).

(** The entries a [CHANNELS] line adds: as many as it declares, bound to
    its first channel names on one joint. *)
Definition is_block (line : string) (block : list string) : Prop :=
  List.length block = declared_count line /\
  (block = [] \/
   exists p : TinyDAG,
     Forall2 (fun name entry => binding (full_path p) name = Some entry)
       (firstn (declared_count line) (skipn 2 (tokens (norm line)))) block).


(** A line that triggers none of the checks made after the [ROOT] check *)
Definition keywordless (l : string) : bool :=
  negb (contains "JOINT" l || contains "End Site" l || contains "}" l
        || contains "CHANNELS" l || contains "OFFSET" l || contains "MOTION" l).

(** The number a [CHANNELS] line declares, read on the line as [readFile]
    looks at it *)
Definition count_of (l : string) : nat :=
  match nth_error (tokens l) 1 with
  | Some count =>
      match int count with
      | Some n => Z.to_nat n
      | None => O
      end
  | None => O
  end.

(** The lines after the [ROOT] line are balanced when, up to the [MOTION]
    marker, no other line starts with [ROOT] and every closing brace that is
    not the one of an [End Site] block closes a block that is open: [depth]
    counts the open blocks, [safe] tells whether an [End Site] is open. *)
Fixpoint balanced (depth : nat) (safe : bool) (lines : list string) : bool :=
  match lines with
  | [] => true
  | line :: rest =>
      let l := norm line in
      let depth := if contains "JOINT" l then S depth else depth in
      let safe := safe || contains "End Site" l in
      negb (startswith l "ROOT") &&
      if contains "}" l then
        if safe then balanced depth false rest
        else
          match depth with
          | O => false
          | S d => contains "MOTION" l || balanced d false rest
          end
      else contains "MOTION" l || balanced depth safe rest
  end.

(** A file with a valid hierarchy: lines without keyword, then the [ROOT]
    line, which carries no other keyword, then balanced lines. *)
Fixpoint valid_hierarchy (lines : list string) : bool :=
  match lines with
  | [] => false
  | line :: rest =>
      keywordless (norm line) &&
      if startswith (norm line) "ROOT" then balanced 1 false rest
      else valid_hierarchy rest
  end.

(** A key on the same attribute, addressed below a group *)
Definition under {F} (prefix : string) (k : string * Z * F) : string * Z * F :=
  (prefix ++ fst (fst k), snd (fst k), snd k).

(** The current node after the [JOINT] check, and after going up *)
Definition after_joint (l : string) (p : option TinyDAG) : option TinyDAG :=
  if contains "JOINT" l then
    match nth_error (tokens l) 1 with
    | Some name => Some (Dag (ObjStr name) p)
    | None => p
    end
  else p.

Definition pop (p : option TinyDAG) : option TinyDAG :=
  match p with
  | Some d => parent d
  | None => None
  end.

(** [above G d p1 p2]: the node [p1] of a first pass stands [d] levels above
    the group [G], and [p2] is the same chain of nodes without the group,
    as a second pass builds it. *)
Inductive above (G : TinyDAG) : nat -> TinyDAG -> option TinyDAG -> Prop :=
| above_top : above G O G None
| above_node d o p1 p2 :
    above G d p1 p2 -> above G (S d) (Dag o (Some p1)) (Some (Dag o p2)).


(** A check is steady when it leaves the frame counter, [motion], the
    channel table and the keys of the trace as they were. *)
Definition steady {F Scene} (loc loc' : Locals) (w w' : World F Scene) : Prop :=
  frame loc' = frame loc /\ motion loc' = motion loc /\
  _channels (self w') = _channels (self w) /\
  keyframes (trace w') = keyframes (trace w).

(** The world after a [maya.cmds] call that returns nothing *)
Definition with_event {F Scene} {host : Host F Scene} (ev : MayaEvent F)
  (w : World F Scene) : World F Scene :=
  mkWorld (self w) (maya_step ev (scene w)) (trace w ++ [ev]).

(** The name given to a joint that an [OFFSET] line creates *)
Definition new_joint_name (loc : Locals) (p : TinyDAG) : string :=
  if safe_close loc then dag_str p ++ "_tip" else dag_str p.

(** The root of the first scenario as the first pass records it *)
Definition hip_root : TinyDAG :=
  Dag (ObjStr "Hip") (Some (Dag (ObjStr "_mocap_hip.bvh_grp") None)).

(** The state of the third scenario after the [OFFSET] and [CHANNELS] lines
    of the root *)
Definition swapped_before : Result Locals * World Sim.Dec Sim.Scene :=
  read_lines (host := sim) (firstn 5 swapped_bvh) start_loc new_world.

(** The first scenario read once, and read again by the same object; the
    local variables at the end of the second pass *)
Definition hip_first : World Sim.Dec Sim.Scene :=
  snd (readFile (host := sim) hip_loaded).

Definition hip_second : World Sim.Dec Sim.Scene :=
  snd (readFile (host := sim) hip_first).

Definition hip_again_loc : Locals :=
  mkLocals false true 2 None (Some (JntRef "Hip")).

(** The keys set by the first pass and those set by the second pass *)
Definition hip_first_keys : list (string * Z * Sim.Dec) :=
  keyframes (trace hip_first).

Definition hip_second_keys : list (string * Z * Sim.Dec) :=
  skipn (List.length hip_first_keys) (keyframes (trace hip_second)).

(** The node reached from [p] by one [TinyDAG(name, current)] for each name,
    as [readFile] does on successive [JOINT] lines *)
Definition descend (p : TinyDAG) (names : list string) : TinyDAG :=
  fold_left (fun q name => Dag (ObjStr name) (Some q)) names p.

(** A line made of white space only *)
Fixpoint all_space (s : string) : bool :=
  match s with
  | EmptyString => true
  | String c s' => is_space c && all_space s'
  end.

(** What a method keeps of the object it runs on: the loaded lines, the
    scale and the path are as they were, and a root that is on record stays
    on record with its full path. *)
Definition kept {F} (s s' : Session F) : Prop :=
  data s' = data s /\ scale s' = scale s /\ file_path s' = file_path s /\
  forall r, _root_node s = Some r ->
    _root_node s' = Some r /\ _root_node_full_path s' = _root_node_full_path s.

(** A computation respects a relation on worlds when the world it ends in,
    whether it returns or raises, is related to the world it starts in. *)
Definition respects {F Scene A}
  (R : World F Scene -> World F Scene -> Prop) (c : M F Scene A) : Prop :=
  forall w, R w (snd (c w)).

(** The calls [readFile] makes while it reads the lines: those of the
    hierarchy section, and the keys of the motion section *)
Definition hier_event {F} (ev : MayaEvent F) : bool :=
  match ev with
  | EvSelect _ | EvObjExists _ _ | EvJoint _ _ | EvSetAttrF _ _ _
  | EvSetAttrZ _ _ => true
  | _ => false
  end.

Definition line_event {F} (ev : MayaEvent F) : bool :=
  hier_event ev || match ev with EvSetKeyframe _ _ _ => true | _ => false end.

Definition line_events {F Scene} (w w' : World F Scene) : Prop :=
  exists evs,
    trace w' = (trace w ++ evs)%list /\ forallb line_event evs = true.

(** The root on record belongs to the lines: it carries the name of a line
    that starts with [ROOT], and the full path on record is its own. *)
Definition rooted {F} (lines : list string) (s : Session F) : Prop :=
  match _root_node s with
  | None => _root_node_full_path s = None
  | Some r =>
      _root_node_full_path s = Some (full_path r) /\
      exists line,
        In line lines /\ startswith (norm line) "ROOT" = true /\
        dag_str r = rstrip (slice_from 5 (norm line))
  end.

(** A host whose files all exist and cannot be read, and a host with one
    empty file *)
Definition locked_host : Host Sim.Dec Sim.Scene := {|
  maya_group := fun name _ => name;
  maya_objExists := fun _ _ => false;
  maya_joint := fun name _ => name;
  maya_ls := Sim.selection;
  maya_listConnections := Sim.listConnections;
  maya_step := Sim.step;
  os_path_exists := fun _ => true;
  open_readlines := fun _ => None;
  py_float := Sim.float
|}.

Definition empty_file_host : Host Sim.Dec Sim.Scene :=
  sim_host [("empty.bvh", [])].


(** A key set on an attribute of the channel table at a time from [lo] on,
    and before [hi] when there is one *)
Definition key_within {F} (channels : list string) (lo : Z) (hi : option Z)
  (ev : MayaEvent F) : Prop :=
  match ev with
  | EvSetKeyframe attr time _ =>
      In attr channels /\ lo <= time /\
      match hi with
      | Some h => time < h
      | None => True
      end
  | _ => False
  end.

(** The frame counter of a result, when there is one *)
Definition frame_of {W} (out : Result Locals * W) : option Z :=
  match fst out with
  | Ok loc => Some (frame loc)
  | Raise _ => None
  end.

(** A line before the [ROOT] line of a valid file *)
Definition before_root (line : string) : bool :=
  keywordless (norm line) && negb (startswith (norm line) "ROOT").


(** Two sets of local variables that differ at most in the joint that
    [jnt] holds *)
Definition same_locals (l1 l2 : Locals) : Prop :=
  safe_close l1 = safe_close l2 /\ motion l1 = motion l2 /\
  frame l1 = frame l2 /\ my_parent l1 = my_parent l2 /\
  (jnt l1 = None <-> jnt l2 = None).

(** Two outcomes, reached from [w1] and from [w2], that agree: both return,
    with related values, or both raise the same exception; the object is the
    same in both; and the same keys were set, in the same order. *)
Definition same_outcome {F Scene A} (RA : A -> A -> Prop)
  (w1 w2 : World F Scene) (out1 out2 : Result A * World F Scene) : Prop :=
  match fst out1, fst out2 with
  | Ok a1, Ok a2 => RA a1 a2
  | Raise e1, Raise e2 => e1 = e2
  | _, _ => False
  end /\
  self (snd out1) = self (snd out2) /\
  exists keys,
    keyframes (trace (snd out1)) = (keyframes (trace w1) ++ keys)%list /\
    keyframes (trace (snd out2)) = (keyframes (trace w2) ++ keys)%list.

(** Two computations agree when they have agreeing outcomes from any two
    worlds that hold the same object, whatever their scenes. *)
Definition agree {F Scene A} (RA : A -> A -> Prop) (c1 c2 : M F Scene A)
  : Prop :=
  forall w1 w2, self w1 = self w2 -> same_outcome RA w1 w2 (c1 w1) (c2 w2).

(** A computation that returns, leaves the object as it is and sets no key *)
Definition quiet {F Scene A} (c : M F Scene A) : Prop :=
  forall w, exists a w',
    c w = (Ok a, w') /\ self w' = self w /\
    keyframes (trace w') = keyframes (trace w).


(** A line without the [MOTION] marker *)
Definition no_marker (line : string) : bool :=
  negb (contains "MOTION" (norm line)).


(** An entry of the channel table names one of the six attributes of a
    node; a key on such an entry; a pass that, started with such a table,
    ends with such a table and has set such keys only. *)
Definition animated (entry : string) : Prop :=
  exists path attr,
    entry = path ++ "." ++ attr /\ In attr (trans_attrs ++ rot_attrs).

Definition keys_animated {F} (ev : MayaEvent F) : Prop :=
  match ev with
  | EvSetKeyframe attr _ _ => animated attr
  | _ => True
  end.

Definition sound_table {F Scene} (w w' : World F Scene) : Prop :=
  Forall animated (_channels (self w)) ->
  Forall animated (_channels (self w')) /\
  exists evs, trace w' = (trace w ++ evs)%list /\ Forall keys_animated evs.


(** * Properties *)

Section Properties.

Variables F Scene : Type.
Context {host : Host F Scene}.

Local Abbreviation M := (M F Scene).
Local Abbreviation World := (World F Scene).

(** ** The monad *)

Lemma bind_ok {A B} (c : M A) (k : A -> M B) w b w' :
  bind c k w = (Ok b, w') ->
  exists a w1, c w = (Ok a, w1) /\ k a w1 = (Ok b, w').
Proof.
  unfold bind. destruct (c w) as [[a | e] w1]; intros H.
  - exists a, w1. auto.
  - discriminate.
Qed.

Lemma bind_run {A B} (c : M A) (k : A -> M B) w a w1 :
  c w = (Ok a, w1) -> bind c k w = k a w1.
Proof. intros H. unfold bind. rewrite H. reflexivity. Qed.

Lemma bind_raise {A B} (c : M A) (k : A -> M B) w e w1 :
  c w = (Raise e, w1) -> bind c k w = (Raise e, w1).
Proof. intros H. unfold bind. rewrite H. reflexivity. Qed.

(** ** The rotation-order table *)

Lemma last_n_app {A} (pre l : list A) :
  last_n (List.length l) (pre ++ l) = l.
Proof.
  unfold last_n. rewrite length_app.
  replace (List.length pre + List.length l - List.length l)%nat
    with (List.length pre + 0)%nat by lia.
  rewrite skipn_app, Nat.add_0_r, skipn_all.
  replace (List.length pre - List.length pre)%nat with O by lia.
  reflexivity.
Qed.

Lemma strip_rotation (a : ascii) :
  replace "rotation" "" (String a "rotation") = String a "".
Proof.
  unfold replace. cbn [replace_from].
  replace (starts "rotation" (String a "rotation")) with false
    by (cbn; rewrite andb_false_r; reflexivity).
  reflexivity.
Qed.

Lemma axis_string_reversed (a b c : ascii) (pre : list string) :
  axis_string
    (pre ++ [String a "rotation"; String b "rotation"; String c "rotation"])
  = String c (String b (String a "")).
Proof.
  unfold axis_string.
  change 3%nat with
    (List.length
       [String a "rotation"; String b "rotation"; String c "rotation"]).
  rewrite last_n_app. cbn [map rev app]. rewrite !strip_rotation. reflexivity.
Qed.

Lemma index_sound (x : string) (l : list string) :
  match index x l with
  | Some k => nth_error l (Z.to_nat k) = Some x /\ 0 <= k
  | None => ~ In x l
  end.
Proof.
  induction l as [| y l IH]; simpl.
  - tauto.
  - destruct (String.eqb_spec y x) as [-> | Hne].
    + split; [reflexivity | lia].
    + destruct (index x l) as [k |]; simpl.
      * destruct IH as [IH Hk]. split; [| lia].
        rewrite Z2Nat.inj_succ by assumption. exact IH.
      * intros [H | H]; [congruence | tauto].
Qed.

Lemma index_none (x : string) (l : list string) :
  ~ In x l -> index x l = None.
Proof.
  intros H. pose proof (index_sound x l) as S.
  destruct (index x l) as [k |]; [| reflexivity].
  destruct S as [S _]. apply nth_error_In in S. tauto.
Qed.

(** A [CHANNELS] line that is read to its end has found its axis string in
    the table and has set that code as the rotation order of [jnt]. *)
Lemma step_channels_ok line loc (w : World) loc' w' :
  contains "CHANNELS" line = true ->
  step_channels line loc w = (Ok loc', w') ->
  exists code j n,
    index (axis_string (tokens line)) rotation_orders = Some code /\
    option_map int (nth_error (tokens line) 1) = Some (Some n) /\
    jnt loc = Some j /\ loc' = loc /\
    exists w1,
      for_each (seq 0 (Z.to_nat n)) (append_channel (tokens line) loc) w
      = (Ok tt, w1) /\
      w' = mkWorld (self w1)
             (maya_step (EvSetAttrZ (format_jnt j ++ ".rotateOrder") code)
                (scene w1))
             (trace w1 ++ [EvSetAttrZ (format_jnt j ++ ".rotateOrder") code]).
Proof.
  intros Hc H. unfold step_channels in H. rewrite Hc in H.
  destruct (index (axis_string (tokens line)) rotation_orders) as [code |];
    [| discriminate].
  destruct (nth_error (tokens line) 1) as [count |]; [| discriminate].
  destruct (int count) as [n |] eqn:En; [| discriminate].
  apply bind_ok in H. destruct H as ([] & w1 & H1 & H).
  destruct (jnt loc) as [j |]; [| discriminate].
  unfold bind, emit, call, ret in H. cbn in H. inversion H; subst.
  exists code, j, n. split; [reflexivity |].
  split; [cbn; rewrite En; reflexivity |].
  do 2 (split; [reflexivity |]).
  exists w1. split; [exact H1 | reflexivity].
Qed.

(** C2. The axis string of a [CHANNELS] line is made of the letters of its
    last three rotation tokens in reverse order; it is looked up in the table
    XYZ=0, YZX=1, ZXY=2, XZY=3, YXZ=4, ZYX=5, so that a line ending in
    [Zrotation Xrotation Yrotation] gives [YXZ] and the code 4, which is the
    code set as rotation order; a string that is not in the table has no
    code, and the line then raises [ValueError] before anything is done. *)
Theorem rotation_order_derivation :
  (forall (a b c : ascii) (pre : list string),
     axis_string
       (pre ++ [String a "rotation"; String b "rotation"; String c "rotation"])
     = String c (String b (String a ""))) /\
  map (fun s => index s rotation_orders)
    ["XYZ"; "YZX"; "ZXY"; "XZY"; "YXZ"; "ZYX"]
  = [Some 0; Some 1; Some 2; Some 3; Some 4; Some 5] /\
  (forall pre : list string,
     axis_string (pre ++ ["Zrotation"; "Xrotation"; "Yrotation"]) = "YXZ" /\
     index (axis_string (pre ++ ["Zrotation"; "Xrotation"; "Yrotation"]))
       rotation_orders = Some 4) /\
  (forall axis : string,
     ~ In axis ["XYZ"; "YZX"; "ZXY"; "XZY"; "YXZ"; "ZYX"] ->
     index axis rotation_orders = None) /\
  (forall line loc (w : World),
     contains "CHANNELS" line = true ->
     index (axis_string (tokens line)) rotation_orders = None ->
     step_channels line loc w = (Raise ValueError, w)) /\
  (forall line loc (w : World) loc' w',
     contains "CHANNELS" line = true ->
     step_channels line loc w = (Ok loc', w') ->
     exists code j,
       index (axis_string (tokens line)) rotation_orders = Some code /\
       jnt loc = Some j /\
       last (trace w') (EvSelect "")
       = EvSetAttrZ (format_jnt j ++ ".rotateOrder") code).
Proof.
  split; [exact axis_string_reversed |].
  split; [reflexivity |].
  split.
  { intros pre. rewrite (axis_string_reversed "Z" "X" "Y" pre).
    split; reflexivity. }
  split; [intros axis H; apply index_none; exact H |].
  split.
  - intros line loc w Hc Hi. unfold step_channels. rewrite Hc, Hi. reflexivity.
  - intros line loc w loc' w' Hc H.
    destruct (step_channels_ok _ _ _ _ _ Hc H)
      as (code & j & n & Hi & _ & Hj & _ & w1 & _ & ->).
    exists code, j. repeat split; auto. cbn [trace]. apply last_last.
Qed.

(** ** Construction *)

Lemma rstrip_keeps (c : ascii) (s : string) :
  is_space c = false -> rstrip (String c s) <> "".
Proof.
  intros H. cbn [rstrip]. rewrite H.
  destruct (rstrip s); discriminate.
Qed.

Lemma blank_not_hierarchy (s : string) :
  strip s = "" -> startswith s "HIERARCHY" = false.
Proof.
  intros H. destruct s as [| c s]; [reflexivity |].
  unfold startswith. cbn [starts].
  destruct (Ascii.eqb_spec "H" c) as [<- | Hc]; [| reflexivity].
  exfalso. unfold strip in H. cbn [lstrip] in H.
  change (is_space "H") with false in H. cbv iota in H.
  revert H. apply rstrip_keeps. reflexivity.
Qed.

Lemma first_content_line_head (l first : string) (rest : list string) :
  first_content_line (first :: rest) = Some l ->
  startswith l "HIERARCHY" = false ->
  startswith first "HIERARCHY" = false.
Proof.
  unfold first_content_line. cbn [find].
  destruct (String.eqb_spec (strip first) "") as [E | E]; cbn [negb].
  - intros _ _. apply blank_not_hierarchy. exact E.
  - intros H. inversion H. auto.
Qed.

(** C6. Construction raises when the path does not exist, and raises when
    the first line with content does not start with [HIERARCHY]; in both
    cases no [maya.cmds] call has been made and the scene is as it was. *)
Theorem construction_preconditions :
  (forall path scale (w : World),
     os_path_exists (cleanPath path) = false ->
     exists w',
       init path scale w = (Raise (Exception "File does not exist on disk"), w')
       /\ trace w' = trace w /\ scene w' = scene w) /\
  (forall path scale (w : World) lines l,
     os_path_exists (cleanPath path) = true ->
     open_readlines (cleanPath path) = Some lines ->
     first_content_line lines = Some l ->
     startswith l "HIERARCHY" = false ->
     exists w',
       init path scale w
       = (Raise (Exception "No valid bvh file was loaded"), w')
       /\ trace w' = trace w /\ scene w' = scene w).
Proof.
  split.
  - intros path scale w H. unfold init. eexists.
    unfold bind, set_self. cbn. rewrite H. cbn. repeat split.
  - intros path scale w lines l He Ho Hl Hs. unfold init, getData. eexists.
    unfold bind, set_self, update_self, get_self. cbn -[startswith].
    rewrite He. cbn -[startswith]. unfold bind. rewrite Ho.
    destruct lines as [| first rest]; [discriminate |]. cbn -[startswith].
    rewrite (first_content_line_head _ _ _ Hl Hs). cbn. repeat split.
Qed.

(** ** The clear-animation pass *)

Lemma clear_attr_run node attr (w : World) :
  exists w' ans,
    clear_attr node attr w = (Ok tt, w') /\
    self w' = self w /\
    trace w' = (trace w ++ clear_attr_events F node (attr, ans))%list.
Proof.
  unfold clear_attr, bind, call, emit, ret, clear_attr_events. cbn [fst snd].
  cbv beta zeta.
  destruct (maya_listConnections (node ++ "." ++ attr) (scene w)) as [c |].
  - eexists. exists (Some c). split; [reflexivity |]. cbn [self trace].
    rewrite <- app_assoc. split; reflexivity.
  - eexists. exists None. split; [reflexivity |]. split; reflexivity.
Qed.

Lemma clear_attrs_run node attrs (w : World) :
  exists w' answers,
    for_each attrs (clear_attr node) w = (Ok tt, w') /\
    self w' = self w /\ List.length answers = List.length attrs /\
    trace w' = (trace w
               ++ flat_map (clear_attr_events F node) (combine attrs answers))%list.
Proof.
  revert w. induction attrs as [| attr attrs IH]; intros w.
  - exists w, []. cbn. rewrite app_nil_r. auto.
  - destruct (clear_attr_run node attr w) as (w1 & ans & E & Hs1 & Ht1).
    destruct (IH w1) as (w' & answers & Hr & Hs & Hl & Ht).
    exists w', (ans :: answers). cbn [for_each].
    rewrite (bind_run _ _ _ _ _ E). split; [exact Hr |].
    split; [congruence |].
    split; [cbn; rewrite Hl; reflexivity |].
    rewrite Ht, Ht1. cbn [combine flat_map]. rewrite <- app_assoc. reflexivity.
Qed.

Lemma reset_attrs_run node attrs (w : World) :
  exists w',
    for_each attrs (fun attr => emit (EvSetAttrZ (node ++ "." ++ attr) 0)) w
    = (Ok tt, w') /\
    self w' = self w /\
    trace w'
    = (trace w ++ map (fun attr => EvSetAttrZ (node ++ "." ++ attr) 0) attrs)%list.
Proof.
  revert w. induction attrs as [| attr attrs IH]; intros w.
  - exists w. cbn. rewrite app_nil_r. auto.
  - cbn [for_each]. unfold bind at 1. unfold emit at 1, call. cbn beta iota.
    match goal with |- context [for_each _ _ ?w1] =>
      destruct (IH w1) as (w' & Hr & Hs & Ht) end.
    exists w'. split; [exact Hr |]. split; [rewrite Hs; reflexivity |].
    rewrite Ht. cbn [trace map]. rewrite <- app_assoc. reflexivity.
Qed.

Lemma clear_nodes_run nodes (w : World) :
  exists w' answers,
    for_each nodes clear_node w = (Ok tt, w') /\
    self w' = self w /\ List.length answers = List.length nodes /\
    Forall (fun a => List.length a = 6%nat) answers /\
    trace w' = (trace w ++ clear_events F nodes answers)%list.
Proof.
  revert w. induction nodes as [| node nodes IH]; intros w.
  - exists w, []. cbn. rewrite app_nil_r. auto.
  - destruct (clear_attrs_run node (trans_attrs ++ rot_attrs) w)
      as (w1 & ans & H1 & Hs1 & Hl1 & Ht1).
    destruct (reset_attrs_run node rot_attrs w1) as (w2 & H2 & Hs2 & Ht2).
    destruct (IH w2) as (w' & answers & Hr & Hs & Hl & Hf & Ht).
    assert (E : clear_node node w = (Ok tt, w2)).
    { unfold clear_node. rewrite (bind_run _ _ _ _ _ H1). exact H2. }
    exists w', (ans :: answers). cbn [for_each].
    rewrite (bind_run _ _ _ _ _ E).
    split; [exact Hr |]. split; [congruence |].
    split; [cbn; rewrite Hl; reflexivity |].
    split; [constructor; [exact Hl1 | exact Hf] |].
    rewrite Ht, Ht2, Ht1. unfold clear_events. cbn [combine map concat fst snd].
    unfold clear_node_events at 2. rewrite <- !app_assoc. reflexivity.
Qed.

Lemma clear_events_writes nodes answers ev :
  In ev (clear_events F nodes answers) ->
  writes_only_rotation_zero F nodes ev.
Proof.
  unfold clear_events. intros H. apply in_concat in H.
  destruct H as (block & Hb & Hev). apply in_map_iff in Hb.
  destruct Hb as ([node ans] & <- & Hin). cbn [fst snd] in Hev.
  apply in_combine_l in Hin. unfold clear_node_events in Hev.
  apply in_app_or in Hev. destruct Hev as [Hev | Hev].
  - apply in_flat_map in Hev. destruct Hev as ([attr a] & _ & Hev).
    unfold clear_attr_events in Hev. cbn [fst snd] in Hev.
    destruct Hev as [<- | Hev]; [exact I |].
    destruct a as [c |]; [| contradiction].
    destruct Hev as [<- | []]. exact I.
  - apply in_map_iff in Hev. destruct Hev as (attr & <- & Ha).
    split; [reflexivity |]. exists node, attr. auto.
Qed.

(** C9. With a root on record, the clear-animation pass selects the
    hierarchy under the root and, for every node the host then lists in the
    selection, asks for the incoming connections of each of the six
    attributes translateX/Y/Z and rotateX/Y/Z, deletes the nodes returned,
    and then sets rotateX/Y/Z of that node to 0.  Nothing else is written:
    no translation attribute is set and no key is added. *)
Theorem clear_animation_effect (w : World) (r : TinyDAG) :
  _root_node (self w) = Some r ->
  let nodes := maya_ls (maya_step (EvSelectHi (dag_str r)) (scene w)) in
  exists w' answers,
    _clear_animation w = (Ok tt, w') /\
    self w' = self w /\
    List.length answers = List.length nodes /\
    Forall (fun a => List.length a = 6%nat) answers /\
    trace w' = (trace w ++ EvSelectHi (dag_str r) :: EvLs nodes
                           :: clear_events F nodes answers)%list /\
    Forall (writes_only_rotation_zero F nodes) (clear_events F nodes answers).
Proof.
  intros Hr nodes.
  pose (w1 := mkWorld (self w)
           (maya_step (EvLs nodes) (maya_step (EvSelectHi (dag_str r)) (scene w)))
           ((trace w ++ [EvSelectHi (dag_str r)]) ++ [EvLs nodes])).
  destruct (clear_nodes_run nodes w1) as (w' & answers & H & Hs & Hl & Hf & Ht).
  exists w', answers. split.
  { unfold _clear_animation, bind, get_self. rewrite Hr. exact H. }
  split; [exact Hs |].
  split; [exact Hl |]. split; [exact Hf |]. split.
  - rewrite Ht. subst w1. cbn [trace]. rewrite <- !app_assoc. reflexivity.
  - apply Forall_forall. intros ev. apply clear_events_writes.
Qed.

(** ** Motion ingestion *)

Lemma keyframes_app (l1 l2 : list (MayaEvent F)) :
  keyframes (l1 ++ l2) = (keyframes l1 ++ keyframes l2)%list.
Proof.
  induction l1 as [| ev l1 IH]; cbn [keyframes app].
  - reflexivity.
  - destruct (keyframe_of ev); rewrite IH; reflexivity.
Qed.

Lemma keyframes_key_events time (cvs : list (string * F)) :
  keyframes (map (key_event time) cvs)
  = map (fun cv => (fst cv, time, snd cv)) cvs.
Proof.
  induction cvs as [| cv cvs IH]; cbn; [| rewrite IH]; reflexivity.
Qed.

Lemma skipn_nth_error {A} (l : list A) (i : nat) (a : A) :
  nth_error l i = Some a -> skipn i l = a :: skipn (S i) l.
Proof.
  revert i. induction l as [| x l IH]; intros [| i] H; try discriminate.
  - inversion H. reflexivity.
  - cbn in H. cbn [skipn]. rewrite (IH i H). reflexivity.
Qed.

Lemma floats_length (toks : list string) (vs : list F) :
  floats py_float toks = Some vs -> List.length vs = List.length toks.
Proof.
  revert vs. induction toks as [| t toks IH]; intros vs H; cbn in H.
  - inversion H. reflexivity.
  - destruct (py_float t); [| discriminate].
    destruct (floats py_float toks) as [vs' |]; [| discriminate].
    inversion H. cbn. rewrite (IH vs' eq_refl). reflexivity.
Qed.

(** One value of a data line *)
Lemma set_key_run time i tok (w : World) :
  set_key time (i, tok) w =
  match nth_error (_channels (self w)) i with
  | None => (Raise IndexError, w)
  | Some attr =>
      match py_float tok with
      | None => (Raise ValueError, w)
      | Some v =>
          (Ok tt, mkWorld (self w)
                    (maya_step (EvSetKeyframe attr time v) (scene w))
                    (trace w ++ [EvSetKeyframe attr time v]))
      end
  end.
Proof.
  unfold set_key, bind, get_self. cbn [fst snd].
  destruct (nth_error (_channels (self w)) i); [| reflexivity].
  destruct (py_float tok); reflexivity.
Qed.

(** The values of a data line that fit in the channel table are set in
    order, each on the channel at its position. *)
Lemma set_keys_fit time toks : forall vs i (w : World),
  floats py_float toks = Some vs ->
  (i + List.length toks <= List.length (_channels (self w)))%nat ->
  exists w',
    for_each (enumerate_from i toks) (set_key time) w = (Ok tt, w') /\
    self w' = self w /\
    trace w' = (trace w ++ map (key_event time)
                             (combine (skipn i (_channels (self w))) vs))%list.
Proof.
  induction toks as [| tok toks IH]; intros vs i w Hf Hl.
  - inversion Hf. exists w. cbn. rewrite combine_nil, app_nil_r. auto.
  - cbn in Hf. destruct (py_float tok) as [v |] eqn:Ev; [| discriminate].
    destruct (floats py_float toks) as [vs' |] eqn:Evs; [| discriminate].
    inversion Hf; subst vs. cbn [List.length] in Hl.
    destruct (nth_error (_channels (self w)) i) as [attr |] eqn:En.
    2:{ apply nth_error_None in En. lia. }
    cbn [enumerate_from for_each]. unfold bind at 1.
    rewrite set_key_run, En, Ev.
    match goal with |- context [for_each _ _ ?w1] =>
      destruct (IH vs' (S i) w1 eq_refl) as (w' & Hr & Hs & Ht);
        [cbn [self]; lia |]
    end.
    exists w'. split; [exact Hr |]. split; [rewrite Hs; reflexivity |].
    rewrite Ht. cbn [self trace]. rewrite (skipn_nth_error _ _ _ En).
    cbn [combine map]. rewrite <- app_assoc. reflexivity.
Qed.

(** When the values outnumber the channels, those that fit are set and the
    first one beyond the table raises [IndexError]. *)
Lemma set_keys_overflow time toks : forall vs i (w : World),
  floats py_float toks = Some vs ->
  (i <= List.length (_channels (self w)) < i + List.length toks)%nat ->
  exists w',
    for_each (enumerate_from i toks) (set_key time) w = (Raise IndexError, w') /\
    self w' = self w /\
    trace w' = (trace w ++ map (key_event time)
                             (combine (skipn i (_channels (self w))) vs))%list.
Proof.
  induction toks as [| tok toks IH]; intros vs i w Hf Hl.
  - cbn in Hl. lia.
  - cbn in Hf. destruct (py_float tok) as [v |] eqn:Ev; [| discriminate].
    destruct (floats py_float toks) as [vs' |] eqn:Evs; [| discriminate].
    inversion Hf; subst vs. cbn [List.length] in Hl.
    cbn [enumerate_from for_each]. unfold bind at 1. rewrite set_key_run.
    destruct (nth_error (_channels (self w)) i) as [attr |] eqn:En.
    + rewrite Ev.
      assert (i < List.length (_channels (self w)))%nat
        by (apply nth_error_Some; congruence).
      match goal with |- context [for_each _ _ ?w1] =>
        destruct (IH vs' (S i) w1 eq_refl) as (w' & Hr & Hs & Ht);
          [cbn [self]; lia |]
      end.
      exists w'. split; [exact Hr |]. split; [rewrite Hs; reflexivity |].
      rewrite Ht. cbn [self trace]. rewrite (skipn_nth_error _ _ _ En).
      cbn [combine map]. rewrite <- app_assoc. reflexivity.
    + exists w. apply nth_error_None in En.
      rewrite skipn_all2 by exact En. cbn. rewrite app_nil_r. auto.
Qed.

(** A data line that is read to its end had numbers only, and no more of
    them than there are channels. *)
Lemma set_keys_ok time toks : forall i (w w' : World),
  for_each (enumerate_from i toks) (set_key time) w = (Ok tt, w') ->
  exists vs,
    floats py_float toks = Some vs /\
    (List.length toks <= List.length (_channels (self w)) - i)%nat /\
    self w' = self w /\
    trace w' = (trace w ++ map (key_event time)
                             (combine (skipn i (_channels (self w))) vs))%list.
Proof.
  induction toks as [| tok toks IH]; intros i w w' H.
  - cbn in H. inversion H; subst w'. exists []. cbn.
    rewrite combine_nil, app_nil_r. repeat split. lia.
  - cbn [enumerate_from for_each] in H. apply bind_ok in H.
    destruct H as ([] & w1 & H1 & H). rewrite set_key_run in H1.
    destruct (nth_error (_channels (self w)) i) as [attr |] eqn:En;
      [| discriminate].
    destruct (py_float tok) as [v |] eqn:Ev; [| discriminate].
    inversion H1; subst w1; clear H1.
    destruct (IH _ _ _ H) as (vs & Hf & Hl & Hs & Ht). cbn [self trace] in *.
    assert (i < List.length (_channels (self w)))%nat
      by (apply nth_error_Some; congruence).
    exists (v :: vs). cbn [floats]. rewrite Ev, Hf. split; [reflexivity |].
    split; [cbn [List.length]; lia |]. split; [exact Hs |].
    rewrite Ht, (skipn_nth_error _ _ _ En). cbn [combine map].
    rewrite <- app_assoc. reflexivity.
Qed.

(** A line of the motion section with [Frame] in it changes nothing. *)
Lemma frame_line_skipped line loc (w : World) :
  motion loc = true -> is_data_line line = false ->
  read_line line loc w = (Ok loc, w).
Proof.
  unfold read_line, motion_line, is_data_line, norm. intros -> H.
  apply negb_false_iff in H. rewrite H. reflexivity.
Qed.

Lemma data_line_run line loc (w : World) :
  motion loc = true -> is_data_line line = true ->
  read_line line loc w
  = bind (for_each (enumerate_from 0 (tokens (norm line))) (set_key (frame loc)))
      (fun _ => ret (set_frame (frame loc + 1) loc)) w.
Proof.
  unfold read_line, motion_line, is_data_line, norm. intros -> H.
  apply negb_true_iff in H. rewrite H. reflexivity.
Qed.

(** C5. A data line of numbers that has more tokens than the channel table
    has entries raises [IndexError] (once the values that fit are set); a
    data line of numbers with no more tokens than entries raises nothing:
    it sets one key on each of the first channels, as many as it has
    tokens, none on the channels after them, and the frame counter moves
    on by one. *)
Theorem data_line_token_count :
  (forall line loc (w : World) vs,
     motion loc = true -> is_data_line line = true ->
     floats py_float (tokens (norm line)) = Some vs ->
     (List.length (_channels (self w)) < List.length (tokens (norm line)))%nat ->
     exists w',
       read_line line loc w = (Raise IndexError, w') /\
       trace w' = (trace w ++ map (key_event (frame loc))
                                (combine (_channels (self w)) vs))%list) /\
  (forall line loc (w : World) vs,
     motion loc = true -> is_data_line line = true ->
     floats py_float (tokens (norm line)) = Some vs ->
     (List.length (tokens (norm line)) <= List.length (_channels (self w)))%nat ->
     exists w',
       read_line line loc w = (Ok (set_frame (frame loc + 1) loc), w') /\
       self w' = self w /\
       List.length vs = List.length (tokens (norm line)) /\
       trace w' = (trace w ++ map (key_event (frame loc))
                                (combine (firstn (List.length vs)
                                            (_channels (self w))) vs))%list).
Proof.
  split; intros line loc w vs Hm Hd Hf Hl; rewrite (data_line_run _ _ _ Hm Hd).
  - destruct (set_keys_overflow (frame loc) _ vs 0%nat w Hf) as (w' & Hr & _ & Ht);
      [lia |].
    exists w'. rewrite (bind_raise _ _ _ _ _ Hr). split; [reflexivity |].
    exact Ht.
  - destruct (set_keys_fit (frame loc) _ vs 0%nat w Hf) as (w' & Hr & Hs & Ht);
      [lia |].
    exists w'. rewrite (bind_run _ _ _ _ _ Hr). split; [reflexivity |].
    split; [exact Hs |]. split; [apply floats_length; exact Hf |].
    rewrite Ht. cbn [skipn]. rewrite combine_firstn_r. reflexivity.
Qed.

Lemma floats_agree time (toks : list string) : forall (vs : list F) channels,
  floats py_float toks = Some vs ->
  Forall2 (key_agrees py_float)
    (map (fun cv => (fst cv, time, snd cv)) (combine channels vs))
    (map (fun ct => (fst ct, time, snd ct)) (combine channels toks)).
Proof.
  induction toks as [| tok toks IH]; intros vs channels H; cbn in H.
  - inversion H. rewrite !combine_nil. constructor.
  - destruct (py_float tok) as [v |] eqn:Ev; [| discriminate].
    destruct (floats py_float toks) as [vs' |]; [| discriminate].
    inversion H; subst vs. destruct channels as [| c channels]; cbn.
    + constructor.
    + constructor; [| apply IH; reflexivity].
      unfold key_agrees. cbn. auto.
Qed.

(** The motion section, read from a state in which [motion] is on *)
Lemma motion_lines_ok lines : forall loc (w : World) loc' w',
  motion loc = true ->
  read_lines lines loc w = (Ok loc', w') ->
  motion loc' = true /\ self w' = self w /\
  frame loc' = frame loc + Z.of_nat (List.length (filter is_data_line lines)) /\
  exists set,
    keyframes (trace w') = (keyframes (trace w) ++ set)%list /\
    Forall2 (key_agrees py_float) set
      (motion_keys (_channels (self w)) (frame loc) lines).
Proof.
  induction lines as [| line lines IH]; intros loc w loc' w' Hm H.
  - cbn in H. inversion H; subst. repeat split; auto.
    + cbn. lia.
    + exists []. rewrite app_nil_r. split; [reflexivity | constructor].
  - cbn [read_lines] in H. apply bind_ok in H.
    destruct H as (loc1 & w1 & H1 & H). cbn [filter motion_keys].
    destruct (is_data_line line) eqn:Hd.
    + rewrite (data_line_run _ _ _ Hm Hd) in H1. apply bind_ok in H1.
      destruct H1 as ([] & w2 & H1 & H2). inversion H2; subst loc1 w2; clear H2.
      destruct (set_keys_ok _ _ _ _ _ H1) as (vs & Hf & Hl & Hs & Ht).
      destruct (IH (set_frame (frame loc + 1) loc) _ _ _ Hm H)
        as (Hm' & Hs' & Hfr & set & Hk & Ha).
      split; [exact Hm' |]. split; [congruence |]. split.
      * rewrite Hfr. cbn [frame set_frame List.length]. lia.
      * exists (map (fun cv => (fst cv, frame loc, snd cv))
                  (combine (_channels (self w)) vs) ++ set)%list.
        split.
        -- rewrite Hk, Ht, keyframes_app, keyframes_key_events.
           cbn [skipn]. rewrite <- app_assoc. reflexivity.
        -- apply Forall2_app.
           ++ apply floats_agree. exact Hf.
           ++ rewrite Hs in Ha. exact Ha.
    + rewrite (frame_line_skipped _ _ _ Hm Hd) in H1.
      inversion H1; subst loc1 w1. apply (IH _ _ _ _ Hm H).
Qed.

(** ** The hierarchy section, check by check *)

Lemma steady_refl loc (w : World) : steady loc loc w w.
Proof. repeat split. Qed.

Lemma steady_trans loc1 loc2 loc3 (w1 w2 w3 : World) :
  steady loc1 loc2 w1 w2 -> steady loc2 loc3 w2 w3 -> steady loc1 loc3 w1 w3.
Proof. unfold steady. intuition congruence. Qed.

Ltac run_in H :=
  unfold bind, ret, raise, get_self, set_self, update_self, emit, call in H;
  cbn beta iota in H.

Ltac cases_in H :=
  repeat match type of H with
    | context [match ?x with _ => _ end] => destruct x eqn:?; try discriminate
    end;
  inversion H; subst; clear H.

Ltac steady_done :=
  repeat split; cbn [trace self frame motion set_jnt set_my_parent
                     set_safe_close set_motion set_frame _channels set_root];
  rewrite ?keyframes_app; cbn [keyframes keyframe_of];
  rewrite ?app_nil_r; reflexivity.

Lemma step_root_steady line loc (w : World) loc' w' :
  step_root line loc w = (Ok loc', w') -> steady loc loc' w w'.
Proof.
  unfold step_root. intros H. run_in H. cases_in H; steady_done.
Qed.

Lemma step_joint_steady line loc (w : World) loc' w' :
  step_joint line loc w = (Ok loc', w') -> steady loc loc' w w'.
Proof.
  unfold step_joint. intros H. run_in H. cases_in H; steady_done.
Qed.

Lemma step_end_site_steady line loc (w : World) :
  steady loc (step_end_site line loc) w w.
Proof. unfold step_end_site. destruct (contains _ _); repeat split. Qed.

Lemma step_brace_steady line loc (w : World) r w' :
  step_brace line loc w = (Ok r, w') -> steady loc (snd r) w w'.
Proof.
  unfold step_brace. intros H. run_in H. cases_in H; steady_done.
Qed.

(** An [OFFSET] line that is read to its end: the joint is the current node
    when the host finds its full path in the scene, and a new joint
    otherwise; its translation is set to the numbers of the line. *)
Lemma step_offset_ok line loc (w : World) loc' w' :
  contains "OFFSET" line = true ->
  step_offset line loc w = (Ok loc', w') ->
  exists p vs j evs,
    my_parent loc = Some p /\
    floats py_float (tl (tokens line)) = Some vs /\
    loc' = set_jnt (JntRef j) loc /\ self w' = self w /\
    trace w' = (trace w ++ evs
                ++ [EvSetAttrF (j ++ ".translate") vs (Some "double3")])%list /\
    ((maya_objExists (full_path p) (scene w) = true /\ j = full_path p /\
      evs = [EvObjExists (full_path p) true]) \/
     (maya_objExists (full_path p) (scene w) = false /\
      evs = [EvObjExists (full_path p) false;
             EvJoint (new_joint_name loc p) j])).
Proof.
  intros Hc H. unfold step_offset in H. rewrite Hc in H.
  destruct (my_parent loc) as [p |] eqn:Ep; [| discriminate].
  unfold bind, call in H. cbn beta iota zeta in H.
  destruct (maya_objExists (full_path p) (scene w)) eqn:Ex;
    cbn beta iota zeta in H;
    destruct (floats py_float (tl (tokens line))) as [vs |]; try discriminate;
    unfold emit, call, ret in H; cbn beta iota zeta in H; inversion H; subst;
    cbn [trace self].
  - exists p, vs, (full_path p), [EvObjExists (full_path p) true].
    rewrite <- app_assoc. repeat (split; [reflexivity |]).
    left. split; [exact Ex | split; reflexivity].
  - exists p, vs,
      (maya_joint (if safe_close loc then dag_str p ++ "_tip" else dag_str p)
         (maya_step (EvObjExists (full_path p) false) (scene w))),
      [EvObjExists (full_path p) false;
       EvJoint (new_joint_name loc p)
         (maya_joint (if safe_close loc then dag_str p ++ "_tip" else dag_str p)
            (maya_step (EvObjExists (full_path p) false) (scene w)))].
    rewrite <- !app_assoc. repeat (split; [reflexivity |]).
    right. split; [exact Ex | reflexivity].
Qed.

Lemma step_offset_steady line loc (w : World) loc' w' :
  step_offset line loc w = (Ok loc', w') -> steady loc loc' w w'.
Proof.
  intros H. destruct (contains "OFFSET" line) eqn:Hc.
  - destruct (step_offset_ok _ _ _ _ _ Hc H)
      as (p & vs & j & evs & _ & _ & -> & Hs & Ht & Hev).
    unfold steady. rewrite Hs, Ht, !keyframes_app.
    destruct Hev as [(_ & _ & ->) | (_ & ->)]; cbn; rewrite app_nil_r; auto.
  - unfold step_offset in H. rewrite Hc in H. inversion H. apply steady_refl.
Qed.

Lemma set_channels_same (s : Session F) :
  set_channels (_channels s ++ []) s = s.
Proof. rewrite app_nil_r. destruct s. reflexivity. Qed.

(** One round of the channel loop *)
Lemma append_channel_run chan loc i (w : World) :
  append_channel chan loc i w =
  match my_parent loc with
  | None => (Raise AttributeError, w)
  | Some p =>
      match nth_error chan (2 + i) with
      | None => (Raise IndexError, w)
      | Some name =>
          match binding (full_path p) name with
          | None => (Raise KeyError, w)
          | Some entry =>
              (Ok tt, mkWorld (set_channels (_channels (self w) ++ [entry]) (self w))
                        (scene w) (trace w))
          end
      end
  end.
Proof.
  unfold append_channel, binding.
  destruct (my_parent loc); [| reflexivity].
  destruct (nth_error chan (2 + i)); [| reflexivity].
  destruct (translationDict s); reflexivity.
Qed.

(** The channel loop, read to its end, has added one entry for each of the
    [n] channel names from position [2 + i] on, bound to the current node. *)
Lemma append_channels_ok chan loc n : forall i (w w' : World),
  for_each (seq i n) (append_channel chan loc) w = (Ok tt, w') ->
  exists block,
    self w' = set_channels (_channels (self w) ++ block) (self w) /\
    scene w' = scene w /\ trace w' = trace w /\
    List.length block = n /\
    (block = [] \/
     exists p, my_parent loc = Some p /\
       Forall2 (fun name entry => binding (full_path p) name = Some entry)
         (firstn n (skipn (2 + i) chan)) block).
Proof.
  induction n as [| n IH]; intros i w w' H.
  - cbn in H. inversion H; subst w'. exists [].
    rewrite set_channels_same. repeat split; auto.
  - cbn [seq for_each] in H. apply bind_ok in H.
    destruct H as ([] & w1 & H1 & H). rewrite append_channel_run in H1.
    destruct (my_parent loc) as [p |] eqn:Ep; [| discriminate].
    destruct (nth_error chan (2 + i)) as [name |] eqn:En; [| discriminate].
    destruct (binding (full_path p) name) as [entry |] eqn:Eb; [| discriminate].
    inversion H1; subst w1; clear H1.
    destruct (IH _ _ _ H) as (block & Hs & Hsc & Ht & Hl & Hb).
    cbn [self scene trace _channels set_channels] in *.
    exists (entry :: block). rewrite Hs, <- app_assoc.
    split; [reflexivity |]. split; [exact Hsc |]. split; [exact Ht |].
    split; [cbn; rewrite Hl; reflexivity |].
    right. exists p. split; [reflexivity |].
    rewrite (skipn_nth_error _ _ _ En). cbn [firstn]. constructor; [exact Eb |].
    destruct Hb as [-> | (p' & Hp' & Hb)].
    + cbn in Hl. subst n. constructor.
    + inversion Hp'; subst p'. exact Hb.
Qed.

(** What a [CHANNELS] line adds to the channel table *)
Lemma step_channels_block line loc (w : World) loc' w' :
  is_channels_line line = true ->
  step_channels (norm line) loc w = (Ok loc', w') ->
  loc' = loc /\ keyframes (trace w') = keyframes (trace w) /\
  exists block,
    _channels (self w') = (_channels (self w) ++ block)%list /\
    is_block line block /\
    (block = [] \/
     exists p, my_parent loc = Some p /\
       Forall2 (fun name entry => binding (full_path p) name = Some entry)
         (firstn (declared_count line) (skipn 2 (tokens (norm line)))) block).
Proof.
  intros Hc H.
  destruct (step_channels_ok _ _ _ _ _ Hc H)
    as (code & j & n & _ & Hn & _ & -> & w1 & H1 & ->).
  destruct (append_channels_ok _ _ _ _ _ _ H1) as (block & Hs & _ & Ht & Hl & Hb).
  assert (Hd : declared_count line = Z.to_nat n).
  { unfold declared_count. destruct (nth_error (tokens (norm line)) 1);
      cbn in Hn; [| discriminate]. inversion Hn as [E]. rewrite E. reflexivity. }
  split; [reflexivity |]. cbn [trace self]. split.
  { rewrite keyframes_app, Ht. cbn. apply app_nil_r. }
  exists block. rewrite Hs. cbn [_channels set_channels].
  split; [reflexivity |]. unfold is_block. rewrite Hd. split.
  - split; [exact Hl |]. destruct Hb as [-> | (p & _ & Hb)]; [left | right];
      [reflexivity | exists p; exact Hb].
  - exact Hb.
Qed.

Lemma step_brace_continue line loc (w : World) r w' :
  step_brace line loc w = (Ok r, w') -> fst r = true ->
  contains "}" line = true /\ safe_close loc = true /\
  r = (true, set_safe_close false loc) /\ w' = w.
Proof.
  unfold step_brace. intros H. run_in H. cases_in H; cbn; intros; try discriminate.
  auto.
Qed.

(** One line of the hierarchy section of a valid file *)
Lemma hierarchy_line_ok line loc (w : World) loc' w' :
  motion loc = false -> brace_alone line = true ->
  read_line line loc w = (Ok loc', w') ->
  frame loc' = frame loc /\ motion loc' = contains "MOTION" (norm line) /\
  keyframes (trace w') = keyframes (trace w) /\
  exists block,
    _channels (self w') = (_channels (self w) ++ block)%list /\
    (if is_channels_line line then is_block line block else block = []).
Proof.
  intros Hm Hb H. unfold read_line in H. rewrite Hm in H. fold (norm line) in H.
  unfold hierarchy_line in H.
  apply bind_ok in H. destruct H as (loc1 & w1 & H1 & H).
  apply bind_ok in H. destruct H as (loc2 & w2 & H2 & H).
  apply bind_ok in H. destruct H as (r & w3 & H3 & H).
  pose proof (steady_trans _ _ _ _ _ _ (step_root_steady _ _ _ _ _ H1)
                (steady_trans _ _ _ _ _ _ (step_joint_steady _ _ _ _ _ H2)
                   (steady_trans _ _ _ _ _ _
                      (step_end_site_steady (norm line) loc2 w2)
                      (step_brace_steady _ _ _ _ _ H3))))
    as (Sf & Sm & Sc & Sk).
  destruct (fst r) eqn:Er.
  - inversion H; subst loc' w'; clear H.
    destruct (step_brace_continue _ _ _ _ _ H3 Er) as (Hbr & _).
    unfold brace_alone in Hb. rewrite Hbr in Hb. cbn in Hb.
    apply negb_true_iff in Hb. apply orb_false_iff in Hb. destruct Hb as (Hb & Hmo).
    apply orb_false_iff in Hb. destruct Hb as (Hch & _).
    split; [exact Sf |]. split; [congruence |]. split; [exact Sk |].
    exists []. rewrite app_nil_r. split; [exact Sc |].
    unfold is_channels_line. rewrite Hch. reflexivity.
  - apply bind_ok in H. destruct H as (loc4 & w4 & H4 & H).
    apply bind_ok in H. destruct H as (loc5 & w5 & H5 & H).
    inversion H; subst loc' w5; clear H.
    destruct (step_offset_steady _ _ _ _ _ H5) as (Of & Om & Oc & Ok_).
    assert (Hmot : motion (step_motion (norm line) loc5)
                   = (contains "MOTION" (norm line) || motion loc5)).
    { unfold step_motion. destruct (contains "MOTION" (norm line)); reflexivity. }
    assert (Hfr : frame (step_motion (norm line) loc5) = frame loc5).
    { unfold step_motion. destruct (contains "MOTION" (norm line)); reflexivity. }
    destruct (is_channels_line line) eqn:Hc.
    + destruct (step_channels_block _ _ _ _ _ Hc H4) as (-> & Ck & block & Cb & Ci & _).
      split; [congruence |]. split.
      { rewrite Hmot, Om, Sm, Hm. apply orb_false_r. }
      split; [congruence |]. exists block. split; [congruence | exact Ci].
    + unfold step_channels in H4. unfold is_channels_line in Hc.
      rewrite Hc in H4. inversion H4; subst loc4 w4; clear H4.
      split; [congruence |]. split.
      { rewrite Hmot, Om, Sm, Hm. apply orb_false_r. }
      split; [congruence |]. exists []. rewrite app_nil_r. split; congruence.
Qed.

(** ** A whole pass of [readFile] *)

(** The hierarchy section of a valid file, read from a state in which
    [motion] is off: one block of channel entries for each [CHANNELS] line,
    no key, and the motion section is what remains to be read. *)
Lemma hierarchy_run lines : forall loc (w : World) loc' w',
  motion loc = false -> forallb brace_alone lines = true ->
  read_lines lines loc w = (Ok loc', w') ->
  exists loc1 w1 blocks,
    read_lines (motion_section lines) loc1 w1 = (Ok loc', w') /\
    (motion loc1 = true \/ motion_section lines = []) /\
    frame loc1 = frame loc /\
    keyframes (trace w1) = keyframes (trace w) /\
    _channels (self w1) = (_channels (self w) ++ concat blocks)%list /\
    Forall2 is_block (filter is_channels_line (hierarchy_section lines)) blocks.
Proof.
  induction lines as [| line lines IH]; intros loc w loc' w' Hm Hv H.
  - exists loc, w, []. cbn. rewrite app_nil_r. repeat split; auto.
  - cbn [forallb] in Hv. apply andb_true_iff in Hv. destruct Hv as (Hb & Hv).
    cbn [read_lines] in H. apply bind_ok in H.
    destruct H as (loc2 & w2 & H2 & H).
    destruct (hierarchy_line_ok _ _ _ _ _ Hm Hb H2)
      as (Hf & Hmo & Hk & block & Hc & Hblock).
    cbn [hierarchy_section motion_section].
    destruct (contains "MOTION" (norm line)) eqn:Em.
    + exists loc2, w2, (if is_channels_line line then [block] else []).
      split; [exact H |]. split; [left; exact Hmo |]. split; [exact Hf |].
      split; [exact Hk |]. cbn [filter].
      destruct (is_channels_line line).
      * cbn. rewrite app_nil_r. split; [exact Hc |].
        constructor; [exact Hblock | constructor].
      * subst block. split; [exact Hc | constructor].
    + destruct (IH _ _ _ _ Hmo Hv H)
        as (loc1 & w1 & blocks & Hr & Hmot & Hf1 & Hk1 & Hc1 & Hbs).
      exists loc1, w1, (if is_channels_line line then block :: blocks else blocks).
      split; [exact Hr |]. split; [exact Hmot |]. split; [congruence |].
      split; [congruence |]. cbn [filter].
      destruct (is_channels_line line).
      * cbn [concat]. rewrite Hc1, Hc, <- app_assoc. split; [reflexivity |].
        constructor; assumption.
      * subst block. rewrite app_nil_r in Hc. rewrite Hc1, Hc. auto.
Qed.

Lemma no_key_in_clear nodes (evs : list (MayaEvent F)) :
  Forall (writes_only_rotation_zero F nodes) evs -> keyframes evs = [].
Proof.
  induction 1 as [| ev evs Hev _ IH]; [reflexivity |].
  destruct ev; cbn in *; try contradiction; exact IH.
Qed.

(** The clear-animation pass always ends with the same object and adds no
    key to the trace. *)
Lemma clear_animation_steady (w : World) r :
  _root_node (self w) = Some r ->
  exists w',
    _clear_animation w = (Ok tt, w') /\ self w' = self w /\
    keyframes (trace w') = keyframes (trace w).
Proof.
  intros Hr.
  set (nodes := maya_ls (maya_step (EvSelectHi (dag_str r)) (scene w))).
  pose (w1 := mkWorld (self w)
           (maya_step (EvLs nodes) (maya_step (EvSelectHi (dag_str r)) (scene w)))
           ((trace w ++ [EvSelectHi (dag_str r)]) ++ [EvLs nodes])).
  destruct (clear_nodes_run nodes w1) as (w' & answers & H & Hs & _ & _ & Ht).
  exists w'. split.
  { unfold _clear_animation, bind, get_self. rewrite Hr. exact H. }
  split; [exact Hs |].
  rewrite Ht. subst w1. cbn [trace]. rewrite !keyframes_app.
  cbn [keyframes keyframe_of]. rewrite !app_nil_r.
  rewrite (no_key_in_clear nodes (clear_events F nodes answers)).
  - apply app_nil_r.
  - apply Forall_forall. intros ev. apply clear_events_writes.
Qed.

(** What [readFile] has done when the loop starts *)
Lemma readFile_enter_ok (w : World) p w1 :
  readFile_enter w = (Ok p, w1) ->
  self w1 = set_channels [] (self w) /\
  keyframes (trace w1) = keyframes (trace w) /\
  match _root_node (self w) with
  | None => exists grp, p = Dag (ObjStr grp) None
  | Some r => p = Dag (ObjDag r) None
  end.
Proof.
  unfold readFile_enter. intros H.
  apply bind_ok in H. destruct H as ([] & w0 & H0 & H).
  unfold update_self, bind, get_self, set_self in H0. inversion H0; subst w0.
  clear H0. unfold bind at 1, get_self in H. cbn [self _root_node set_channels] in H.
  destruct (_root_node (self w)) as [r |] eqn:Er.
  - apply bind_ok in H. destruct H as ([] & w2 & H2 & H).
    unfold emit, call in H2. inversion H2; subst w2; clear H2.
    apply bind_ok in H. destruct H as ([] & w3 & H3 & H).
    inversion H; subst p w3; clear H.
    match type of H3 with _clear_animation ?w0 = _ =>
      destruct (clear_animation_steady w0 r Er) as (w' & Hc & Hs & Hk) end.
    rewrite Hc in H3. inversion H3; subst w'.
    split; [exact Hs |]. split; [| reflexivity].
    rewrite Hk. cbn [trace]. rewrite keyframes_app. cbn. apply app_nil_r.
  - cbn [file_path set_channels] in H.
    destruct (file_path (self w)); [| discriminate].
    unfold bind, call, emit, ret in H. cbn beta iota zeta in H.
    inversion H; subst p w1; clear H. cbn [self trace].
    split; [reflexivity |]. split; [| eexists; reflexivity].
    rewrite !keyframes_app. cbn. rewrite !app_nil_r. reflexivity.
Qed.

(** A pass over a valid file, from the start of [readFile] to the start of
    the motion section. *)
Lemma readFile_split (w : World) lines loc' w' :
  data (self w) = Some lines -> forallb brace_alone lines = true ->
  readFile w = (Ok loc', w') ->
  exists loc1 w1 blocks,
    read_lines (motion_section lines) loc1 w1 = (Ok loc', w') /\
    (motion loc1 = true \/ motion_section lines = []) /\
    frame loc1 = 0 /\
    keyframes (trace w1) = keyframes (trace w) /\
    _channels (self w1) = concat blocks /\
    Forall2 is_block (filter is_channels_line (hierarchy_section lines)) blocks.
Proof.
  intros Hd Hv H. unfold readFile in H.
  apply bind_ok in H. destruct H as (p & w0 & H0 & H).
  destruct (readFile_enter_ok _ _ _ H0) as (Hs & Hk & _).
  unfold bind at 1, get_self in H. rewrite Hs in H.
  cbn [data set_channels] in H. rewrite Hd in H.
  destruct (hierarchy_run lines (mkLocals false false 0 (Some p) None)
              _ _ _ eq_refl Hv H)
    as (loc1 & w1 & blocks & Hr & Hm & Hf & Hk1 & Hc & Hb).
  exists loc1, w1, blocks. rewrite Hs in Hc. cbn in Hc, Hf.
  split; [exact Hr |]. split; [exact Hm |]. split; [exact Hf |].
  split; [congruence |]. split; [exact Hc | exact Hb].
Qed.

Lemma blocks_length (lines : list string) blocks :
  Forall2 is_block lines blocks ->
  List.length (concat blocks) = list_sum (map declared_count lines).
Proof.
  induction 1 as [| line block lines blocks (Hl & _) _ IH]; [reflexivity |].
  cbn. rewrite length_app, IH, Hl. reflexivity.
Qed.

Lemma motion_section_run lines loc1 (w1 : World) loc' w' :
  read_lines (motion_section lines) loc1 w1 = (Ok loc', w') ->
  motion loc1 = true \/ motion_section lines = [] ->
  self w' = self w1 /\
  frame loc' = frame loc1
               + Z.of_nat (List.length (filter is_data_line (motion_section lines)))
  /\ exists set,
       keyframes (trace w') = (keyframes (trace w1) ++ set)%list /\
       Forall2 (key_agrees py_float) set
         (motion_keys (_channels (self w1)) (frame loc1) (motion_section lines)).
Proof.
  intros H [Hm | He].
  - destruct (motion_lines_ok _ _ _ _ _ Hm H) as (_ & Hs & Hf & Hset).
    auto.
  - rewrite He in *. cbn in H. inversion H; subst. cbn.
    split; [reflexivity |]. split; [lia |]. exists [].
    rewrite app_nil_r. split; [reflexivity | constructor].
Qed.

(** C3. A [CHANNELS] line that declares [n] channels adds [n] entries to
    the channel table, in the order of its channel names, each made of the
    full path of the current node and of the attribute the fixed table gives
    for the name.  After a pass over a valid file the table is the sequence
    of these blocks, one for each [CHANNELS] line of the hierarchy section in
    file order, so that its length is the sum of the declared counts.  The
    table is emptied when the pass starts: what it held before has no
    influence on the pass. *)
Theorem channel_table :
  (forall line loc (w : World) loc' w',
     is_channels_line line = true ->
     step_channels (norm line) loc w = (Ok loc', w') ->
     exists block,
       _channels (self w') = (_channels (self w) ++ block)%list /\
       List.length block = declared_count line /\
       (block = [] \/
        exists p, my_parent loc = Some p /\
          Forall2 (fun name entry => binding (full_path p) name = Some entry)
            (firstn (declared_count line) (skipn 2 (tokens (norm line))))
            block)) /\
  (forall (w : World) lines loc' w',
     data (self w) = Some lines -> forallb brace_alone lines = true ->
     readFile w = (Ok loc', w') ->
     exists blocks,
       _channels (self w') = concat blocks /\
       Forall2 is_block (filter is_channels_line (hierarchy_section lines))
         blocks /\
       List.length (_channels (self w'))
       = list_sum (map declared_count
                     (filter is_channels_line (hierarchy_section lines)))) /\
  (forall (w : World) stale,
     readFile (mkWorld (set_channels stale (self w)) (scene w) (trace w))
     = readFile (mkWorld (set_channels [] (self w)) (scene w) (trace w))).
Proof.
  split; [| split].
  - intros line loc w loc' w' Hc H.
    destruct (step_channels_block _ _ _ _ _ Hc H)
      as (_ & _ & block & Hb & (Hl & _) & Hp).
    exists block. auto.
  - intros w lines loc' w' Hd Hv H.
    destruct (readFile_split _ _ _ _ Hd Hv H)
      as (loc1 & w1 & blocks & Hr & Hm & _ & _ & Hc & Hb).
    destruct (motion_section_run _ _ _ _ _ Hr Hm) as (Hs & _).
    exists blocks. rewrite Hs, Hc. split; [reflexivity |].
    split; [exact Hb | apply blocks_length; exact Hb].
  - intros w stale. reflexivity.
Qed.

(** C4. In the motion section a line with [Frame] in it sets no key and
    leaves the frame counter as it is; a data line that is read to its end
    sets one key for each of its tokens, on the channel at the position of
    the token and at the time given by the frame counter, and then moves the
    counter on by one.  After a pass over a valid file the counter, which
    started at 0, is the number of data lines after the [MOTION] marker, and
    the keys set by the pass are those of the data lines in order, the
    [k]-th data line at time [k]. *)
Theorem frame_counter :
  (forall line loc (w : World),
     motion loc = true -> is_data_line line = false ->
     read_line line loc w = (Ok loc, w)) /\
  (forall line loc (w : World) loc' w',
     motion loc = true -> is_data_line line = true ->
     read_line line loc w = (Ok loc', w') ->
     frame loc' = frame loc + 1 /\
     exists set,
       keyframes (trace w') = (keyframes (trace w) ++ set)%list /\
       List.length set = List.length (tokens (norm line)) /\
       Forall2 (key_agrees py_float) set
         (row_keys (_channels (self w)) (frame loc) line)) /\
  (forall (w : World) lines loc' w',
     data (self w) = Some lines -> forallb brace_alone lines = true ->
     readFile w = (Ok loc', w') ->
     frame loc'
     = Z.of_nat (List.length (filter is_data_line (motion_section lines))) /\
     exists set,
       keyframes (trace w') = (keyframes (trace w) ++ set)%list /\
       Forall2 (key_agrees py_float) set
         (motion_keys (_channels (self w')) 0 (motion_section lines))).
Proof.
  split; [exact frame_line_skipped | split].
  - intros line loc w loc' w' Hm Hd H.
    rewrite (data_line_run _ _ _ Hm Hd) in H. apply bind_ok in H.
    destruct H as ([] & w1 & H1 & H). inversion H; subst loc' w1; clear H.
    destruct (set_keys_ok _ _ _ _ _ H1) as (vs & Hf & Hl & _ & Ht).
    split; [reflexivity |].
    exists (map (fun cv => (fst cv, frame loc, snd cv))
              (combine (_channels (self w)) vs)).
    split; [| split].
    + rewrite Ht, keyframes_app, keyframes_key_events. reflexivity.
    + rewrite length_map, length_combine, (floats_length _ _ Hf). lia.
    + apply floats_agree. exact Hf.
  - intros w lines loc' w' Hd Hv H.
    destruct (readFile_split _ _ _ _ Hd Hv H)
      as (loc1 & w1 & blocks & Hr & Hm & Hf & Hk & _ & _).
    destruct (motion_section_run _ _ _ _ _ Hr Hm) as (Hs & Hfr & set & Hset & Ha).
    split; [rewrite Hfr, Hf; reflexivity |].
    exists set. rewrite Hset, Hk, Hs. split; [reflexivity |].
    rewrite Hf in Ha. exact Ha.
Qed.

(** ** The checks as equations *)

Lemma step_root_run line loc (w : World) :
  step_root line loc w =
  if startswith line "ROOT" then
    match _root_node (self w) with
    | Some r => (Ok (set_my_parent (Some (Dag (ObjStr (dag_str r)) None)) loc), w)
    | None =>
        (Ok (set_my_parent
               (Some (Dag (ObjStr (rstrip (slice_from 5 line))) (my_parent loc)))
               loc),
         mkWorld
           (set_root (Dag (ObjStr (rstrip (slice_from 5 line))) (my_parent loc))
              (self w))
           (scene w) (trace w))
    end
  else (Ok loc, w).
Proof.
  unfold step_root, bind, get_self, set_self, ret.
  destruct (startswith line "ROOT"); [| reflexivity].
  destruct (_root_node (self w)); reflexivity.
Qed.

Lemma step_joint_run line loc (w : World) :
  step_joint line loc w =
  if contains "JOINT" line then
    match nth_error (tokens line) 1 with
    | None => (Raise IndexError, w)
    | Some name =>
        (Ok (set_my_parent (Some (Dag (ObjStr name) (my_parent loc)))
               (set_jnt (JntTokens (tokens line)) loc)), w)
    end
  else (Ok loc, w).
Proof.
  unfold step_joint, ret, raise.
  destruct (contains "JOINT" line); [| reflexivity].
  destruct (nth_error (tokens line) 1); reflexivity.
Qed.

Lemma step_brace_run line loc (w : World) :
  step_brace line loc w =
  if contains "}" line then
    if safe_close loc then (Ok (true, set_safe_close false loc), w)
    else
      match my_parent loc with
      | None => (Ok (false, loc), w)
      | Some p =>
          match parent p with
          | None => (Ok (false, set_my_parent None loc), w)
          | Some q =>
              (Ok (false, set_my_parent (Some q) loc),
               with_event (EvSelect (full_path q)) w)
          end
      end
  else (Ok (false, loc), w).
Proof.
  unfold step_brace, bind, emit, call, ret, with_event.
  destruct (contains "}" line); [| reflexivity].
  destruct (safe_close loc); [reflexivity |].
  destruct (my_parent loc) as [p |]; [| reflexivity].
  destruct (parent p); reflexivity.
Qed.

(** The channel loop never calls the host, whether it ends or raises. *)
Lemma append_channels_silent chan loc idx : forall (w : World),
  scene (snd (for_each idx (append_channel chan loc) w)) = scene w /\
  trace (snd (for_each idx (append_channel chan loc) w)) = trace w.
Proof.
  induction idx as [| i idx IH]; intros w; [split; reflexivity |].
  cbn [for_each]. unfold bind. rewrite append_channel_run.
  destruct (my_parent loc) as [p |]; [| split; reflexivity].
  destruct (nth_error chan (2 + i)); [| split; reflexivity].
  destruct (binding (full_path p) s); [| split; reflexivity].
  match goal with |- context [for_each idx _ ?w1] =>
    destruct (IH w1) as (Hs & Ht) end.
  rewrite Hs, Ht. split; reflexivity.
Qed.

(** ** The root line of a second pass *)

(** A second pass starts with the scale and the clear-animation pass, and
    then reads the lines. *)
Lemma readFile_again (w : World) r lines :
  _root_node (self w) = Some r ->
  data (self w) = Some lines ->
  exists w_clear,
    _clear_animation
      (with_event
         (EvSetAttrF (split_head "|" (root_node (self w)) ++ ".scale")
            [scale (self w); scale (self w); scale (self w)] None)
         (mkWorld (set_channels [] (self w)) (scene w) (trace w)))
    = (Ok tt, w_clear) /\
    self w_clear = set_channels [] (self w) /\
    keyframes (trace w_clear) = keyframes (trace w) /\
    readFile w
    = read_lines lines (mkLocals false false 0 (Some (Dag (ObjDag r) None)) None)
        w_clear.
Proof.
  intros Hr Hd.
  set (w0 := with_event
               (EvSetAttrF (split_head "|" (root_node (self w)) ++ ".scale")
                  [scale (self w); scale (self w); scale (self w)] None)
               (mkWorld (set_channels [] (self w)) (scene w) (trace w))).
  destruct (clear_animation_steady w0 r Hr) as (wc & Hc & Hs & Hk).
  exists wc. split; [exact Hc |]. split; [exact Hs |]. split.
  { rewrite Hk. subst w0. unfold with_event. cbn [trace].
    rewrite keyframes_app. cbn. apply app_nil_r. }
  assert (E : readFile_enter w = (Ok (Dag (ObjDag r) None), wc)).
  { unfold readFile_enter, update_self, bind, get_self, set_self.
    cbn [self]. change (_root_node (set_channels [] (self w)))
      with (_root_node (self w)). rewrite Hr.
    unfold emit, call. cbn beta iota zeta.
    match goal with |- context [_clear_animation ?W] =>
      change (_clear_animation W) with (_clear_animation w0) end.
    rewrite Hc. reflexivity. }
  unfold readFile. rewrite (bind_run _ _ _ _ _ E).
  unfold bind, get_self. rewrite Hs.
  change (data (self w0)) with (data (self w)).
  rewrite Hd. reflexivity.
Qed.

(** C8 (as the code has it).  When the object already has a root, the
    [ROOT] line calls no host command and leaves the object as it is; the
    parent it sets for the lines that follow is a node without parent that
    carries the name of the persisted root, so that its full path is that
    name and not the persisted full path.  The pass has by then set the
    scale on the first component of the persisted full path and run the
    clear-animation pass: both come before the first line is read. *)
Theorem reimport_root_line :
  (forall line loc (w : World) r,
     startswith line "ROOT" = true ->
     _root_node (self w) = Some r ->
     step_root line loc w
     = (Ok (set_my_parent (Some (Dag (ObjStr (dag_str r)) None)) loc), w) /\
     full_path (Dag (ObjStr (dag_str r)) None) = dag_str r) /\
  (forall (w : World) r lines,
     _root_node (self w) = Some r ->
     data (self w) = Some lines ->
     exists w_clear,
       _clear_animation
         (with_event
            (EvSetAttrF (split_head "|" (root_node (self w)) ++ ".scale")
               [scale (self w); scale (self w); scale (self w)] None)
            (mkWorld (set_channels [] (self w)) (scene w) (trace w)))
       = (Ok tt, w_clear) /\
       self w_clear = set_channels [] (self w) /\
       readFile w
       = read_lines lines (mkLocals false false 0 (Some (Dag (ObjDag r) None)) None)
           w_clear).
Proof.
  split.
  - intros line loc w r Hl Hr. rewrite step_root_run, Hl, Hr.
    split; reflexivity.
  - intros w r lines Hr Hd.
    destruct (readFile_again w r lines Hr Hd) as (wc & Hc & Hs & _ & Hrun).
    exists wc. split; [exact Hc |]. split; [exact Hs | exact Hrun].
Qed.

(** ** The variable [jnt] *)

Lemma step_channels_unbound line loc (w : World) :
  contains "CHANNELS" line = true -> jnt loc = None ->
  exists e w',
    step_channels line loc w = (Raise e, w') /\
    scene w' = scene w /\ trace w' = trace w.
Proof.
  intros Hc Hj. unfold step_channels. rewrite Hc.
  destruct (index (axis_string (tokens line)) rotation_orders);
    [| exists ValueError, w; auto].
  destruct (nth_error (tokens line) 1) as [count |];
    [| exists IndexError, w; auto].
  destruct (int count) as [n |]; [| exists ValueError, w; auto].
  unfold bind.
  destruct (append_channels_silent (tokens line) loc (seq 0 (Z.to_nat n)) w)
    as (Hs & Ht).
  destruct (for_each (seq 0 (Z.to_nat n)) (append_channel (tokens line) loc) w)
    as [[[] | e] w1]; cbn [snd] in Hs, Ht.
  - rewrite Hj. exists UnboundLocalError, w1. auto.
  - exists e, w1. auto.
Qed.

(** A line of the hierarchy section without [JOINT] and without [OFFSET]
    leaves [jnt] as it is. *)
Lemma jnt_kept line loc (w : World) loc' w' :
  motion loc = false ->
  contains "JOINT" (norm line) = false ->
  contains "OFFSET" (norm line) = false ->
  read_line line loc w = (Ok loc', w') ->
  jnt loc' = jnt loc.
Proof.
  intros Hm Hj Ho H. unfold read_line in H. rewrite Hm in H.
  fold (norm line) in H. unfold hierarchy_line in H.
  apply bind_ok in H. destruct H as (loc1 & w1 & H1 & H).
  apply bind_ok in H. destruct H as (loc2 & w2 & H2 & H).
  apply bind_ok in H. destruct H as (r & w3 & H3 & H).
  rewrite step_root_run in H1. rewrite step_joint_run, Hj in H2.
  rewrite step_brace_run in H3.
  assert (E1 : jnt loc1 = jnt loc).
  { destruct (startswith (norm line) "ROOT"); [| congruence].
    destruct (_root_node (self w)); inversion H1; reflexivity. }
  inversion H2; subst loc2 w2; clear H2.
  assert (E3 : jnt (snd r) = jnt loc1).
  { unfold step_end_site in H3.
    destruct (contains "}" (norm line)), (contains "End Site" (norm line));
      cbn [safe_close set_safe_close my_parent] in H3;
      repeat match type of H3 with
        | context [match ?x with _ => _ end] => destruct x
        end; inversion H3; reflexivity. }
  destruct (fst r).
  - inversion H; subst. congruence.
  - apply bind_ok in H. destruct H as (loc4 & w4 & H4 & H).
    apply bind_ok in H. destruct H as (loc5 & w5 & H5 & H).
    unfold step_offset in H5. rewrite Ho in H5.
    inversion H5; subst loc5 w5; clear H5. inversion H; subst loc' w4; clear H.
    assert (E4 : loc4 = snd r).
    { destruct (contains "CHANNELS" (norm line)) eqn:Hc.
      - destruct (step_channels_ok _ _ _ _ _ Hc H4)
          as (_ & _ & _ & _ & _ & _ & E & _). exact E.
      - unfold step_channels in H4. rewrite Hc in H4. inversion H4. reflexivity. }
    unfold step_motion. destruct (contains "MOTION" (norm line)); cbn [jnt set_motion];
      congruence.
Qed.

(** C10 (as the code has it).  A [CHANNELS] line sets the rotation order on
    what the variable [jnt] holds, whatever the current node is.  An
    [OFFSET] line binds [jnt] to the joint whose translation it sets, and a
    line without [JOINT] and without [OFFSET] leaves [jnt] as it is: with
    no [JOINT] line in between, the [CHANNELS] line sets the order on the
    joint of the last [OFFSET] line.  While [jnt] is unbound, as it is until
    the first [JOINT] or [OFFSET] line, a [CHANNELS] line raises and no
    rotation order is set. *)
Theorem rotation_order_target :
  (forall line loc (w : World) loc' w',
     contains "CHANNELS" line = true ->
     step_channels line loc w = (Ok loc', w') ->
     exists j code,
       jnt loc = Some j /\
       trace w' = (trace w
                   ++ [EvSetAttrZ (format_jnt j ++ ".rotateOrder") code])%list) /\
  (forall line loc (w : World) loc' w',
     contains "OFFSET" line = true ->
     step_offset line loc w = (Ok loc', w') ->
     exists j vs,
       jnt loc' = Some (JntRef j) /\
       last (trace w') (EvSelect "")
       = EvSetAttrF (j ++ ".translate") vs (Some "double3")) /\
  (forall line loc (w : World) loc' w',
     motion loc = false ->
     contains "JOINT" (norm line) = false ->
     contains "OFFSET" (norm line) = false ->
     read_line line loc w = (Ok loc', w') ->
     jnt loc' = jnt loc) /\
  (forall line loc (w : World),
     contains "CHANNELS" line = true -> jnt loc = None ->
     exists e w',
       step_channels line loc w = (Raise e, w') /\ trace w' = trace w).
Proof.
  split; [| split; [| split; [exact jnt_kept |]]].
  - intros line loc w loc' w' Hc H.
    destruct (step_channels_ok _ _ _ _ _ Hc H)
      as (code & j & n & _ & _ & Hj & _ & w1 & H1 & ->).
    exists j, code. split; [exact Hj |].
    pose proof (append_channels_silent (tokens line) loc (seq 0 (Z.to_nat n)) w)
      as (_ & Ht). rewrite H1 in Ht. cbn [snd trace] in *. rewrite Ht.
    reflexivity.
  - intros line loc w loc' w' Hc H.
    destruct (step_offset_ok _ _ _ _ _ Hc H)
      as (p & vs & j & evs & _ & _ & -> & _ & Ht & _).
    exists j, vs. split; [reflexivity |].
    rewrite Ht, app_assoc. apply last_last.
  - intros line loc w Hc Hj.
    destruct (step_channels_unbound _ _ w Hc Hj) as (e & w' & H & _ & Ht).
    exists e, w'. auto.
Qed.

(** ** End Site *)

(** At the [OFFSET] line of an [End Site] block the current node is still
    the enclosing joint.  When the host finds that joint in the scene, no
    joint is created: the translation of the enclosing joint is set to the
    numbers of the line. *)
Lemma end_site_offset_reuses_joint line loc (w : World) loc' w' p :
  contains "OFFSET" line = true ->
  safe_close loc = true -> my_parent loc = Some p ->
  maya_objExists (full_path p) (scene w) = true ->
  step_offset line loc w = (Ok loc', w') ->
  exists vs,
    floats py_float (tl (tokens line)) = Some vs /\
    trace w' = (trace w ++ [EvObjExists (full_path p) true;
                            EvSetAttrF (full_path p ++ ".translate") vs
                              (Some "double3")])%list.
Proof.
  intros Hc _ Hp Hex H.
  destruct (step_offset_ok _ _ _ _ _ Hc H)
    as (p' & vs & j & evs & Hp' & Hf & _ & _ & Ht & Hev).
  rewrite Hp in Hp'. inversion Hp'; subst p'.
  destruct Hev as [(_ & -> & ->) | (Hno & _)]; [| congruence].
  exists vs. split; [exact Hf | exact Ht].
Qed.

(** The closing brace of an [End Site] block is skipped; the next closing
    brace goes up one level. *)
Lemma end_site_brace line loc (w : World) :
  contains "}" line = true ->
  step_brace line loc w =
  if safe_close loc then (Ok (true, set_safe_close false loc), w)
  else
    match my_parent loc with
    | None => (Ok (false, loc), w)
    | Some p =>
        match parent p with
        | None => (Ok (false, set_my_parent None loc), w)
        | Some q => (Ok (false, set_my_parent (Some q) loc),
                     with_event (EvSelect (full_path q)) w)
        end
    end.
Proof. intros H. rewrite step_brace_run, H. reflexivity. Qed.

(** ** A second pass on the same object *)

Lemma str_app_assoc (a b c : string) : (a ++ b) ++ c = a ++ b ++ c.
Proof. induction a as [| x a IH]; cbn; [| rewrite IH]; reflexivity. Qed.

Lemma full_path_child o q :
  full_path (Dag o (Some q)) = full_path q ++ "|" ++ full_path (Dag o None).
Proof. reflexivity. Qed.

Lemma above_path G d p1 p2 :
  above G d p1 p2 ->
  match p2 with
  | Some q2 => full_path p1 = (full_path G ++ "|") ++ full_path q2
  | None => p1 = G
  end.
Proof.
  induction 1 as [| d o p1 p2 _ IH]; [reflexivity |].
  rewrite full_path_child. destruct p2 as [q2 |].
  - rewrite full_path_child, IH, !str_app_assoc. reflexivity.
  - subst p1. rewrite !str_app_assoc. reflexivity.
Qed.

Lemma set_channels_self (s : Session F) : set_channels (_channels s) s = s.
Proof. destruct s. reflexivity. Qed.

(** A line without keyword only passes the [ROOT] check. *)
Lemma keywordless_line l loc (w : World) :
  keywordless l = true -> hierarchy_line l loc w = step_root l loc w.
Proof.
  unfold keywordless. intros H. apply negb_true_iff in H.
  repeat (apply orb_false_iff in H; destruct H as (H & ?)).
  unfold hierarchy_line, bind.
  destruct (step_root l loc w) as [[loc1 | e] w1]; [| reflexivity].
  rewrite step_joint_run, H. unfold step_end_site.
  match goal with E : contains "End Site" l = false |- _ => rewrite E end.
  rewrite step_brace_run.
  match goal with E : contains "}" l = false |- _ => rewrite E end.
  cbn [fst snd]. unfold step_channels, step_offset, step_motion.
  repeat match goal with E : contains _ l = false |- _ => rewrite E; clear E end.
  reflexivity.
Qed.

(** What a line of the hierarchy section that does not start with [ROOT]
    does to the current node, to [safe_close] and [motion], and to the
    channel table. *)
Lemma line_control l loc (w : World) loc' w' :
  startswith l "ROOT" = false ->
  hierarchy_line l loc w = (Ok loc', w') ->
  (contains "JOINT" l = true -> nth_error (tokens l) 1 <> None) /\
  let p := after_joint l (my_parent loc) in
  let sc := safe_close loc || contains "End Site" l in
  if contains "}" l && sc then
    safe_close loc' = false /\ my_parent loc' = p /\
    motion loc' = motion loc /\ self w' = self w
  else
    let p' := if contains "}" l then pop p else p in
    safe_close loc' = (if contains "}" l then false else sc) /\
    my_parent loc' = p' /\
    motion loc' = (contains "MOTION" l || motion loc) /\
    exists block,
      self w' = set_channels (_channels (self w) ++ block) (self w) /\
      if contains "CHANNELS" l then
        List.length block = count_of l /\
        (block = [] \/
         exists q, p' = Some q /\
           Forall2 (fun name entry => binding (full_path q) name = Some entry)
             (firstn (count_of l) (skipn 2 (tokens l))) block)
      else block = [].
Proof.
  intros Hroot H. unfold hierarchy_line in H.
  apply bind_ok in H. destruct H as (loc1 & w1 & H1 & H).
  rewrite step_root_run, Hroot in H1. inversion H1; subst loc1 w1; clear H1.
  apply bind_ok in H. destruct H as (loc2 & w2 & H2 & H).
  apply bind_ok in H. destruct H as (r & w3 & H3 & H).
  rewrite step_joint_run in H2. rewrite step_brace_run in H3.
  assert (J : (contains "JOINT" l = true -> nth_error (tokens l) 1 <> None) /\
              my_parent loc2 = after_joint l (my_parent loc) /\
              safe_close loc2 = safe_close loc /\ motion loc2 = motion loc /\
              w2 = w).
  { unfold after_joint. destruct (contains "JOINT" l).
    - destruct (nth_error (tokens l) 1); [| discriminate].
      inversion H2. repeat split. discriminate.
    - inversion H2. repeat split. discriminate. }
  destruct J as (Jn & Jp & Js & Jm & ->). split; [exact Jn |]. clear H2 Jn.
  cbv zeta.
  assert (E : safe_close (step_end_site l loc2)
              = (safe_close loc || contains "End Site" l)
              /\ my_parent (step_end_site l loc2) = my_parent loc2
              /\ motion (step_end_site l loc2) = motion loc2).
  { unfold step_end_site. rewrite <- Js.
    destruct (contains "End Site" l); cbn;
      [rewrite orb_true_r | rewrite orb_false_r]; auto. }
  destruct E as (Es & Ep & Em). rewrite Es, Ep in H3.
  set (sc := safe_close loc || contains "End Site" l) in *.
  set (e := step_end_site l loc2) in *.
  assert (T : fst r = (contains "}" l && sc) /\
              safe_close (snd r) = (if contains "}" l then false else sc) /\
              my_parent (snd r)
              = (if contains "}" l && negb sc then pop (my_parent loc2)
                 else my_parent loc2) /\
              motion (snd r) = motion loc /\ self w3 = self w).
  { destruct (contains "}" l); cbn [andb negb].
    - destruct sc; [inversion H3; cbn; repeat split; congruence |].
      cbn [negb]. unfold pop. destruct (my_parent loc2) as [p0 |] eqn:Ep0.
      + destruct (parent p0) eqn:Epp; inversion H3; cbn; repeat split;
          congruence.
      + inversion H3; cbn; repeat split; congruence.
    - inversion H3; cbn; repeat split; congruence. }
  destruct T as (Tf & Ts & Tp & Tm & Tw). rewrite Tf in H.
  destruct (contains "}" l && sc) eqn:Ebs.
  - inversion H; subst loc' w'; clear H.
    apply andb_true_iff in Ebs. destruct Ebs as (Eb & Esc).
    rewrite Eb, Esc in *. cbn [andb negb] in Tp.
    repeat split; congruence.
  - apply bind_ok in H. destruct H as (loc4 & w4 & H4 & H).
    apply bind_ok in H. destruct H as (loc5 & w5 & H5 & H).
    inversion H; subst loc' w5; clear H.
    assert (Tp' : my_parent (snd r)
                  = (if contains "}" l then pop (after_joint l (my_parent loc))
                     else after_joint l (my_parent loc))).
    { rewrite Tp, Jp. destruct (contains "}" l); [| reflexivity].
      cbn [andb] in Ebs. rewrite Ebs. reflexivity. }
    assert (O5 : safe_close loc5 = safe_close loc4 /\
                 my_parent loc5 = my_parent loc4 /\
                 motion loc5 = motion loc4 /\ self w' = self w4).
    { destruct (contains "OFFSET" l) eqn:Ho.
      - destruct (step_offset_ok _ _ _ _ _ Ho H5)
          as (_ & _ & j & _ & _ & _ & -> & Hs & _). auto.
      - unfold step_offset in H5. rewrite Ho in H5. inversion H5. auto. }
    destruct O5 as (Os & Op & Om & Ow).
    assert (M : safe_close (step_motion l loc5) = safe_close loc5 /\
                my_parent (step_motion l loc5) = my_parent loc5 /\
                motion (step_motion l loc5)
                = (contains "MOTION" l || motion loc5)).
    { unfold step_motion. destruct (contains "MOTION" l); auto. }
    destruct M as (Ms & Mp & Mm).
    destruct (contains "CHANNELS" l) eqn:Hc.
    + destruct (step_channels_ok _ _ _ _ _ Hc H4)
        as (code & j & n & _ & Hn & _ & -> & w1 & Ha & ->).
      destruct (append_channels_ok _ _ _ _ _ _ Ha)
        as (block & Hs & _ & _ & Hl & Hb).
      assert (Hcount : count_of l = Z.to_nat n).
      { unfold count_of. destruct (nth_error (tokens l) 1); cbn in Hn;
          [| discriminate]. inversion Hn as [E]. rewrite E. reflexivity. }
      split; [congruence |]. split; [congruence |].
      split; [rewrite Mm, Om, Tm; reflexivity |].
      exists block. rewrite Ow. cbn [self]. rewrite Hs, Tw.
      split; [reflexivity |]. rewrite Hcount. split; [exact Hl |].
      destruct Hb as [-> | (q & Hq & Hb)]; [left; reflexivity |].
      right. exists q. split; [congruence | exact Hb].
    + unfold step_channels in H4. rewrite Hc in H4.
      inversion H4; subst loc4 w4; clear H4.
      split; [congruence |]. split; [congruence |].
      split; [rewrite Mm, Om, Tm; reflexivity |].
      exists []. rewrite Ow, Tw, app_nil_r, set_channels_self. auto.
Qed.

Lemma read_hierarchy_line line loc (w : World) :
  motion loc = false ->
  read_line line loc w = hierarchy_line (norm line) loc w.
Proof. unfold read_line, norm. intros ->. reflexivity. Qed.

(** Balanced lines leave the object as it is, the channel table apart. *)
Lemma balanced_keeps_session lines : forall depth loc (w : World) loc' w',
  balanced depth (safe_close loc) lines = true ->
  motion loc = false ->
  read_lines lines loc w = (Ok loc', w') ->
  exists channels, self w' = set_channels channels (self w).
Proof.
  induction lines as [| line lines IH]; intros depth loc w loc' w' Hb Hm H.
  - cbn in H. inversion H; subst. exists (_channels (self w')).
    symmetry. apply set_channels_self.
  - cbn [read_lines] in H. apply bind_ok in H.
    destruct H as (la & wa & Ha & H). rewrite (read_hierarchy_line _ _ _ Hm) in Ha.
    cbn [balanced] in Hb. cbv zeta in Hb. apply andb_true_iff in Hb.
    destruct Hb as (Hroot & Hb). apply negb_true_iff in Hroot.
    destruct (line_control _ _ _ _ _ Hroot Ha) as (_ & Hc). cbv zeta in Hc.
    set (l := norm line) in *.
    set (sc := safe_close loc || contains "End Site" l) in *.
    destruct (contains "}" l) eqn:Eb.
    + destruct sc eqn:Esc; cbn [andb] in Hc.
      * destruct Hc as (Hs & _ & Hmo & Hw). rewrite <- Hs in Hb.
        destruct (IH _ _ _ _ _ Hb (eq_trans Hmo Hm) H) as (c & Hc).
        exists c. rewrite Hc, Hw. reflexivity.
      * destruct Hc as (Hs & _ & Hmo & block & Hw & _). rewrite Hm in Hmo.
        rewrite orb_false_r in Hmo.
        destruct (if contains "JOINT" l then S depth else depth) as [| d];
          [discriminate |].
        destruct (contains "MOTION" l) eqn:Emo.
        -- destruct (motion_lines_ok _ _ _ _ _ Hmo H) as (_ & Hs' & _).
           exists (_channels (self w) ++ block)%list. congruence.
        -- cbn [orb] in Hb. rewrite <- Hs in Hb.
           destruct (IH _ _ _ _ _ Hb Hmo H) as (c & Hc).
           exists c. rewrite Hc, Hw. reflexivity.
    + cbn [andb] in Hc. destruct Hc as (Hs & _ & Hmo & block & Hw & _).
      rewrite Hm in Hmo. rewrite orb_false_r in Hmo.
      destruct (contains "MOTION" l) eqn:Emo.
      * destruct (motion_lines_ok _ _ _ _ _ Hmo H) as (_ & Hs' & _).
        exists (_channels (self w) ++ block)%list. congruence.
      * cbn [orb] in Hb. rewrite <- Hs in Hb.
        destruct (IH _ _ _ _ _ Hb Hmo H) as (c & Hc).
        exists c. rewrite Hc, Hw. reflexivity.
Qed.

(** Entries bound to the same names on a joint and on the same joint below
    a group *)
Lemma bindings_related prefix path names : forall b1 b2,
  Forall2 (fun name entry => binding (prefix ++ path) name = Some entry)
    names b1 ->
  Forall2 (fun name entry => binding path name = Some entry) names b2 ->
  b1 = map (append prefix) b2.
Proof.
  induction names as [| name names IH]; intros b1 b2 H1 H2;
    inversion H1; inversion H2; subst; [reflexivity |].
  cbn [map]. f_equal; [| apply IH; assumption].
  unfold binding in *. destruct (translationDict name) as [attr |];
    [| discriminate].
  cbn in *. match goal with
    | A : Some _ = Some ?x, B : Some _ = Some ?y |- ?x = _ =>
        inversion A; inversion B; subst end.
  apply str_app_assoc.
Qed.

Lemma blocks_related G d q1 p2 l block1 block2 :
  above G d q1 p2 ->
  (if contains "CHANNELS" l then
     List.length block1 = count_of l /\
     (block1 = [] \/
      exists q, Some q1 = Some q /\
        Forall2 (fun name entry => binding (full_path q) name = Some entry)
          (firstn (count_of l) (skipn 2 (tokens l))) block1)
   else block1 = []) ->
  (if contains "CHANNELS" l then
     List.length block2 = count_of l /\
     (block2 = [] \/
      exists q, p2 = Some q /\
        Forall2 (fun name entry => binding (full_path q) name = Some entry)
          (firstn (count_of l) (skipn 2 (tokens l))) block2)
   else block2 = []) ->
  block1 = map (append (full_path G ++ "|")) block2.
Proof.
  intros Ha H1 H2. destruct (contains "CHANNELS" l).
  2:{ subst. reflexivity. }
  destruct H1 as (L1 & [-> | (q & Eq & F1)]).
  { cbn in L1. rewrite <- L1 in H2. destruct H2 as (L2 & _).
    destruct block2; [reflexivity | discriminate]. }
  destruct H2 as (L2 & [-> | (q2 & -> & F2)]).
  { cbn in L2. rewrite <- L2 in L1. destruct block1; [reflexivity | discriminate]. }
  inversion Eq; subst q. apply above_path in Ha. rewrite Ha in F1.
  exact (bindings_related _ _ _ _ _ F1 F2).
Qed.

Lemma above_after_joint G d l p1 p2 :
  above G d p1 p2 ->
  (contains "JOINT" l = true -> nth_error (tokens l) 1 <> None) ->
  exists pa,
    after_joint l (Some p1) = Some pa /\
    above G (if contains "JOINT" l then S d else d) pa (after_joint l p2).
Proof.
  intros Ha Hn. unfold after_joint. destruct (contains "JOINT" l).
  - destruct (nth_error (tokens l) 1) as [name |];
      [| exfalso; apply (Hn eq_refl); reflexivity].
    eexists. split; [reflexivity |]. constructor. exact Ha.
  - exists p1. auto.
Qed.

(** The same balanced lines read by a first pass, below the group [G], and
    by a second pass, without the group: the channel tables stay the same up
    to the path of the group. *)
Lemma hierarchy_sim G lines :
  forall depth loc1 (w1 : World) loc2 (w2 : World) p1 l1 w1' l2 w2',
    balanced depth (safe_close loc1) lines = true ->
    motion loc1 = false -> motion loc2 = false ->
    safe_close loc2 = safe_close loc1 ->
    my_parent loc1 = Some p1 -> above G depth p1 (my_parent loc2) ->
    _channels (self w1)
    = map (append (full_path G ++ "|")) (_channels (self w2)) ->
    read_lines lines loc1 w1 = (Ok l1, w1') ->
    read_lines lines loc2 w2 = (Ok l2, w2') ->
    _channels (self w1')
    = map (append (full_path G ++ "|")) (_channels (self w2')).
Proof.
  induction lines as [| line lines IH];
    intros depth loc1 w1 loc2 w2 p1 l1 w1' l2 w2' Hb Hm1 Hm2 Hsc Hp Ha Hch H1 H2.
  - cbn in H1, H2. inversion H1; inversion H2; subst. exact Hch.
  - cbn [read_lines] in H1, H2.
    apply bind_ok in H1. destruct H1 as (la & wa & Ra & H1).
    apply bind_ok in H2. destruct H2 as (lb & wb & Rb & H2).
    rewrite (read_hierarchy_line _ _ _ Hm1) in Ra.
    rewrite (read_hierarchy_line _ _ _ Hm2) in Rb.
    cbn [balanced] in Hb. cbv zeta in Hb. apply andb_true_iff in Hb.
    destruct Hb as (Hroot & Hb). apply negb_true_iff in Hroot.
    destruct (line_control _ _ _ _ _ Hroot Ra) as (Hn & Ca).
    destruct (line_control _ _ _ _ _ Hroot Rb) as (_ & Cb).
    cbv zeta in Ca, Cb. rewrite Hsc in Cb. rewrite Hp in Ca.
    set (l := norm line) in *.
    set (sc := safe_close loc1 || contains "End Site" l) in *.
    destruct (above_after_joint G depth l p1 (my_parent loc2) Ha Hn)
      as (pa & Epa & Aa).
    rewrite Epa in Ca.
    set (depth' := if contains "JOINT" l then S depth else depth) in *.
    destruct (contains "}" l) eqn:Eb.
    + destruct sc eqn:Esc; cbn [andb] in Ca, Cb.
      * destruct Ca as (Sa & Pa & Ma & Wa). destruct Cb as (Sb & Pb & Mb & Wb).
        rewrite <- Sa in Hb.
        apply (IH depth' la wa lb wb pa l1 w1' l2 w2' Hb); try congruence.
      * destruct Ca as (Sa & Pa & Ma & block1 & Wa & Ba).
        destruct Cb as (Sb & Pb & Mb & block2 & Wb & Bb).
        rewrite Hm1 in Ma. rewrite Hm2 in Mb. rewrite orb_false_r in Ma, Mb.
        destruct depth' as [| d]; [discriminate |].
        inversion Aa as [| d0 o q1 q2 Aq E1 E2 E3]; subst.
        rewrite <- E3 in Pb, Bb. cbn [pop parent] in Pa, Pb, Ba, Bb.
        assert (Hch' : _channels (self wa)
                       = map (append (full_path G ++ "|")) (_channels (self wb))).
        { rewrite Wa, Wb. cbn [_channels set_channels].
          rewrite map_app, Hch. f_equal.
          exact (blocks_related G d q1 q2 l block1 block2 Aq Ba Bb). }
        destruct (contains "MOTION" l) eqn:Emo.
        -- destruct (motion_lines_ok _ _ _ _ _ Ma H1) as (_ & S1 & _).
           destruct (motion_lines_ok _ _ _ _ _ Mb H2) as (_ & S2 & _).
           rewrite S1, S2. exact Hch'.
        -- cbn [orb] in Hb. rewrite <- Sa in Hb.
           apply (IH d la wa lb wb q1 l1 w1' l2 w2' Hb); try congruence.
    + cbn [andb] in Ca, Cb.
      destruct Ca as (Sa & Pa & Ma & block1 & Wa & Ba).
      destruct Cb as (Sb & Pb & Mb & block2 & Wb & Bb).
      rewrite Hm1 in Ma. rewrite Hm2 in Mb. rewrite orb_false_r in Ma, Mb.
      assert (Hch' : _channels (self wa)
                     = map (append (full_path G ++ "|")) (_channels (self wb))).
      { rewrite Wa, Wb. cbn [_channels set_channels].
        rewrite map_app, Hch. f_equal.
        exact (blocks_related G depth' pa _ l block1 block2 Aa Ba Bb). }
      destruct (contains "MOTION" l) eqn:Emo.
      * destruct (motion_lines_ok _ _ _ _ _ Ma H1) as (_ & S1 & _).
        destruct (motion_lines_ok _ _ _ _ _ Mb H2) as (_ & S2 & _).
        rewrite S1, S2. exact Hch'.
      * cbn [orb] in Hb. rewrite <- Sa in Hb.
        apply (IH depth' la wa lb wb pa l1 w1' l2 w2' Hb); try congruence.
Qed.

(** The lines before the [ROOT] line of a valid file do nothing. *)
Lemma skip_to_root lines :
  valid_hierarchy lines = true ->
  exists root_line rest,
    startswith (norm root_line) "ROOT" = true /\
    keywordless (norm root_line) = true /\
    balanced 1 false rest = true /\
    forall loc (w : World),
      motion loc = false ->
      read_lines lines loc w = read_lines (root_line :: rest) loc w.
Proof.
  induction lines as [| line lines IH]; intros Hv; [discriminate |].
  cbn [valid_hierarchy] in Hv. apply andb_true_iff in Hv.
  destruct Hv as (Hk & Hv).
  destruct (startswith (norm line) "ROOT") eqn:Hr.
  - exists line, lines. auto.
  - destruct (IH Hv) as (root_line & rest & H1 & H2 & H3 & H4).
    exists root_line, rest. repeat (split; [assumption |]).
    intros loc w Hm. rewrite <- (H4 loc w Hm). cbn [read_lines].
    apply bind_run. rewrite (read_hierarchy_line _ _ _ Hm).
    rewrite (keywordless_line _ _ _ Hk), step_root_run, Hr. reflexivity.
Qed.

Lemma root_line_run line loc (w : World) :
  motion loc = false -> keywordless (norm line) = true ->
  read_line line loc w = step_root (norm line) loc w.
Proof.
  intros Hm Hk. rewrite (read_hierarchy_line _ _ _ Hm).
  apply keywordless_line. exact Hk.
Qed.

(** The channel table of a second pass is that of the first pass without
    the group: each entry of the first pass is the entry of the second pass
    at the same position, below the group. *)
Lemma reimport_channels (w0 : World) lines l1 w1 l2 w2 :
  data (self w0) = Some lines -> _root_node (self w0) = None ->
  valid_hierarchy lines = true ->
  readFile w0 = (Ok l1, w1) -> readFile w1 = (Ok l2, w2) ->
  exists grp name,
    _root_node (self w1) = Some (Dag (ObjStr name) (Some (Dag (ObjStr grp) None)))
    /\ _root_node_full_path (self w1) = Some (grp ++ "|" ++ name)
    /\ data (self w1) = Some lines /\
    _channels (self w1) = map (append (grp ++ "|")) (_channels (self w2)).
Proof.
  intros Hd Hr Hv H1 H2.
  destruct (skip_to_root lines Hv) as (root_line & rest & Hs & Hk & Hb & Hskip).
  (* the first pass *)
  unfold readFile in H1. apply bind_ok in H1.
  destruct H1 as (p & w0e & He & H1).
  destruct (readFile_enter_ok _ _ _ He) as (Hse & _ & Hp). rewrite Hr in Hp.
  destruct Hp as (grp & ->).
  unfold bind at 1, get_self in H1. rewrite Hse in H1.
  change (data (set_channels [] (self w0))) with (data (self w0)) in H1.
  rewrite Hd in H1. rewrite Hskip in H1 by reflexivity.
  cbn [read_lines] in H1. apply bind_ok in H1.
  destruct H1 as (la & wa & Ra & H1).
  rewrite root_line_run in Ra; [| reflexivity | exact Hk].
  rewrite step_root_run, Hs, Hse in Ra.
  change (_root_node (set_channels [] (self w0))) with (_root_node (self w0)) in Ra.
  rewrite Hr in Ra. cbn [my_parent] in Ra.
  set (name := rstrip (slice_from 5 (norm root_line))) in *.
  set (G := Dag (ObjStr grp) None) in *.
  set (P := Dag (ObjStr name) (Some G)) in *.
  inversion Ra; subst la wa; clear Ra.
  match type of H1 with read_lines _ ?la _ = _ =>
    destruct (balanced_keeps_session rest 1%nat la _ _ _ Hb eq_refl H1)
      as (c1 & Hs1) end.
  cbn [self] in Hs1.
  assert (Hroot1 : _root_node (self w1) = Some P) by (rewrite Hs1; reflexivity).
  assert (Hdata1 : data (self w1) = Some lines)
    by (rewrite Hs1; exact Hd).
  (* the second pass *)
  destruct (readFile_again w1 P lines Hroot1 Hdata1)
    as (wc & _ & Hsc & _ & Hrun).
  rewrite Hrun in H2. rewrite Hskip in H2 by reflexivity.
  cbn [read_lines] in H2. apply bind_ok in H2.
  destruct H2 as (lb & wb & Rb & H2).
  rewrite root_line_run in Rb; [| reflexivity | exact Hk].
  rewrite step_root_run, Hs, Hsc in Rb.
  change (_root_node (set_channels [] (self w1))) with (_root_node (self w1)) in Rb.
  rewrite Hroot1 in Rb. inversion Rb; subst lb wb; clear Rb.
  exists grp, name. split; [exact Hroot1 |].
  split; [rewrite Hs1; reflexivity |]. split; [exact Hdata1 |].
  change (grp ++ "|") with (full_path G ++ "|").
  match type of H1 with read_lines _ ?la ?wa = _ =>
    match type of H2 with read_lines _ ?lb ?wb = _ =>
      apply (hierarchy_sim G rest 1%nat la wa lb wb P l1 w1 l2 w2 Hb);
        try reflexivity; try assumption
    end end.
  - cbn [my_parent set_my_parent]. change (dag_str P) with name.
    constructor. constructor.
  - cbn [self]. rewrite Hsc. reflexivity.
Qed.

(** The keys a pass over a valid file sets *)
Lemma pass_keys (w : World) lines loc' w' :
  data (self w) = Some lines -> forallb brace_alone lines = true ->
  readFile w = (Ok loc', w') ->
  exists set,
    keyframes (trace w') = (keyframes (trace w) ++ set)%list /\
    Forall2 (key_agrees py_float) set
      (motion_keys (_channels (self w')) 0 (motion_section lines)).
Proof.
  intros Hd Hv H.
  destruct (readFile_split _ _ _ _ Hd Hv H)
    as (loc1 & w1 & blocks & Hr & Hm & Hf & Hk & _ & _).
  destruct (motion_section_run _ _ _ _ _ Hr Hm) as (Hs & _ & set & Hset & Ha).
  exists set. rewrite Hset, Hk, Hs. split; [reflexivity |].
  rewrite Hf in Ha. exact Ha.
Qed.

Lemma combine_map_left {A B C} (f : A -> B) (l : list A) (l' : list C) :
  combine (map f l) l' = map (fun ac => (f (fst ac), snd ac)) (combine l l').
Proof.
  revert l'. induction l as [| a l IH]; intros [| c l']; cbn;
    [| | | rewrite IH]; reflexivity.
Qed.

(** The keys asked for when every channel is addressed below a group *)
Lemma motion_keys_below prefix channels lines : forall time,
  motion_keys (map (append prefix) channels) time lines
  = map (fun k => (prefix ++ fst (fst k), snd (fst k), snd k))
      (motion_keys channels time lines).
Proof.
  induction lines as [| line lines IH]; intros time; [reflexivity |].
  cbn [motion_keys]. destruct (is_data_line line); [| apply IH].
  rewrite map_app, IH. f_equal. unfold row_keys.
  rewrite combine_map_left, !map_map. reflexivity.
Qed.

(** Keys that agree with the same requests, below a group for the first *)
Lemma keys_related prefix asked : forall (set1 set2 : list (string * Z * F)),
  Forall2 (key_agrees py_float) set1
    (map (fun k => (prefix ++ fst (fst k), snd (fst k), snd k)) asked) ->
  Forall2 (key_agrees py_float) set2 asked ->
  set1 = map (under prefix) set2.
Proof.
  induction asked as [| k asked IH]; intros set1 set2 H1 H2;
    inversion H1; inversion H2; subst; [reflexivity |].
  cbn [map]. f_equal; [| apply IH; assumption].
  match goal with
  | A : key_agrees _ ?x _, B : key_agrees _ ?y _ |- ?x = under _ ?y =>
      destruct A as (A1 & A2 & A3); destruct B as (B1 & B2 & B3);
      destruct x as [[a1 t1] v1]; destruct y as [[a2 t2] v2];
      cbn in *; unfold under; cbn; congruence
  end.
Qed.

(** C1 (as the code has it).  A second pass of [readFile] on an object
    that has read a valid file starts with the clear-animation pass: it is
    over, and no key has been set again, when the first line is read.  The
    pass then sets the keys of the first pass again, in the same order, at
    the same times and with the same values; the attribute of each key is
    the attribute of the first pass without the leading group, as the
    channel table of the second pass is that of the first pass without the
    group. *)
Theorem reimport_keyframes (w0 : World) lines l1 w1 l2 w2 :
  data (self w0) = Some lines -> _root_node (self w0) = None ->
  valid_hierarchy lines = true -> forallb brace_alone lines = true ->
  readFile w0 = (Ok l1, w1) -> readFile w1 = (Ok l2, w2) ->
  exists grp r w_clear set1 set2,
    _root_node (self w1) = Some r /\
    _root_node_full_path (self w1) = Some (grp ++ "|" ++ dag_str r) /\
    _clear_animation
      (with_event
         (EvSetAttrF (split_head "|" (root_node (self w1)) ++ ".scale")
            [scale (self w1); scale (self w1); scale (self w1)] None)
         (mkWorld (set_channels [] (self w1)) (scene w1) (trace w1)))
    = (Ok tt, w_clear) /\
    keyframes (trace w_clear) = keyframes (trace w1) /\
    readFile w1
    = read_lines lines (mkLocals false false 0 (Some (Dag (ObjDag r) None)) None)
        w_clear /\
    keyframes (trace w1) = (keyframes (trace w0) ++ set1)%list /\
    keyframes (trace w2) = (keyframes (trace w1) ++ set2)%list /\
    set1 = map (under (grp ++ "|")) set2 /\
    _channels (self w1) = map (append (grp ++ "|")) (_channels (self w2)).
Proof.
  intros Hd Hr Hv Hb H1 H2.
  destruct (reimport_channels _ _ _ _ _ _ Hd Hr Hv H1 H2)
    as (grp & name & Hroot & Hpath & Hd1 & Hch).
  destruct (readFile_again w1 _ lines Hroot Hd1) as (wc & Hc & _ & Hkc & Hrun).
  destruct (pass_keys _ _ _ _ Hd Hb H1) as (set1 & K1 & A1).
  destruct (pass_keys _ _ _ _ Hd1 Hb H2) as (set2 & K2 & A2).
  exists grp, (Dag (ObjStr name) (Some (Dag (ObjStr grp) None))), wc, set1, set2.
  split; [exact Hroot |]. split; [exact Hpath |].
  split; [exact Hc |]. split; [exact Hkc |]. split; [exact Hrun |].
  split; [exact K1 |]. split; [exact K2 |]. split; [| exact Hch].
  rewrite Hch, motion_keys_below in A1.
  exact (keys_related _ _ _ _ A1 A2).
Qed.

(** ** Paths *)

Lemma contains_char (c a : ascii) (s : string) :
  contains (String c "") (String a s)
  = Ascii.eqb c a || contains (String c "") s.
Proof.
  cbn [contains starts]. destruct s; rewrite andb_true_r; reflexivity.
Qed.

Lemma cleanPath_no_backslash (path : string) :
  contains "\" (cleanPath path) = false.
Proof.
  unfold cleanPath. induction path as [| c path IH]; [reflexivity |].
  cbn [replace_char]. rewrite contains_char, IH, orb_false_r.
  destruct (Ascii.eqb_spec c "\") as [-> | Hc]; [reflexivity |].
  apply Ascii.eqb_neq. congruence.
Qed.

Lemma cleanPath_fixed (path : string) :
  contains "\" path = false -> cleanPath path = path.
Proof.
  unfold cleanPath. induction path as [| c path IH]; [reflexivity |].
  rewrite contains_char. intros H. apply orb_false_iff in H.
  destruct H as (Hc & H). cbn [replace_char]. rewrite (IH H).
  rewrite Ascii.eqb_sym, Hc. reflexivity.
Qed.

(** X1. [cleanPath] leaves no backslash in a path, keeps its length, changes
    nothing in a path that is clean, and so does nothing when applied a
    second time. *)
Theorem cleanPath_normalises (path : string) :
  contains "\" (cleanPath path) = false /\
  String.length (cleanPath path) = String.length path /\
  cleanPath (cleanPath path) = cleanPath path /\
  (contains "\" path = false -> cleanPath path = path).
Proof.
  split; [apply cleanPath_no_backslash |].
  split.
  - unfold cleanPath. induction path as [| c path IH]; cbn; [| rewrite IH];
      reflexivity.
  - split; [| apply cleanPath_fixed].
    apply cleanPath_fixed, cleanPath_no_backslash.
Qed.

Lemma concat_path (a name : string) (names : list string) :
  String.concat "|" ((a ++ "|" ++ name) :: names)
  = String.concat "|" (a :: name :: names).
Proof.
  destruct names as [| m names]; cbn [String.concat]; [reflexivity |].
  rewrite !str_app_assoc. reflexivity.
Qed.

Lemma last_cons {A} (l : list A) : forall a d, last (a :: l) d = last l a.
Proof.
  induction l as [| b l IH]; intros a d; [reflexivity |].
  change (last (a :: b :: l) d) with (last (b :: l) d).
  rewrite !IH. reflexivity.
Qed.

(** X2. The full path of a node is the sequence of the names from its
    farthest ancestor down to the node, joined by [|]: going down from a
    node by the names [n1 ... nk] gives the full path of the node followed
    by [|n1|...|nk], and [str] of the result is the last name. *)
Theorem full_path_descend (names : list string) (p : TinyDAG) :
  full_path (descend p names) = String.concat "|" (full_path p :: names) /\
  dag_str (descend p names) = last names (dag_str p).
Proof.
  revert p. induction names as [| name names IH]; intros p.
  - split; reflexivity.
  - unfold descend in *. cbn [fold_left].
    destruct (IH (Dag (ObjStr name) (Some p))) as (Hp & Hs). split.
    + rewrite Hp, full_path_child. cbn [full_path dag_str].
      apply concat_path.
    + rewrite Hs. cbn [dag_str]. symmetry. apply last_cons.
Qed.

Lemma iter_pop_descend (names : list string) : forall p,
  Nat.iter (List.length names) pop (Some (descend p names)) = Some p.
Proof.
  induction names as [| name names IH] using rev_ind; intros p;
    [reflexivity |].
  unfold descend. rewrite fold_left_app, length_app. cbn [fold_left List.length].
  rewrite Nat.add_comm. cbn [Nat.add].
  rewrite Nat.iter_succ_r. cbn [pop parent]. apply IH.
Qed.

(** X3. Going up undoes going down: after one [TinyDAG(name, current)] for
    each of [k] names, [k] times [current = current.parent] give the node
    one started from; one more gives its parent, and from a node without
    parent any further step gives [None] again. *)
Theorem ascend_descend (names : list string) (p : TinyDAG) (extra : nat) :
  Nat.iter (List.length names) pop (Some (descend p names)) = Some p /\
  Nat.iter (S (List.length names)) pop (Some (descend p names)) = parent p /\
  (parent p = None ->
   Nat.iter (S extra + List.length names) pop (Some (descend p names)) = None).
Proof.
  split; [apply iter_pop_descend |].
  split.
  - rewrite Nat.iter_succ, iter_pop_descend. reflexivity.
  - intros Hp. rewrite Nat.iter_add, iter_pop_descend.
    induction extra as [| extra IH].
    + exact Hp.
    + rewrite Nat.iter_succ, IH. reflexivity.
Qed.


Lemma translationDict_attr name attr :
  translationDict name = Some attr -> In attr (trans_attrs ++ rot_attrs).
Proof.
  unfold translationDict.
  repeat match goal with
         | |- context [String.eqb name ?k] => destruct (String.eqb name k)
         end;
    intros H; inversion H; cbn; tauto.
Qed.

(** ** What every line respects

    A relation on worlds that is a preorder, holds across every call of
    [allowed] kind, across a key set on an entry of the channel table,
    across the two changes made to the table (it is emptied, and an entry
    for one of the six attributes is appended), and holds when a first root
    is recorded, holds across [readFile]. *)

Section Respects.

Variable R : World -> World -> Prop.
Variable allowed : MayaEvent F -> bool.
Variable root_ok : string -> Prop.

Hypothesis R_refl : forall w, R w w.
Hypothesis R_trans : forall w1 w2 w3, R w1 w2 -> R w2 w3 -> R w1 w3.
Hypothesis R_event : forall ev w, allowed ev = true -> R w (with_event ev w).
Hypothesis R_clear : forall w,
  R w (mkWorld (set_channels [] (self w)) (scene w) (trace w)).
Hypothesis R_append : forall p attr w,
  In attr (trans_attrs ++ rot_attrs) ->
  R w (mkWorld
         (set_channels (_channels (self w) ++ [full_path p ++ "." ++ attr])
            (self w))
         (scene w) (trace w)).
Hypothesis allowed_line : forall ev, hier_event ev = true -> allowed ev = true.
Hypothesis R_root : forall l p w,
  root_ok l -> startswith l "ROOT" = true -> _root_node (self w) = None ->
  R w (mkWorld (set_root (Dag (ObjStr (rstrip (slice_from 5 l))) p) (self w))
         (scene w) (trace w)).

Lemma respects_ret {A} (a : A) : respects R (ret a : M A).
Proof. intros w. apply R_refl. Qed.

Lemma respects_raise {A} e : respects R (raise e : M A).
Proof. intros w. apply R_refl. Qed.

Lemma respects_bind {A B} (c : M A) (k : A -> M B) :
  respects R c -> (forall a, respects R (k a)) -> respects R (bind c k).
Proof.
  intros Hc Hk w. unfold bind. specialize (Hc w).
  destruct (c w) as [[a | e] w1]; cbn [snd] in *; [| exact Hc].
  eapply R_trans; [exact Hc | apply Hk].
Qed.

Lemma respects_call {A} (answer : Scene -> A) ev :
  (forall a, allowed (ev a) = true) -> respects R (call answer ev).
Proof. intros Hev w. apply (R_event (ev (answer (scene w))) w), Hev. Qed.

Lemma respects_emit ev : allowed ev = true -> respects R (emit ev).
Proof. intros Hev. apply respects_call. intros _. exact Hev. Qed.

Lemma respects_for_each {A} (l : list A) body :
  (forall x, respects R (body x)) -> respects R (for_each l body).
Proof.
  intros H. induction l as [| x l IH]; cbn [for_each].
  - apply respects_ret.
  - apply respects_bind; [apply H | intros _; exact IH].
Qed.

Lemma respects_clear_table : respects R (update_self (set_channels [])).
Proof. intros w. apply (R_clear w). Qed.

Lemma respects_append p attr :
  In attr (trans_attrs ++ rot_attrs) ->
  respects R
    (update_self
       (fun s => set_channels (_channels s ++ [full_path p ++ "." ++ attr]) s)).
Proof. intros Hin w. apply (R_append p attr w Hin). Qed.

Lemma respects_get_self : respects R (get_self : M (Session F)).
Proof. intros w. apply R_refl. Qed.

Ltac respect allow :=
  repeat first
    [ apply respects_ret | apply respects_raise | apply respects_get_self
    | apply respects_clear_table
    | apply respects_append; eapply translationDict_attr; eassumption
    | apply respects_emit; allow
    | apply respects_call; intros ?; allow
    | apply respects_bind; [| intros ?]
    | apply respects_for_each; intros ?
    | match goal with
      | |- respects _ (match ?x with _ => _ end) => destruct x eqn:?
      end ].

Ltac line_allowed := apply allowed_line; reflexivity.

Lemma respects_step_root l loc : root_ok l -> respects R (step_root l loc).
Proof.
  intros Hl w. unfold step_root.
  destruct (startswith l "ROOT") eqn:Hs; [| apply R_refl].
  unfold bind, get_self.
  destruct (_root_node (self w)) eqn:Hr; [apply R_refl |].
  apply R_root; assumption.
Qed.

Lemma respects_after_root l loc :
  respects R
    (loc <- step_joint l loc ;;
     r <- step_brace l (step_end_site l loc) ;;
     if fst r then ret (snd r)
     else
       loc <- step_channels l (snd r) ;;
       loc <- step_offset l loc ;;
       ret (step_motion l loc)).
Proof.
  unfold step_joint, step_brace, step_channels, append_channel, step_offset.
  cbv zeta. respect line_allowed.
Qed.

Lemma respects_hierarchy_line l loc :
  root_ok l -> respects R (hierarchy_line l loc).
Proof.
  intros Hl. unfold hierarchy_line. apply respects_bind.
  - apply respects_step_root, Hl.
  - intros loc1. apply respects_after_root.
Qed.

Hypothesis R_key : forall attr time v w,
  In attr (_channels (self w)) ->
  R w (with_event (EvSetKeyframe attr time v) w).

Lemma respects_set_key time iv : respects R (set_key time iv).
Proof.
  intros w. destruct iv as (i, tok). rewrite set_key_run.
  destruct (nth_error (_channels (self w)) i) as [attr |] eqn:Hn;
    [| apply R_refl].
  destruct (py_float tok) as [v |]; [| apply R_refl].
  apply (R_key attr time v w). eapply nth_error_In. exact Hn.
Qed.

Lemma respects_motion_line l loc : respects R (motion_line l loc).
Proof.
  unfold motion_line. destruct (contains "Frame" l); [apply respects_ret |].
  apply respects_bind; [| intros _; apply respects_ret].
  apply respects_for_each. intros iv. apply respects_set_key.
Qed.

Lemma respects_read_line line loc :
  root_ok (norm line) -> respects R (read_line line loc).
Proof.
  intros Hl. unfold read_line. destruct (motion loc).
  - apply respects_motion_line.
  - apply respects_hierarchy_line, Hl.
Qed.

Lemma respects_read_lines lines :
  Forall (fun line => root_ok (norm line)) lines ->
  forall loc, respects R (read_lines lines loc).
Proof.
  induction 1 as [| line lines Hl _ IH]; intros loc; cbn [read_lines].
  - apply respects_ret.
  - apply respects_bind; [apply respects_read_line, Hl | intros loc1; apply IH].
Qed.

Hypothesis allowed_nonkey : forall ev,
  keyframe_of ev = None -> allowed ev = true.

Lemma respects_clear : respects R _clear_animation.
Proof.
  unfold _clear_animation, clear_node, clear_attr.
  respect ltac:(apply allowed_nonkey; reflexivity).
Qed.

Lemma respects_enter : respects R readFile_enter.
Proof.
  unfold readFile_enter.
  apply respects_bind; [apply respects_clear_table | intros _].
  apply respects_bind; [apply respects_get_self | intros s].
  destruct (_root_node s).
  - apply respects_bind;
      [apply respects_emit, allowed_nonkey; reflexivity | intros _].
    apply respects_bind; [apply respects_clear | intros _].
    apply respects_ret.
  - respect ltac:(apply allowed_nonkey; reflexivity).
Qed.

End Respects.

Lemma enter_data (w : World) :
  data (self (snd (readFile_enter w))) = data (self w).
Proof.
  apply (respects_enter (fun w1 w2 => data (self w2) = data (self w1))
           (fun _ => true)); try reflexivity.
  intros w1 w2 w3 H1 H2. congruence.
Qed.

Lemma nonkey_hier (ev : MayaEvent F) :
  hier_event ev = true -> keyframe_of ev = None.
Proof. destruct ev; try reflexivity. discriminate. Qed.

Lemma respects_readFile (R : World -> World -> Prop) (root_ok : string -> Prop) :
  (forall w, R w w) ->
  (forall w1 w2 w3, R w1 w2 -> R w2 w3 -> R w1 w3) ->
  (forall ev w, keyframe_of ev = None -> R w (with_event ev w)) ->
  (forall attr time v w,
     In attr (_channels (self w)) ->
     R w (with_event (EvSetKeyframe attr time v) w)) ->
  (forall w, R w (mkWorld (set_channels [] (self w)) (scene w) (trace w))) ->
  (forall p attr w,
     In attr (trans_attrs ++ rot_attrs) ->
     R w (mkWorld
            (set_channels (_channels (self w) ++ [full_path p ++ "." ++ attr])
               (self w))
            (scene w) (trace w))) ->
  (forall l p w,
     root_ok l -> startswith l "ROOT" = true -> _root_node (self w) = None ->
     R w (mkWorld
            (set_root (Dag (ObjStr (rstrip (slice_from 5 l))) p) (self w))
            (scene w) (trace w))) ->
  forall w,
    (forall lines, data (self w) = Some lines ->
                   Forall (fun line => root_ok (norm line)) lines) ->
    R w (snd (readFile w)).
Proof.
  intros Hrefl Htrans Hev Hkey Hclear Happend Hroot w Hlines.
  set (allowed := fun ev : MayaEvent F =>
                    match keyframe_of ev with None => true | Some _ => false end).
  assert (Hal : forall ev w1, allowed ev = true -> R w1 (with_event ev w1)).
  { intros ev w1 Ha. apply Hev. unfold allowed in Ha.
    destruct (keyframe_of ev); [discriminate Ha | reflexivity]. }
  assert (Hnk : forall ev, keyframe_of ev = None -> allowed ev = true).
  { intros ev E. unfold allowed. rewrite E. reflexivity. }
  assert (He : R w (snd (readFile_enter w))).
  { apply (respects_enter R allowed); auto. }
  pose proof (enter_data w) as Hd.
  unfold readFile, bind at 1.
  destruct (readFile_enter w) as [[p | e] w1]; cbn [snd] in *; [| exact He].
  unfold bind, get_self. cbn [self].
  destruct (data (self w1)) as [lines |] eqn:Hl; [| exact He].
  eapply Htrans; [exact He |].
  apply (respects_read_lines R allowed root_ok); auto.
  intros ev E. apply Hnk, nonkey_hier, E.
Qed.



(** ** What a pass keeps of the object *)

Lemma kept_refl (s : Session F) : kept s s.
Proof. unfold kept. auto 6. Qed.

Lemma kept_trans (s1 s2 s3 : Session F) :
  kept s1 s2 -> kept s2 s3 -> kept s1 s3.
Proof.
  intros (Hd1 & Hs1 & Hf1 & Hr1) (Hd2 & Hs2 & Hf2 & Hr2).
  unfold kept. repeat split; try congruence.
  - destruct (Hr1 r H) as (Ha & _). destruct (Hr2 r Ha) as (Hb & _). exact Hb.
  - destruct (Hr1 r H) as (Ha & Hp). destruct (Hr2 r Ha) as (_ & Hq).
    congruence.
Qed.

Lemma readFile_kept (w : World) : kept (self w) (self (snd (readFile w))).
Proof.
  apply (respects_readFile (fun w1 w2 => kept (self w1) (self w2))
           (fun _ => True)).
  - intros w1. apply kept_refl.
  - intros w1 w2 w3. apply kept_trans.
  - intros ev w1 _. apply kept_refl.
  - intros attr time v w1 _. apply kept_refl.
  - intros w1. unfold kept. cbn. auto 6.
  - intros p attr w1 _. unfold kept. cbn. auto 6.
  - intros l p w1 _ _ Hr. unfold kept. cbn. repeat split; congruence.
  - intros lines _. apply Forall_forall. auto.
Qed.

(** X4. Whatever the lines hold, and whether it returns or raises,
    [readFile] leaves the loaded lines, the scale and the path of the object
    as they were, and a root that is on record when it starts is still on
    record when it ends, with the same full path: the first root recorded is
    never replaced. *)
Theorem readFile_keeps_object (w : World) :
  let s := self w in
  let s' := self (snd (readFile w)) in
  data s' = data s /\ scale s' = scale s /\ file_path s' = file_path s /\
  forall r, _root_node s = Some r ->
    _root_node s' = Some r /\ _root_node_full_path s' = _root_node_full_path s.
Proof. exact (readFile_kept w). Qed.

Lemma readFile_rooted (w : World) lines :
  data (self w) = Some lines -> rooted lines (self w) ->
  rooted lines (self (snd (readFile w))).
Proof.
  intros Hd.
  apply (respects_readFile
           (fun w1 w2 => rooted lines (self w1) -> rooted lines (self w2))
           (fun l => exists line, In line lines /\ norm line = l)).
  - auto.
  - auto.
  - intros ev w1 _ H. exact H.
  - intros attr time v w1 _ H. exact H.
  - intros w1 H. exact H.
  - intros p attr w1 _ H. exact H.
  - intros l p w1 (line & Hin & Hl) Hs Hr _. unfold rooted. cbn.
    split; [reflexivity |]. exists line. subst l. auto.
  - intros lines' Hd'. assert (lines' = lines) by congruence. subst lines'.
    apply Forall_forall. intros line Hin. exists line. auto.
Qed.

(** X5. The root on record belongs to the loaded lines.  If, when
    [readFile] starts, the root on record (if any) has the name that follows
    [ROOT] on a line of the file that starts with [ROOT], and the full path on
    record is the full path of that node, then the same holds when
    [readFile] ends, whether it returns or raises; and if no root is on
    record at the end, no full path is on record either. *)
Theorem root_on_record (w : World) lines :
  data (self w) = Some lines -> rooted lines (self w) ->
  rooted lines (self (snd (readFile w))).
Proof. exact (readFile_rooted w lines). Qed.

(** ** The first pass *)

Lemma enter_first (w : World) fp :
  _root_node (self w) = None -> file_path (self w) = Some fp ->
  let name := "_mocap_" ++ basename fp ++ "_grp" in
  let grp := maya_group name (scene w) in
  readFile_enter w
  = (Ok (Dag (ObjStr grp) None),
     with_event
       (EvSetAttrF (grp ++ ".scale")
          [scale (self w); scale (self w); scale (self w)] None)
       (with_event (EvGroup name grp)
          (mkWorld (set_channels [] (self w)) (scene w) (trace w)))).
Proof.
  intros Hr Hf name grp.
  unfold readFile_enter, bind, update_self, get_self, set_self.
  cbn -[String.append basename]. rewrite Hr, Hf. reflexivity.
Qed.

Lemma line_events_refl (w : World) : line_events w w.
Proof. exists []. rewrite app_nil_r. auto. Qed.

Lemma line_events_trans (w1 w2 w3 : World) :
  line_events w1 w2 -> line_events w2 w3 -> line_events w1 w3.
Proof.
  intros (e1 & H1 & Ha) (e2 & H2 & Hb). exists (e1 ++ e2)%list.
  rewrite H2, H1, <- app_assoc, forallb_app, Ha, Hb. auto.
Qed.

Lemma read_lines_events lines loc (w : World) :
  line_events w (snd (read_lines lines loc w)).
Proof.
  apply (respects_read_lines (@line_events F Scene) line_event (fun _ => True)).
  - apply line_events_refl.
  - apply line_events_trans.
  - intros ev w1 Hev. exists [ev]. cbn. rewrite Hev. auto.
  - intros p attr w1 _. exists []. cbn. rewrite app_nil_r. auto.
  - intros ev Hev. unfold line_event. rewrite Hev. reflexivity.
  - intros l p w1 _ _ _. exists []. cbn. rewrite app_nil_r. auto.
  - intros attr time v w1 _. exists [EvSetKeyframe attr time v]. cbn. auto.
  - apply Forall_forall. auto.
Qed.

Lemma first_pass_trace (w : World) fp :
  _root_node (self w) = None -> file_path (self w) = Some fp ->
  let name := "_mocap_" ++ basename fp ++ "_grp" in
  let grp := maya_group name (scene w) in
  exists evs,
    trace (snd (readFile w))
    = (trace w
       ++ EvGroup name grp
          :: EvSetAttrF (grp ++ ".scale")
               [scale (self w); scale (self w); scale (self w)] None
          :: evs)%list /\
    forallb line_event evs = true.
Proof.
  intros Hr Hf name grp. unfold readFile.
  pose proof (enter_first w fp Hr Hf) as He. cbv zeta in He.
  rewrite (bind_run _ _ _ _ _ He).
  unfold bind, get_self. cbn [self with_event set_channels data].
  destruct (data (self w)) as [lines |].
  - match goal with
    | |- context [read_lines lines ?loc ?w1] =>
        destruct (read_lines_events lines loc w1) as (evs & Ht & Hev)
    end.
    exists evs. split; [| exact Hev]. rewrite Ht. unfold with_event.
    cbn [trace]. rewrite <- !app_assoc. reflexivity.
  - exists []. split; [| reflexivity]. unfold with_event.
    cbn [snd trace]. rewrite <- !app_assoc. reflexivity.
Qed.

(** X6. A first pass (no root on record) that knows its path creates one
    group, named [_mocap_<basename>_grp], and sets its scale; after that,
    whatever the lines hold and whether it returns or raises, it only
    selects, tests existence, creates joints, sets attributes and sets keys:
    it never deletes a node and never asks for connections. *)
Theorem first_pass_events (w : World) fp :
  _root_node (self w) = None -> file_path (self w) = Some fp ->
  let name := "_mocap_" ++ basename fp ++ "_grp" in
  let grp := maya_group name (scene w) in
  exists evs,
    trace (snd (readFile w))
    = (trace w
       ++ EvGroup name grp
          :: EvSetAttrF (grp ++ ".scale")
               [scale (self w); scale (self w); scale (self w)] None
          :: evs)%list /\
    forallb line_event evs = true.
Proof. exact (first_pass_trace w fp). Qed.

(** ** Construction *)

Lemma init_run path sc (w : World) :
  let fresh := set_file_path (cleanPath path) (mkSession None sc [] None None None) in
  init path sc w =
  if os_path_exists (cleanPath path) then
    match open_readlines (cleanPath path) with
    | None => (Raise OSError, mkWorld fresh (scene w) (trace w))
    | Some lines =>
        let s := set_data (Some lines) fresh in
        match lines with
        | [] => (Raise IndexError, mkWorld s (scene w) (trace w))
        | first :: _ =>
            if startswith first "HIERARCHY"
            then readFile (mkWorld (set_scale sc s) (scene w) (trace w))
            else (Raise (Exception "No valid bvh file was loaded"),
                  mkWorld (set_data None s) (scene w) (trace w))
        end
    end
  else (Raise (Exception "File does not exist on disk"),
        mkWorld (mkSession None sc [] None None None) (scene w) (trace w)).
Proof.
  unfold init, getData, bind, update_self, get_self, set_self, raise.
  destruct (os_path_exists (cleanPath path)); [| reflexivity].
  destruct (open_readlines (cleanPath path)) as [[| first rest] |];
    try reflexivity.
  cbn [self]. destruct (startswith first "HIERARCHY"); reflexivity.
Qed.

(** X7. When construction succeeds, the path exists once cleaned, the file
    was read and its first line starts with [HIERARCHY]; the object holds the
    lines of the file, the scale and the cleaned path; the root on record, if
    any, belongs to the lines; and the first two calls made were the creation
    of the group [_mocap_<basename>_grp] and the setting of its scale, all
    later calls being those of the lines. *)
Theorem construction_success path sc (w : World) loc w' :
  init path sc w = (Ok loc, w') ->
  let name := "_mocap_" ++ basename (cleanPath path) ++ "_grp" in
  let grp := maya_group name (scene w) in
  exists first rest evs,
    os_path_exists (cleanPath path) = true /\
    open_readlines (cleanPath path) = Some (first :: rest) /\
    startswith first "HIERARCHY" = true /\
    data (self w') = Some (first :: rest) /\
    scale (self w') = sc /\
    file_path (self w') = Some (cleanPath path) /\
    rooted (first :: rest) (self w') /\
    trace w'
    = (trace w
       ++ EvGroup name grp :: EvSetAttrF (grp ++ ".scale") [sc; sc; sc] None
          :: evs)%list /\
    forallb line_event evs = true.
Proof.
  intros Hrun name grp. rewrite init_run in Hrun. cbv zeta in Hrun.
  destruct (os_path_exists (cleanPath path)); [| discriminate Hrun].
  destruct (open_readlines (cleanPath path)) as [[| first rest] |];
    try discriminate Hrun.
  destruct (startswith first "HIERARCHY") eqn:Hh; [| discriminate Hrun].
  match type of Hrun with readFile ?x = _ => set (w0 := x) in * end.
  pose proof (readFile_kept w0) as (Hd & Hs & Hf & _).
  pose proof (readFile_rooted w0 (first :: rest) eq_refl eq_refl) as Hroot.
  destruct (first_pass_trace w0 (cleanPath path) eq_refl eq_refl)
    as (evs & Ht & Hev).
  rewrite Hrun in *. cbn [snd] in *.
  exists first, rest, evs.
  split; [reflexivity |]. split; [reflexivity |]. split; [exact Hh |].
  split; [exact Hd |]. split; [exact Hs |]. split; [exact Hf |].
  split; [exact Hroot |]. split; [exact Ht | exact Hev].
Qed.

(** X8. Construction on a file that exists and cannot be read raises
    [OSError]; on a file without any line it raises [IndexError], the object
    holding the empty list of lines.  In both cases no [maya.cmds] call has
    been made and the scene is as it was. *)
Theorem construction_unreadable_or_empty :
  (forall path sc (w : World),
     os_path_exists (cleanPath path) = true ->
     open_readlines (cleanPath path) = None ->
     exists w',
       init path sc w = (Raise OSError, w') /\
       trace w' = trace w /\ scene w' = scene w /\ data (self w') = None) /\
  (forall path sc (w : World),
     os_path_exists (cleanPath path) = true ->
     open_readlines (cleanPath path) = Some [] ->
     exists w',
       init path sc w = (Raise IndexError, w') /\
       trace w' = trace w /\ scene w' = scene w /\
       data (self w') = Some []).
Proof.
  split; intros path sc w He Ho; rewrite init_run; cbv zeta;
    rewrite He, Ho; eexists; split; try reflexivity; auto.
Qed.


(** ** Sequences of lines *)

Lemma bind_ext {A B} (c c' : M A) (k : A -> M B) w :
  c w = c' w -> bind c k w = bind c' k w.
Proof. unfold bind. intros ->. reflexivity. Qed.

Lemma bind_bind_run {A B C} (c : M A) (k1 : A -> M B) (k2 : B -> M C) w a w1 :
  c w = (Ok a, w1) -> bind (bind c k1) k2 w = bind (k1 a) k2 w1.
Proof. unfold bind. intros ->. reflexivity. Qed.

Lemma for_each_app {A} (l1 l2 : list A) (body : A -> M unit) w :
  for_each (l1 ++ l2) body w
  = bind (for_each l1 body) (fun _ => for_each l2 body) w.
Proof.
  revert w. induction l1 as [| x l1 IH]; intros w; [reflexivity |].
  cbn [for_each app]. unfold bind.
  destruct (body x w) as [[[] | e] w1]; [rewrite IH |]; reflexivity.
Qed.

Lemma read_lines_app l1 l2 : forall loc (w : World),
  read_lines (l1 ++ l2) loc w
  = bind (read_lines l1 loc) (fun loc' => read_lines l2 loc') w.
Proof.
  induction l1 as [| x l1 IH]; intros loc w; [reflexivity |].
  cbn [read_lines app]. unfold bind.
  destruct (read_line x loc w) as [[loc1 | e] w1]; [rewrite IH |]; reflexivity.
Qed.

Lemma skip_before_root pre : forall loc (w : World),
  motion loc = false -> forallb before_root pre = true ->
  read_lines pre loc w = (Ok loc, w).
Proof.
  induction pre as [| l pre IH]; intros loc w Hm Hpre; [reflexivity |].
  cbn [forallb] in Hpre. apply andb_true_iff in Hpre.
  destruct Hpre as (Hl & Hpre). unfold before_root in Hl.
  apply andb_true_iff in Hl. destruct Hl as (Hk & Hr).
  apply negb_true_iff in Hr. cbn [read_lines].
  assert (H1 : read_line l loc w = (Ok loc, w)).
  { rewrite (root_line_run l loc w Hm Hk), step_root_run, Hr. reflexivity. }
  rewrite (bind_run _ _ _ _ _ H1). apply IH; assumption.
Qed.

Lemma kept_read_lines lines loc (w : World) :
  kept (self w) (self (snd (read_lines lines loc w))).
Proof.
  apply (respects_read_lines (fun a b => kept (self a) (self b))
           (fun _ => true) (fun _ => True)).
  - intros w1. apply kept_refl.
  - intros w1 w2 w3. apply kept_trans.
  - intros ev w1 _. apply kept_refl.
  - intros p attr w1 _. unfold kept. cbn. auto 6.
  - auto.
  - intros l p w1 _ _ Hr. unfold kept. cbn. repeat split; congruence.
  - intros attr time v w1 _. apply kept_refl.
  - apply Forall_forall. auto.
Qed.

Lemma kept_root_line l loc rest (w : World) loc1 w1 :
  step_root l loc w = (Ok loc1, w1) ->
  kept (self w1)
    (self (snd (bind (hierarchy_line l loc)
                  (fun loc' => read_lines rest loc') w))).
Proof.
  intros Hs. unfold hierarchy_line. rewrite (bind_bind_run _ _ _ _ _ _ Hs).
  apply (respects_bind (fun a b => kept (self a) (self b))).
  - intros a b c. apply kept_trans.
  - apply (respects_after_root (fun a b => kept (self a) (self b))
             (fun _ => true)).
    + intros a. apply kept_refl.
    + intros a b c. apply kept_trans.
    + intros ev a _. apply kept_refl.
    + intros p attr a _. unfold kept. cbn. auto 6.
    + auto.
  - intros loc2 w2. apply kept_read_lines.
Qed.

Lemma split_head_path (grp name : string) :
  contains "|" grp = false -> split_head "|" (grp ++ "|" ++ name) = grp.
Proof.
  induction grp as [| c grp IH]; [reflexivity |].
  rewrite contains_char. intros H. apply orb_false_iff in H.
  destruct H as (Hc & H).
  change (split_head "|" (String c (grp ++ "|" ++ name)) = String c grp).
  cbn [split_head]. rewrite Ascii.eqb_sym, Hc, (IH H). reflexivity.
Qed.

(** X9. On a first pass over lines in which nothing but lines without
    keyword comes before the first line that starts with [ROOT], the root is
    recorded under the new group, whatever follows and whether the pass
    returns or raises: the property [root_node] is then [<group>|<name>],
    with the name that follows [ROOT ] on the line, and, the name of the group
    holding no [|], the component that a later pass scales is the group. *)
Theorem first_pass_records_root (w : World) fp pre root_line rest :
  _root_node (self w) = None -> file_path (self w) = Some fp ->
  data (self w) = Some (pre ++ root_line :: rest)%list ->
  forallb before_root pre = true ->
  startswith (norm root_line) "ROOT" = true ->
  let grp := maya_group ("_mocap_" ++ basename fp ++ "_grp") (scene w) in
  let name := rstrip (slice_from 5 (norm root_line)) in
  let s' := self (snd (readFile w)) in
  _root_node s' = Some (Dag (ObjStr name) (Some (Dag (ObjStr grp) None))) /\
  root_node s' = grp ++ "|" ++ name /\
  (contains "|" grp = false -> split_head "|" (root_node s') = grp).
Proof.
  intros Hr Hf Hd Hpre Hroot grp name s'.
  assert (Hk : kept
                 (set_root (Dag (ObjStr name) (Some (Dag (ObjStr grp) None)))
                    (set_channels [] (self w))) s').
  { subst s'. unfold readFile.
    pose proof (enter_first w fp Hr Hf) as He. cbv zeta in He.
    rewrite (bind_run _ _ _ _ _ He).
    unfold bind at 1, get_self. unfold with_event at 1 2.
    cbn [self set_channels data]. rewrite Hd, read_lines_app.
    erewrite bind_run by (apply skip_before_root; [reflexivity | exact Hpre]).
    cbn [read_lines].
    erewrite bind_ext by (apply read_hierarchy_line; reflexivity).
    match goal with
    | |- context [bind (hierarchy_line ?l ?loc) ?k ?w1] =>
        pose proof (step_root_run l loc w1) as Hstep;
        rewrite Hroot in Hstep; unfold with_event in Hstep;
        cbn [self _root_node set_channels] in Hstep; rewrite Hr in Hstep;
        exact (kept_root_line l loc rest w1 _ _ Hstep)
    end. }
  destruct Hk as (_ & _ & _ & Hk). destruct (Hk _ eq_refl) as (Ha & Hb).
  split; [exact Ha |].
  unfold root_node. rewrite Hb. split; [reflexivity |].
  apply split_head_path.
Qed.

(** ** The motion section in every outcome *)

Lemma set_keys_any time toks : forall i (w : World),
  let out := for_each (enumerate_from i toks) (set_key time) w in
  self (snd out) = self w /\
  exists evs,
    trace (snd out) = (trace w ++ evs)%list /\
    Forall (key_within (_channels (self w)) time (Some (time + 1))) evs.
Proof.
  induction toks as [| tok toks IH]; intros i w; cbn [enumerate_from for_each].
  - split; [reflexivity |]. exists []. rewrite app_nil_r. auto.
  - unfold bind. rewrite set_key_run.
    destruct (nth_error (_channels (self w)) i) as [attr |] eqn:Hn.
    + destruct (py_float tok) as [v |].
      * match goal with
        | |- context [for_each _ _ ?w1] =>
            destruct (IH (S i) w1) as (Hs & evs & Ht & Hev)
        end.
        cbn [self trace] in *. split; [exact Hs |].
        exists (EvSetKeyframe attr time v :: evs). split.
        -- rewrite Ht, <- app_assoc. reflexivity.
        -- constructor; [| exact Hev]. cbn.
           split; [eapply nth_error_In; exact Hn | lia].
      * split; [reflexivity |]. exists []. rewrite app_nil_r. auto.
    + split; [reflexivity |]. exists []. rewrite app_nil_r. auto.
Qed.

Lemma motion_line_any line loc (w : World) :
  motion loc = true ->
  let out := read_line line loc w in
  self (snd out) = self w /\
  (forall loc', fst out = Ok loc' ->
     loc' = loc /\ snd out = w \/ loc' = set_frame (frame loc + 1) loc) /\
  exists evs,
    trace (snd out) = (trace w ++ evs)%list /\
    Forall (key_within (_channels (self w)) (frame loc) (Some (frame loc + 1)))
      evs.
Proof.
  intros Hm. cbv zeta. unfold read_line. rewrite Hm. unfold motion_line.
  destruct (contains "Frame" (replace_char "009" " " line)).
  - cbn. split; [reflexivity |].
    split; [intros loc' E; inversion E; left; auto |].
    exists []. rewrite app_nil_r. auto.
  - unfold bind.
    match goal with
    | |- context [for_each ?l ?b w] =>
        pose proof (set_keys_any (frame loc)
                      (tokens (replace_char "009" " " line)) 0 w) as H;
        cbv zeta in H; destruct (for_each l b w) as [[[] | e] w1]
    end; cbn [fst snd ret] in *.
    + destruct H as (Hs & Hev). split; [exact Hs |]. split; [| exact Hev].
      intros loc' E. inversion E. auto.
    + destruct H as (Hs & Hev). split; [exact Hs |]. split; [| exact Hev].
      intros loc' E. discriminate E.
Qed.

Lemma key_within_weaken channels lo lo' hi hi' (ev : MayaEvent F) :
  lo' <= lo ->
  match hi', hi with
  | Some h', Some h => h <= h'
  | None, _ => True
  | Some _, None => False
  end ->
  key_within channels lo hi ev -> key_within channels lo' hi' ev.
Proof.
  intros Hlo Hhi. destruct ev; cbn; try tauto.
  intros (Hin & Ht & Hh). split; [exact Hin |]. split; [lia |].
  destruct hi' as [h' |]; [| exact I].
  destruct hi as [h |]; [lia | contradiction].
Qed.

(** X10. Once the [MOTION] line is read the pass only sets keys.  Whatever
    the remaining lines hold (keywords of the hierarchy included), and
    whether the pass returns or raises, the object is left as it is and
    every call made is a [setKeyframe] on an attribute of the channel table,
    at a time that is not before the frame counter; when the pass returns,
    the pass is still in the motion section, the current node, [jnt] and the
    [End Site] flag are as they were, and every key was set at a time before
    the final frame counter. *)
Theorem motion_section_sets_keys_only lines : forall loc (w : World),
  motion loc = true ->
  let out := read_lines lines loc w in
  self (snd out) = self w /\
  (forall loc', fst out = Ok loc' ->
     motion loc' = true /\ safe_close loc' = safe_close loc /\
     my_parent loc' = my_parent loc /\ jnt loc' = jnt loc /\
     frame loc <= frame loc') /\
  exists evs,
    trace (snd out) = (trace w ++ evs)%list /\
    Forall (key_within (_channels (self w)) (frame loc) (frame_of out)) evs.
Proof.
  induction lines as [| line lines IH]; intros loc w Hm; cbv zeta.
  - cbn. split; [reflexivity |]. split.
    + intros loc' E. inversion E. subst loc'. repeat split; auto. lia.
    + exists []. rewrite app_nil_r. auto.
  - cbn [read_lines]. unfold bind.
    pose proof (motion_line_any line loc w Hm) as H1. cbv zeta in H1.
    destruct (read_line line loc w) as [[loc1 | e] w1]; cbn [fst snd] in *.
    + destruct H1 as (Hs1 & Hloc & evs1 & Ht1 & Hev1).
      assert (Hm1 : motion loc1 = true /\ safe_close loc1 = safe_close loc /\
                    my_parent loc1 = my_parent loc /\ jnt loc1 = jnt loc /\
                    frame loc <= frame loc1 <= frame loc + 1 /\
                    (evs1 = [] \/ frame loc1 = frame loc + 1)).
      { destruct (Hloc loc1 eq_refl) as [(-> & ->) | ->].
        - repeat split; auto; try lia. left.
          apply (app_inv_head (trace w)). rewrite app_nil_r. auto.
        - cbn. repeat split; auto; try lia. }
      destruct Hm1 as (Hm1 & Hsc & Hp & Hj & Hfr & Hkeys).
      specialize (IH loc1 w1 Hm1). cbv zeta in IH.
      destruct IH as (Hs2 & Hloc2 & evs2 & Ht2 & Hev2).
      split; [congruence |]. split.
      * intros loc' E. destruct (Hloc2 loc' E) as (? & ? & ? & ? & ?).
        repeat split; try congruence. lia.
      * exists (evs1 ++ evs2)%list. split.
        -- rewrite Ht2, Ht1, app_assoc. reflexivity.
        -- apply Forall_app. rewrite Hs1 in Hev2. split.
           ++ destruct Hkeys as [-> | Hf1]; [constructor |].
              eapply Forall_impl; [| exact Hev1].
              intros ev. apply key_within_weaken; [lia |].
              unfold frame_of.
              destruct (fst (read_lines lines loc1 w1)) as [loc' |] eqn:E;
                [| exact I].
              destruct (Hloc2 loc' eq_refl) as (_ & _ & _ & _ & Hle). lia.
           ++ eapply Forall_impl; [| exact Hev2].
              intros ev. apply key_within_weaken; [lia |].
              destruct (frame_of (read_lines lines loc1 w1)); [lia | exact I].
    + destruct H1 as (Hs1 & _ & evs1 & Ht1 & Hev1).
      split; [exact Hs1 |]. split; [intros loc' E; discriminate E |].
      exists evs1. split; [exact Ht1 |].
      eapply Forall_impl; [| exact Hev1].
      intros ev. apply key_within_weaken; [lia | exact I].
Qed.

(** ** Lines that make the motion section fail *)

Lemma all_space_norm (s : string) : all_space s = true -> all_space (norm s) = true.
Proof.
  unfold norm. induction s as [| c s IH]; [reflexivity |].
  cbn [all_space replace_char]. intros H. apply andb_true_iff in H.
  destruct H as (Hc & Hs). rewrite (IH Hs), andb_true_r.
  destruct (Ascii.eqb c "009"); [reflexivity | exact Hc].
Qed.

Lemma all_space_no_frame (s : string) :
  all_space s = true -> contains "Frame" s = false.
Proof.
  induction s as [| c s IH]; [reflexivity |].
  cbn [all_space]. intros H. apply andb_true_iff in H.
  destruct H as (Hc & Hs). cbn [contains starts]. rewrite (IH Hs), orb_false_r.
  destruct (Ascii.eqb_spec "F" c) as [<- | _]; [discriminate Hc | reflexivity].
Qed.

Lemma all_space_tokens (s : string) : all_space s = true -> tokens s = [""].
Proof.
  intros H. unfold tokens, strip.
  assert (E : lstrip s = "").
  { induction s as [| c s IH]; [reflexivity |].
    cbn [all_space] in H. apply andb_true_iff in H. destruct H as (Hc & Hs).
    cbn [lstrip]. rewrite Hc. apply IH, Hs. }
  rewrite E. reflexivity.
Qed.

(** X11. A line of white space in the motion section is read as one empty
    token.  With an empty channel table it raises [IndexError]; otherwise
    the empty token goes to [float], whose [ValueError] ends the pass;
    nothing is called and the object is as it was.  (Only where [float]
    accepts the empty token is a key set, on the first channel.) *)
Theorem blank_motion_line line loc (w : World) :
  motion loc = true -> all_space line = true ->
  read_line line loc w =
  match _channels (self w) with
  | [] => (Raise IndexError, w)
  | attr :: _ =>
      match py_float "" with
      | None => (Raise ValueError, w)
      | Some v => (Ok (set_frame (frame loc + 1) loc),
                   with_event (EvSetKeyframe attr (frame loc) v) w)
      end
  end.
Proof.
  intros Hm Hs. apply all_space_norm in Hs.
  rewrite data_line_run;
    [| exact Hm
     | unfold is_data_line; rewrite (all_space_no_frame _ Hs); reflexivity].
  rewrite (all_space_tokens _ Hs). cbn [enumerate_from for_each].
  unfold bind. rewrite set_key_run.
  destruct (_channels (self w)) as [| attr channels]; [reflexivity |].
  cbn [nth_error]. destruct (py_float ""); reflexivity.
Qed.

Lemma set_keys_stop time bad post : forall pre vs i (w : World),
  floats py_float pre = Some vs -> py_float bad = None ->
  exists w',
    for_each (enumerate_from i (pre ++ bad :: post)) (set_key time) w
    = (Raise (if (i + List.length pre <? List.length (_channels (self w)))%nat
              then ValueError else IndexError), w') /\
    self w' = self w /\
    trace w' = (trace w ++ map (key_event time)
                             (combine (skipn i (_channels (self w))) vs))%list.
Proof.
  induction pre as [| t pre IH]; intros vs i w Hvs Hbad;
    cbn [app enumerate_from for_each List.length]; unfold bind;
    rewrite set_key_run.
  - inversion Hvs. subst vs. rewrite combine_nil, app_nil_r, Nat.add_0_r.
    exists w. split; [| auto].
    destruct (nth_error (_channels (self w)) i) eqn:Hn.
    + rewrite Hbad.
      assert (H : nth_error (_channels (self w)) i <> None) by congruence.
      apply nth_error_Some in H. apply Nat.ltb_lt in H. rewrite H. reflexivity.
    + apply nth_error_None in Hn. apply Nat.ltb_ge in Hn. rewrite Hn.
      reflexivity.
  - cbn [floats] in Hvs. destruct (py_float t) as [v |]; [| discriminate Hvs].
    destruct (floats py_float pre) as [vs' |] eqn:E; [| discriminate Hvs].
    cbn in Hvs. inversion Hvs. subst vs.
    destruct (nth_error (_channels (self w)) i) as [attr |] eqn:Hn.
    + match goal with
      | |- context [for_each _ _ ?w1] =>
          destruct (IH vs' (S i) w1 eq_refl Hbad) as (w' & Hrun & Hs & Ht)
      end.
      cbn [self trace] in *. exists w'. split; [| split; [exact Hs |]].
      * rewrite Hrun. replace (i + S (List.length pre))%nat
          with (S i + List.length pre)%nat by lia. reflexivity.
      * rewrite Ht, (skipn_nth_error _ _ _ Hn), <- app_assoc. reflexivity.
    + exists w. split; [| split; [reflexivity |]].
      * apply nth_error_None in Hn.
        assert (H : (List.length (_channels (self w))
                     <= i + S (List.length pre))%nat) by lia.
        apply Nat.ltb_ge in H. rewrite H. reflexivity.
      * apply nth_error_None in Hn. rewrite (skipn_all2 _ Hn).
        cbn. rewrite app_nil_r. reflexivity.
Qed.

(** X12. A data line whose tokens are numbers up to one that [float]
    rejects sets the keys of the tokens before it and then raises: the
    channel is looked up before the number is converted, so that the
    exception is [ValueError] when the token stands at a position inside the
    channel table and [IndexError] when it stands beyond it.  The keys set
    before stay set. *)
Theorem data_line_bad_number line loc (w : World) pre bad post vs :
  motion loc = true -> is_data_line line = true ->
  tokens (norm line) = (pre ++ bad :: post)%list ->
  floats py_float pre = Some vs -> py_float bad = None ->
  exists w',
    read_line line loc w
    = (Raise (if (List.length pre <? List.length (_channels (self w)))%nat
              then ValueError else IndexError), w') /\
    self w' = self w /\
    trace w' = (trace w ++ map (key_event (frame loc))
                             (combine (_channels (self w)) vs))%list.
Proof.
  intros Hm Hd Htok Hvs Hbad. rewrite (data_line_run line loc w Hm Hd), Htok.
  destruct (set_keys_stop (frame loc) bad post pre vs 0 w Hvs Hbad)
    as (w' & Hrun & Hs & Ht).
  exists w'. split; [| split; [exact Hs | exact Ht]].
  rewrite (bind_raise _ _ _ _ _ Hrun). reflexivity.
Qed.

(** ** A [CHANNELS] line that names too few channels *)

Lemma skipn_cons {A} (l : list A) : forall n a t,
  skipn n l = a :: t -> nth_error l n = Some a /\ skipn (S n) l = t.
Proof.
  induction l as [| x l IH]; intros [| n] a t H; try discriminate H.
  - inversion H. auto.
  - apply (IH n a t). exact H.
Qed.

Lemma append_channels_named chan loc p :
  my_parent loc = Some p ->
  forall k block i (w : World),
    Forall2 (fun name entry => binding (full_path p) name = Some entry)
      (firstn k (skipn (2 + i) chan)) block ->
    List.length block = k ->
    for_each (seq i k) (append_channel chan loc) w
    = (Ok tt, mkWorld (set_channels (_channels (self w) ++ block) (self w))
                (scene w) (trace w)).
Proof.
  intros Hp. induction k as [| k IH]; intros block i w Hall Hlen.
  - destruct block; [| discriminate Hlen]. cbn [seq for_each].
    rewrite set_channels_same. destruct w. reflexivity.
  - destruct block as [| b block]; [discriminate Hlen |].
    destruct (skipn (2 + i) chan) as [| name tl] eqn:Hskip;
      [inversion Hall |].
    cbn [firstn] in Hall. inversion Hall as [| ? ? ? ? Hb Hrest]. subst.
    apply skipn_cons in Hskip. destruct Hskip as (Hn & Htl).
    cbn [seq for_each]. unfold bind. rewrite append_channel_run, Hp, Hn, Hb.
    rewrite (IH block (S i)).
    + cbn [self scene trace set_channels _channels]. rewrite <- app_assoc.
      reflexivity.
    + replace (2 + S i)%nat with (S (2 + i)) by lia. rewrite Htl. exact Hrest.
    + cbn in Hlen. lia.
Qed.

(** X13. A [CHANNELS] line that declares more channels than it names
    well, the first [k] names being known to the fixed table and the next
    one missing ([IndexError]) or unknown ([KeyError]), raises after the
    entries of the first [k] names were appended to the channel table: the
    entries stay in the table, and no rotation order is set. *)
Theorem channels_line_stops_at_bad_name
  line loc (w : World) p code count n k block :
  contains "CHANNELS" line = true ->
  index (axis_string (tokens line)) rotation_orders = Some code ->
  nth_error (tokens line) 1 = Some count -> int count = Some n ->
  my_parent loc = Some p ->
  (k < Z.to_nat n)%nat -> List.length block = k ->
  Forall2 (fun name entry => binding (full_path p) name = Some entry)
    (firstn k (skipn 2 (tokens line))) block ->
  match nth_error (tokens line) (2 + k) with
  | Some name => translationDict name = None
  | None => True
  end ->
  step_channels line loc w
  = (Raise match nth_error (tokens line) (2 + k) with
           | Some _ => KeyError
           | None => IndexError
           end,
     mkWorld (set_channels (_channels (self w) ++ block) (self w))
       (scene w) (trace w)).
Proof.
  intros Hc Hidx Hcount Hint Hp Hk Hlen Hnamed Hbad.
  unfold step_channels. rewrite Hc. cbv zeta. rewrite Hidx, Hcount, Hint.
  replace (Z.to_nat n) with (k + S (Z.to_nat n - S k))%nat by lia.
  rewrite seq_app. cbn [seq Nat.add].
  apply bind_raise. rewrite for_each_app.
  rewrite (bind_run _ _ _ _ _
             (append_channels_named (tokens line) loc p Hp k block 0 w
                Hnamed Hlen)).
  cbn [for_each]. apply bind_raise. rewrite append_channel_run, Hp.
  change (2 + k)%nat with (S (S k)) in *.
  destruct (nth_error (tokens line) (S (S k))) as [name |]; [| reflexivity].
  unfold binding. rewrite Hbad. reflexivity.
Qed.


(** ** What does not depend on the scene *)

Lemma agree_ret {A} (RA : A -> A -> Prop) a1 a2 :
  RA a1 a2 -> agree RA (ret a1 : M A) (ret a2).
Proof.
  intros H w1 w2 Hs. split; [exact H |]. split; [exact Hs |].
  exists []. rewrite !app_nil_r. auto.
Qed.

Lemma agree_raise {A} (RA : A -> A -> Prop) e :
  agree RA (raise e : M A) (raise e).
Proof.
  intros w1 w2 Hs. split; [reflexivity |]. split; [exact Hs |].
  exists []. rewrite !app_nil_r. auto.
Qed.

Lemma agree_bind {A B} (RA : A -> A -> Prop) (RB : B -> B -> Prop)
  (c1 c2 : M A) (k1 k2 : A -> M B) :
  agree RA c1 c2 -> (forall a1 a2, RA a1 a2 -> agree RB (k1 a1) (k2 a2)) ->
  agree RB (bind c1 k1) (bind c2 k2).
Proof.
  intros Hc Hk w1 w2 Hs. unfold bind. specialize (Hc w1 w2 Hs).
  destruct (c1 w1) as [[a1 | e1] w1'], (c2 w2) as [[a2 | e2] w2'];
    destruct Hc as (Hr & Hs' & keys & K1 & K2); cbn [fst snd] in *;
    try contradiction.
  - destruct (Hk a1 a2 Hr w1' w2' Hs') as (Hr2 & Hs2 & keys2 & K3 & K4).
    split; [exact Hr2 |]. split; [exact Hs2 |]. exists (keys ++ keys2)%list.
    rewrite K3, K4, K1, K2, !app_assoc. auto.
  - split; [exact Hr |]. split; [exact Hs' |]. exists keys. auto.
Qed.

Lemma agree_with_self {B} (RB : B -> B -> Prop) (k1 k2 : Session F -> M B) :
  (forall s, agree RB (k1 s) (k2 s)) ->
  agree RB (bind get_self k1) (bind get_self k2).
Proof.
  intros H w1 w2 Hs. unfold bind, get_self.
  pose proof (H (self w2) w1 w2 Hs) as H2. rewrite <- Hs in H2 at 1.
  exact H2.
Qed.

Lemma agree_set_self s :
  agree (fun _ _ : unit => True) (set_self s : M unit) (set_self s).
Proof.
  intros w1 w2 Hs. split; [exact I |]. split; [reflexivity |].
  exists []. rewrite !app_nil_r. auto.
Qed.

Lemma agree_update f :
  agree (fun _ _ : unit => True) (update_self f : M unit) (update_self f).
Proof.
  intros w1 w2 Hs. split; [exact I |]. split; [cbn; rewrite Hs; reflexivity |].
  exists []. rewrite !app_nil_r. auto.
Qed.

Lemma agree_key attr time v :
  agree (fun _ _ : unit => True)
    (emit (EvSetKeyframe attr time v)) (emit (EvSetKeyframe attr time v)).
Proof.
  intros w1 w2 Hs. split; [exact I |]. split; [exact Hs |].
  exists [(attr, time, v)]. cbn. rewrite !keyframes_app. auto.
Qed.

Lemma agree_for_each {A} (l : list A) (body1 body2 : A -> M unit) :
  (forall x, agree (fun _ _ => True) (body1 x) (body2 x)) ->
  agree (fun _ _ => True) (for_each l body1) (for_each l body2).
Proof.
  intros H. induction l as [| x l IH]; cbn [for_each].
  - apply agree_ret. exact I.
  - eapply agree_bind; [apply H | intros _ _ _; exact IH].
Qed.

Lemma quiet_ret {A} (a : A) : quiet (ret a : M A).
Proof. intros w. exists a, w. auto. Qed.

Lemma quiet_call {A} (answer : Scene -> A) ev :
  (forall a, keyframe_of (ev a) = None) -> quiet (call answer ev).
Proof.
  intros Hev w. eexists. eexists. split; [reflexivity |].
  split; [reflexivity |]. cbn. rewrite keyframes_app. cbn.
  rewrite Hev, app_nil_r. reflexivity.
Qed.

Lemma agree_quiet {A} (c1 c2 : M A) :
  quiet c1 -> quiet c2 -> agree (fun _ _ => True) c1 c2.
Proof.
  intros H1 H2 w1 w2 Hs.
  destruct (H1 w1) as (a1 & w1' & -> & Hs1 & K1).
  destruct (H2 w2) as (a2 & w2' & -> & Hs2 & K2).
  split; [exact I |]. split; [cbn; congruence |].
  exists []. cbn. rewrite !app_nil_r. auto.
Qed.

Ltac locals :=
  unfold same_locals, set_my_parent, set_jnt, set_safe_close, set_motion,
    set_frame in *;
  cbn in *; intuition (try congruence; try discriminate).

Lemma agree_step_root l loc1 loc2 :
  same_locals loc1 loc2 ->
  agree same_locals (step_root l loc1 : M Locals) (step_root l loc2).
Proof.
  intros H. unfold step_root.
  destruct (startswith l "ROOT"); [| apply agree_ret, H].
  apply agree_with_self. intros s. destruct (_root_node s).
  - apply agree_ret. locals.
  - assert (Hp : my_parent loc1 = my_parent loc2) by apply H. rewrite Hp.
    eapply agree_bind; [apply agree_set_self | intros _ _ _].
    apply agree_ret. locals.
Qed.

Lemma agree_step_joint l loc1 loc2 :
  same_locals loc1 loc2 ->
  agree same_locals (step_joint l loc1 : M Locals) (step_joint l loc2).
Proof.
  intros H. unfold step_joint.
  destruct (contains "JOINT" l); [| apply agree_ret, H].
  destruct (nth_error (tokens l) 1); [| apply agree_raise].
  assert (Hp : my_parent loc1 = my_parent loc2) by apply H. rewrite Hp.
  apply agree_ret. locals.
Qed.

Lemma agree_step_brace l loc1 loc2 :
  same_locals loc1 loc2 ->
  agree (fun r1 r2 => fst r1 = fst r2 /\ same_locals (snd r1) (snd r2))
    (step_brace l loc1) (step_brace l loc2).
Proof.
  intros H. unfold step_brace.
  destruct (contains "}" l); [| apply agree_ret; auto].
  assert (Hsc : safe_close loc1 = safe_close loc2) by apply H.
  assert (Hp : my_parent loc1 = my_parent loc2) by apply H.
  rewrite Hsc, Hp. destruct (safe_close loc2).
  - apply agree_ret. split; [reflexivity |]. locals.
  - destruct (my_parent loc2) as [p |]; [| apply agree_ret; auto].
    destruct (parent p) as [q |].
    + eapply agree_bind.
      * apply agree_quiet; apply quiet_call; reflexivity.
      * intros _ _ _. apply agree_ret. split; [reflexivity |]. locals.
    + apply agree_ret. split; [reflexivity |]. locals.
Qed.

Lemma agree_step_channels l loc1 loc2 :
  same_locals loc1 loc2 ->
  agree same_locals (step_channels l loc1) (step_channels l loc2).
Proof.
  intros H. unfold step_channels.
  destruct (contains "CHANNELS" l); [| apply agree_ret, H]. cbv zeta.
  destruct (index (axis_string (tokens l)) rotation_orders);
    [| apply agree_raise].
  destruct (nth_error (tokens l) 1) as [count |]; [| apply agree_raise].
  destruct (int count); [| apply agree_raise].
  eapply agree_bind.
  - apply agree_for_each. intros i. unfold append_channel.
    assert (Hp : my_parent loc1 = my_parent loc2) by apply H. rewrite Hp.
    destruct (my_parent loc2); [| apply agree_raise].
    destruct (nth_error (tokens l) (2 + i)) as [name |]; [| apply agree_raise].
    destruct (translationDict name); [| apply agree_raise].
    apply agree_update.
  - intros _ _ _.
    assert (Hj : jnt loc1 = None <-> jnt loc2 = None) by apply H.
    destruct (jnt loc1) as [j1 |], (jnt loc2) as [j2 |].
    + eapply agree_bind.
      * apply agree_quiet; apply quiet_call; reflexivity.
      * intros _ _ _. apply agree_ret, H.
    + destruct Hj as (_ & Hj). discriminate (Hj eq_refl).
    + destruct Hj as (Hj & _). discriminate (Hj eq_refl).
    + apply agree_raise.
Qed.

Lemma agree_step_offset l loc1 loc2 :
  same_locals loc1 loc2 ->
  agree same_locals (step_offset l loc1) (step_offset l loc2).
Proof.
  intros H. unfold step_offset.
  destruct (contains "OFFSET" l); [| apply agree_ret, H]. cbv zeta.
  assert (Hp : my_parent loc1 = my_parent loc2) by apply H.
  assert (Hsc : safe_close loc1 = safe_close loc2) by apply H.
  rewrite Hp, Hsc. destruct (my_parent loc2) as [p |]; [| apply agree_raise].
  eapply agree_bind.
  - apply agree_quiet; apply quiet_call; reflexivity.
  - intros e1 e2 _. eapply agree_bind.
    + apply agree_quiet.
      * destruct e1; [apply quiet_ret | apply quiet_call; reflexivity].
      * destruct e2; [apply quiet_ret | apply quiet_call; reflexivity].
    + intros j1 j2 _.
      destruct (floats py_float (tl (tokens l))); [| apply agree_raise].
      eapply agree_bind.
      * apply agree_quiet; apply quiet_call; reflexivity.
      * intros _ _ _. apply agree_ret. locals.
Qed.

Lemma agree_hierarchy_line l loc1 loc2 :
  same_locals loc1 loc2 ->
  agree same_locals (hierarchy_line l loc1) (hierarchy_line l loc2).
Proof.
  intros H. unfold hierarchy_line.
  eapply agree_bind; [apply agree_step_root, H | intros a1 a2 Ha].
  eapply agree_bind; [apply agree_step_joint, Ha | intros b1 b2 Hb].
  eapply agree_bind.
  - apply agree_step_brace. unfold step_end_site.
    destruct (contains "End Site" l); [locals | exact Hb].
  - intros r1 r2 (Hf & Hr). rewrite Hf. destruct (fst r2).
    + apply agree_ret, Hr.
    + eapply agree_bind; [apply agree_step_channels, Hr | intros c1 c2 Hc].
      eapply agree_bind; [apply agree_step_offset, Hc | intros d1 d2 Hd].
      apply agree_ret. unfold step_motion.
      destruct (contains "MOTION" l); [locals | exact Hd].
Qed.

Lemma agree_motion_line l loc1 loc2 :
  same_locals loc1 loc2 ->
  agree same_locals (motion_line l loc1) (motion_line l loc2).
Proof.
  intros H. unfold motion_line.
  destruct (contains "Frame" l); [apply agree_ret, H |].
  assert (Hf : frame loc1 = frame loc2) by apply H. rewrite Hf.
  eapply agree_bind.
  - apply agree_for_each. intros iv. unfold set_key.
    apply agree_with_self. intros s.
    destruct (nth_error (_channels s) (fst iv)); [| apply agree_raise].
    destruct (py_float (snd iv)); [apply agree_key | apply agree_raise].
  - intros _ _ _. apply agree_ret. locals.
Qed.

Lemma agree_read_lines lines : forall loc1 loc2,
  same_locals loc1 loc2 ->
  agree same_locals (read_lines lines loc1) (read_lines lines loc2).
Proof.
  induction lines as [| line lines IH]; intros loc1 loc2 H; cbn [read_lines].
  - apply agree_ret, H.
  - eapply agree_bind; [| intros a1 a2 Ha; apply IH, Ha].
    unfold read_line.
    assert (Hm : motion loc1 = motion loc2) by apply H. rewrite Hm.
    destruct (motion loc2);
      [apply agree_motion_line, H | apply agree_hierarchy_line, H].
Qed.

Lemma same_locals_refl loc : same_locals loc loc.
Proof. unfold same_locals. tauto. Qed.

Lemma readFile_agree (w1 w2 : World) r lines :
  _root_node (self w1) = Some r -> data (self w1) = Some lines ->
  set_channels [] (self w1) = set_channels [] (self w2) ->
  same_outcome same_locals w1 w2 (readFile w1) (readFile w2).
Proof.
  intros Hr Hd He.
  assert (Hr2 : _root_node (self w2) = Some r).
  { rewrite <- Hr.
    change (_root_node (set_channels [] (self w2))
            = _root_node (set_channels [] (self w1))).
    rewrite He. reflexivity. }
  assert (Hd2 : data (self w2) = Some lines).
  { rewrite <- Hd.
    change (data (set_channels [] (self w2))
            = data (set_channels [] (self w1))).
    rewrite He. reflexivity. }
  destruct (readFile_again w1 r lines Hr Hd) as (c1 & _ & Hs1 & K1 & ->).
  destruct (readFile_again w2 r lines Hr2 Hd2) as (c2 & _ & Hs2 & K2 & ->).
  destruct (agree_read_lines lines _ _
              (same_locals_refl
                 (mkLocals false false 0 (Some (Dag (ObjDag r) None)) None))
              c1 c2) as (Ho & Hs & keys & Ka & Kb); [congruence |].
  split; [exact Ho |]. split; [exact Hs |]. exists keys.
  rewrite <- K1, <- K2. auto.
Qed.

(** X14. A pass of an object that has its root on record does not depend
    on the scene: started from any two worlds whose objects hold the same
    lines, scale, path and root (whatever their channel tables), [readFile]
    either returns in both, with the same frame counter, current node and
    flags, or raises the same exception in both; it leaves the same object,
    channel table included; and it sets the same keys, with the same
    attributes, times and values, in the same order. *)
Theorem reimport_ignores_the_scene (w1 w2 : World) r lines :
  _root_node (self w1) = Some r -> data (self w1) = Some lines ->
  set_channels [] (self w1) = set_channels [] (self w2) ->
  same_outcome same_locals w1 w2 (readFile w1) (readFile w2).
Proof. exact (readFile_agree w1 w2 r lines). Qed.

(** X15. From the second pass on, every pass does the same.  For an object
    with its root on record, the pass that follows a pass, whether that one
    returned or raised, has the outcome of that pass: both return, with the
    same frame counter, or both raise the same exception; the channel table
    and the rest of the object are the same after both; and the same keys
    are set again, in the same order. *)
Theorem later_passes_repeat (w : World) r lines :
  _root_node (self w) = Some r -> data (self w) = Some lines ->
  same_outcome same_locals w (snd (readFile w))
    (readFile w) (readFile (snd (readFile w))).
Proof.
  intros Hr Hd. apply (readFile_agree w (snd (readFile w)) r lines Hr Hd).
  destruct (readFile_kept w) as (Kd & Ks & Kf & Kr).
  destruct (Kr r Hr) as (Ka & Kb). revert Hr Kd Ks Kf Ka Kb. clear.
  generalize (self (snd (readFile w))) as s2. generalize (self w) as s1.
  intros [d s c rt rp fp] [d' s' c' rt' rp' fp']. cbn. intros. subst.
  reflexivity.
Qed.


(** ** Before the [MOTION] marker *)

Lemma hierarchy_line_mode l loc (w : World) loc' w' :
  contains "MOTION" l = false ->
  hierarchy_line l loc w = (Ok loc', w') ->
  motion loc' = motion loc /\ frame loc' = frame loc.
Proof.
  intros Hno Hrun. unfold hierarchy_line in Hrun.
  apply bind_ok in Hrun. destruct Hrun as (l1 & w1 & H1 & Hrun).
  apply bind_ok in Hrun. destruct Hrun as (l2 & w2 & H2 & Hrun).
  apply bind_ok in Hrun. destruct Hrun as (r & w3 & H3 & Hrun).
  apply step_root_steady in H1. destruct H1 as (F1 & M1 & _).
  apply step_joint_steady in H2. destruct H2 as (F2 & M2 & _).
  apply step_brace_steady in H3. destruct H3 as (F3 & M3 & _).
  destruct (step_end_site_steady l l2 w2) as (F4 & M4 & _).
  destruct (fst r).
  - unfold ret in Hrun. inversion Hrun. subst. split; congruence.
  - apply bind_ok in Hrun. destruct Hrun as (l4 & w4 & H4 & Hrun).
    apply bind_ok in Hrun. destruct Hrun as (l5 & w5 & H5 & Hrun).
    unfold ret in Hrun. inversion Hrun. subst.
    apply step_offset_steady in H5. destruct H5 as (F5 & M5 & _).
    assert (E4 : l4 = snd r).
    { destruct (contains "CHANNELS" l) eqn:Ec.
      - destruct (step_channels_ok l (snd r) w3 l4 w4 Ec H4)
          as (? & ? & ? & _ & _ & _ & E & _). exact E.
      - unfold step_channels in H4. rewrite Ec in H4. unfold ret in H4.
        inversion H4. reflexivity. }
    subst l4. unfold step_motion. rewrite Hno. split; congruence.
Qed.

Lemma hierarchy_line_keys l loc (w : World) :
  keyframes (trace (snd (hierarchy_line l loc w))) = keyframes (trace w).
Proof.
  apply (respects_hierarchy_line
           (fun a b => keyframes (trace b) = keyframes (trace a))
           hier_event (fun _ => True)).
  - reflexivity.
  - intros w1 w2 w3 H1 H2. congruence.
  - intros ev w1 Hev. cbn. rewrite keyframes_app.
    destruct ev; try discriminate Hev; cbn; apply app_nil_r.
  - reflexivity.
  - auto.
  - reflexivity.
  - exact I.
Qed.

(** X16. No key is set before the [MOTION] line.  While [readFile] reads
    lines that do not hold [MOTION], whatever else they hold and whether
    the pass returns or raises, it calls no [setKeyframe]; when it returns
    it is still in the hierarchy section and the frame counter has not
    moved.  A file without a [MOTION] line sets no key at all. *)
Theorem hierarchy_sets_no_key lines : forall loc (w : World),
  motion loc = false -> forallb no_marker lines = true ->
  let out := read_lines lines loc w in
  keyframes (trace (snd out)) = keyframes (trace w) /\
  forall loc', fst out = Ok loc' ->
    motion loc' = false /\ frame loc' = frame loc.
Proof.
  induction lines as [| line lines IH]; intros loc w Hm Hall; cbv zeta.
  - cbn. split; [reflexivity |]. intros loc' E. inversion E. subst. auto.
  - cbn [forallb] in Hall. apply andb_true_iff in Hall.
    destruct Hall as (Hl & Hall). unfold no_marker in Hl.
    apply negb_true_iff in Hl. cbn [read_lines]. unfold bind.
    rewrite (read_hierarchy_line line loc w Hm).
    pose proof (hierarchy_line_keys (norm line) loc w) as Hk.
    pose proof (hierarchy_line_mode (norm line) loc w) as Hmode.
    destruct (hierarchy_line (norm line) loc w) as [[loc1 | e] w1];
      cbn [fst snd] in *.
    + destruct (Hmode loc1 w1 Hl eq_refl) as (M1 & F1).
      destruct (IH loc1 w1 (eq_trans M1 Hm) Hall) as (K2 & H2).
      split; [congruence |]. intros loc' E.
      destruct (H2 loc' E) as (M2 & F2). split; congruence.
    + split; [exact Hk |]. intros loc' E. discriminate E.
Qed.

(** ** Tabs *)

Lemma norm_idem l : norm (norm l) = norm l.
Proof.
  unfold norm. induction l as [| c l IH]; [reflexivity |].
  cbn [replace_char]. rewrite IH.
  destruct (Ascii.eqb c "009") eqn:E; [reflexivity | rewrite E; reflexivity].
Qed.

(** X17. Tabs are read as spaces, wherever they stand: a file read after
    each tab was replaced by a space gives the same result, the same object
    and the same calls as the file itself. *)
Theorem tabs_read_as_spaces lines : forall loc (w : World),
  read_lines (map norm lines) loc w = read_lines lines loc w.
Proof.
  induction lines as [| line lines IH]; intros loc w; [reflexivity |].
  cbn [map read_lines]. unfold bind.
  assert (E : read_line (norm line) loc w = read_line line loc w).
  { unfold read_line.
    change (replace_char "009" " " (norm line)) with (norm (norm line)).
    rewrite norm_idem. reflexivity. }
  rewrite E. destruct (read_line line loc w) as [[loc1 | e] w1];
    [apply IH | reflexivity].
Qed.


(** ** What is animated *)

Lemma readFile_cleared (w : World) :
  readFile w
  = readFile (mkWorld (set_channels [] (self w)) (scene w) (trace w)).
Proof. reflexivity. Qed.

Lemma readFile_sound (w : World) :
  sound_table (mkWorld (set_channels [] (self w)) (scene w) (trace w))
    (snd (readFile w)).
Proof.
  rewrite readFile_cleared.
  apply (respects_readFile (@sound_table F Scene) (fun _ => True)).
  - intros w1 H. split; [exact H |]. exists []. rewrite app_nil_r. auto.
  - intros w1 w2 w3 H1 H2 H. destruct (H1 H) as (Ha & e1 & T1 & K1).
    destruct (H2 Ha) as (Hb & e2 & T2 & K2). split; [exact Hb |].
    exists (e1 ++ e2)%list. rewrite T2, T1, app_assoc. split; [reflexivity |].
    apply Forall_app. auto.
  - intros ev w1 Hev H. split; [exact H |]. exists [ev].
    split; [reflexivity |]. constructor; [| constructor].
    destruct ev; try exact I. discriminate Hev.
  - intros attr time v w1 Hin H. split; [exact H |].
    exists [EvSetKeyframe attr time v]. split; [reflexivity |].
    constructor; [| constructor]. cbn.
    rewrite Forall_forall in H. apply H, Hin.
  - intros w1 H. split; [constructor |]. exists []. cbn.
    rewrite app_nil_r. auto.
  - intros p attr w1 Hin H. split.
    + cbn. apply Forall_app. split; [exact H |].
      constructor; [| constructor]. exists (full_path p), attr. auto.
    + exists []. cbn. rewrite app_nil_r. auto.
  - intros l p w1 _ _ _ H. split; [exact H |]. exists []. cbn.
    rewrite app_nil_r. auto.
  - intros lines _. apply Forall_forall. auto.
Qed.

(** X18. Only the six transform attributes are animated.  Whatever the
    lines hold and whatever the channel table held before, when [readFile]
    ends, by returning or by raising, every entry of the channel table has
    the form [<path>.<attribute>] with one of [translateX/Y/Z] and
    [rotateX/Y/Z], and every [setKeyframe] call of the pass was made on such
    an entry. *)
Theorem only_transform_attributes_are_keyed (w : World) :
  Forall animated (_channels (self (snd (readFile w)))) /\
  exists evs,
    trace (snd (readFile w)) = (trace w ++ evs)%list /\
    Forall keys_animated evs.
Proof. apply (readFile_sound w). constructor. Qed.


End Properties.


(** * The properties on the simulated host *)

Lemma rotation_order_derivation_witness :
  index "XXX" rotation_orders = None /\
  step_channels (host := sim) "CHANNELS 3 Xposition Yposition Zposition"
    start_loc new_world
  = (Raise ValueError, new_world) /\
  exists code j,
    index (axis_string (tokens "CHANNELS 3 Zrotation Xrotation Yrotation"))
      rotation_orders = Some code /\
    jnt hip_end_loc = Some j /\
    last (trace (snd (step_channels (host := sim)
                        "CHANNELS 3 Zrotation Xrotation Yrotation"
                        hip_end_loc new_world)))
      (EvSelect "")
    = EvSetAttrZ (format_jnt j ++ ".rotateOrder") code.
Proof.
  destruct (rotation_order_derivation Sim.Dec Sim.Scene (host := sim))
    as (_ & _ & _ & Hnone & Hraise & Hok).
  split.
  - apply Hnone. intros [H | [H | [H | [H | [H | [H | []]]]]]]; discriminate H.
  - split.
    + apply Hraise; reflexivity.
    + apply (Hok "CHANNELS 3 Zrotation Xrotation Yrotation" hip_end_loc
               new_world hip_end_loc); [reflexivity |].
      vm_compute. reflexivity.
Defined.

Lemma channel_table_witness :
  (exists block,
     _channels (self (snd (step_channels (host := sim)
                             (norm "CHANNELS 3 Zrotation Xrotation Yrotation")
                             hip_end_loc new_world)))
     = (_channels (self new_world) ++ block)%list /\
     List.length block
     = declared_count "CHANNELS 3 Zrotation Xrotation Yrotation" /\
     (block = [] \/
      exists p, my_parent hip_end_loc = Some p /\
        Forall2 (fun name entry => binding (full_path p) name = Some entry)
          (firstn (declared_count "CHANNELS 3 Zrotation Xrotation Yrotation")
             (skipn 2 (tokens (norm "CHANNELS 3 Zrotation Xrotation Yrotation"))))
          block)) /\
  (exists blocks,
     _channels (self (snd (readFile (host := sim) hip_loaded))) = concat blocks /\
     Forall2 is_block (filter is_channels_line (hierarchy_section hip_bvh))
       blocks /\
     List.length (_channels (self (snd (readFile (host := sim) hip_loaded))))
     = list_sum (map declared_count
                   (filter is_channels_line (hierarchy_section hip_bvh)))).
Proof.
  destruct (channel_table Sim.Dec Sim.Scene (host := sim)) as (Hstep & Hpass & _).
  split.
  - apply (Hstep "CHANNELS 3 Zrotation Xrotation Yrotation" hip_end_loc
             new_world hip_end_loc); [reflexivity |].
    vm_compute. reflexivity.
  - apply (Hpass hip_loaded hip_bvh hip_end_loc); [reflexivity | reflexivity |].
    vm_compute. reflexivity.
Defined.

Lemma frame_counter_witness :
  read_line (host := sim) "Frames: 2" hip_end_loc hip_world
  = (Ok hip_end_loc, hip_world) /\
  (frame (set_frame 3 hip_end_loc) = frame hip_end_loc + 1 /\
   exists set,
     keyframes (trace (snd (read_line (host := sim) "1 2 3" hip_end_loc hip_world)))
     = (keyframes (trace hip_world) ++ set)%list /\
     List.length set = List.length (tokens (norm "1 2 3")) /\
     Forall2 (key_agrees Sim.float) set
       (row_keys (_channels (self hip_world)) (frame hip_end_loc) "1 2 3")) /\
  (frame hip_end_loc
   = Z.of_nat (List.length (filter is_data_line (motion_section hip_bvh))) /\
   exists set,
     keyframes (trace (snd (readFile (host := sim) hip_loaded)))
     = (keyframes (trace hip_loaded) ++ set)%list /\
     Forall2 (key_agrees Sim.float) set
       (motion_keys (_channels (self (snd (readFile (host := sim) hip_loaded))))
          0 (motion_section hip_bvh))).
Proof.
  destruct (frame_counter Sim.Dec Sim.Scene (host := sim))
    as (Hskip & Hline & Hpass).
  split; [| split].
  - apply Hskip; reflexivity.
  - apply (Hline "1 2 3" hip_end_loc hip_world (set_frame 3 hip_end_loc));
      [reflexivity | reflexivity |].
    vm_compute. reflexivity.
  - apply (Hpass hip_loaded hip_bvh hip_end_loc); [reflexivity | reflexivity |].
    vm_compute. reflexivity.
Defined.

Lemma data_line_token_count_witness :
  (exists w',
     read_line (host := sim) "1 2 3 4 5 6 7" hip_end_loc hip_world
     = (Raise IndexError, w') /\
     trace w'
     = (trace hip_world
        ++ map (key_event (frame hip_end_loc))
             (combine (_channels (self hip_world))
                [one; (2, O); (3, O); (4, O); (5, O); (6, O); (7, O)]))%list) /\
  (exists w',
     read_line (host := sim) "1 2 3" hip_end_loc hip_world
     = (Ok (set_frame (frame hip_end_loc + 1) hip_end_loc), w') /\
     self w' = self hip_world /\
     List.length [one; (2, O); (3, O)] = List.length (tokens (norm "1 2 3")) /\
     trace w'
     = (trace hip_world
        ++ map (key_event (frame hip_end_loc))
             (combine (firstn (List.length [one; (2, O); (3, O)])
                         (_channels (self hip_world)))
                [one; (2, O); (3, O)]))%list).
Proof.
  destruct (data_line_token_count Sim.Dec Sim.Scene (host := sim))
    as (Hmore & Hfewer).
  split.
  - apply Hmore; [reflexivity | reflexivity | reflexivity |].
    vm_compute. lia.
  - apply Hfewer; [reflexivity | reflexivity | reflexivity |].
    vm_compute. lia.
Defined.

Lemma construction_preconditions_witness :
  (exists w',
     init (host := sim) "nowhere.bvh" one new_world
     = (Raise (Exception "File does not exist on disk"), w') /\
     trace w' = trace new_world /\ scene w' = scene new_world) /\
  (exists w',
     init (host := sim) "notes.txt" one new_world
     = (Raise (Exception "No valid bvh file was loaded"), w') /\
     trace w' = trace new_world /\ scene w' = scene new_world).
Proof.
  destruct (construction_preconditions Sim.Dec Sim.Scene (host := sim))
    as (Hmissing & Hformat).
  split.
  - apply Hmissing. reflexivity.
  - apply (Hformat "notes.txt" one new_world notes_txt
             (String "w" "alk cycle, take 3
")); reflexivity.
Defined.

Lemma clear_animation_effect_witness :
  _root_node (self hip_world) = Some hip_root /\
  let nodes :=
    maya_ls (maya_step (EvSelectHi (dag_str hip_root)) (scene hip_world)) in
  exists w' answers,
    _clear_animation (host := sim) hip_world = (Ok tt, w') /\
    self w' = self hip_world /\
    List.length answers = List.length nodes /\
    Forall (fun a => List.length a = 6%nat) answers /\
    trace w' = (trace hip_world ++ EvSelectHi (dag_str hip_root) :: EvLs nodes
                                   :: clear_events Sim.Dec nodes answers)%list /\
    Forall (writes_only_rotation_zero Sim.Dec nodes)
      (clear_events Sim.Dec nodes answers).
Proof.
  split; [reflexivity |].
  apply (clear_animation_effect Sim.Dec Sim.Scene (host := sim) hip_world hip_root).
  reflexivity.
Defined.

(** C8 (as the specification has it) fails on the first scenario: on a
    second pass the [ROOT] line sets a parent whose full path is [Hip],
    while the persisted full path of the root is [_mocap_hip.bvh_grp|Hip]. *)
Lemma reimport_parent_is_not_the_full_path :
  exists loc',
    _root_node (self hip_world) = Some hip_root /\
    step_root "ROOT Hip" (mkLocals false false 0 (Some (Dag (ObjDag hip_root) None)) None)
      hip_world
    = (Ok loc', hip_world) /\
    option_map full_path (my_parent loc') = Some "Hip" /\
    _root_node_full_path (self hip_world) = Some "_mocap_hip.bvh_grp|Hip" /\
    option_map full_path (my_parent loc') <> _root_node_full_path (self hip_world).
Proof.
  exists (mkLocals false false 0 (Some (Dag (ObjStr "Hip") None)) None).
  split; [vm_compute; reflexivity |]. split; [vm_compute; reflexivity |].
  split; [reflexivity |]. split; [vm_compute; reflexivity |].
  vm_compute. intros H. discriminate H.
Qed.

Lemma reimport_root_line_witness :
  (step_root "ROOT Hip" start_loc hip_world
   = (Ok (set_my_parent (Some (Dag (ObjStr (dag_str hip_root)) None)) start_loc),
      hip_world) /\
   full_path (Dag (ObjStr (dag_str hip_root)) None) = dag_str hip_root) /\
  exists w_clear,
    _clear_animation (host := sim)
      (with_event
         (EvSetAttrF (split_head "|" (root_node (self hip_world)) ++ ".scale")
            [scale (self hip_world); scale (self hip_world);
             scale (self hip_world)] None)
         (mkWorld (set_channels [] (self hip_world)) (scene hip_world)
            (trace hip_world)))
    = (Ok tt, w_clear) /\
    self w_clear = set_channels [] (self hip_world) /\
    readFile (host := sim) hip_world
    = read_lines (host := sim) hip_bvh
        (mkLocals false false 0 (Some (Dag (ObjDag hip_root) None)) None) w_clear.
Proof.
  destruct (reimport_root_line Sim.Dec Sim.Scene (host := sim)) as (Hline & Hpass).
  split.
  - apply Hline; reflexivity.
  - apply Hpass; reflexivity.
Defined.

(** C10 (as the specification has it) fails on the third scenario.  After
    the [OFFSET] line of the root, [jnt] is the joint [Hip]; no other
    [OFFSET] line is read before the [CHANNELS] line of the block of [A],
    and that line sets the rotation order on the printed token list of the
    line [JOINT A], not on [Hip]. *)
Lemma rotation_order_misses_the_offset_joint :
  exists loc_a w_a loc_b w_b,
    swapped_before = (Ok loc_a, w_a) /\
    jnt loc_a = Some (JntRef "Hip") /\
    forallb (fun l => negb (contains "OFFSET" (norm l)))
      (firstn 3 (skipn 5 swapped_bvh)) = true /\
    read_lines (host := sim) (firstn 3 (skipn 5 swapped_bvh)) loc_a w_a
    = (Ok loc_b, w_b) /\
    trace w_b = (trace w_a ++ [EvSetAttrZ "['JOINT', 'A'].rotateOrder" 4])%list /\
    ~ In (EvSetAttrZ ("Hip" ++ ".rotateOrder") 4)
        (skipn (List.length (trace w_a)) (trace w_b)).
Proof.
  do 4 eexists. split; [vm_compute; reflexivity |].
  split; [reflexivity |]. split; [reflexivity |].
  split; [vm_compute; reflexivity |]. split; [reflexivity |].
  cbn. intros [H | []]. discriminate H.
Qed.

Lemma rotation_order_target_witness :
  (exists j code,
     jnt hip_end_loc = Some j /\
     trace (snd (step_channels (host := sim)
                   "CHANNELS 3 Zrotation Xrotation Yrotation"
                   hip_end_loc new_world))
     = (trace new_world
        ++ [EvSetAttrZ (format_jnt j ++ ".rotateOrder") code])%list) /\
  (exists j vs,
     jnt (set_jnt (JntRef "grp") start_loc) = Some (JntRef j) /\
     last (trace (snd (step_offset (host := sim) "OFFSET 1 2 3" start_loc
                         hip_world)))
       (EvSelect "")
     = EvSetAttrF (j ++ ".translate") vs (Some "double3")) /\
  jnt (set_my_parent None (set_motion false hip_end_loc))
  = jnt (set_motion false hip_end_loc) /\
  (exists e w',
     step_channels (host := sim) "CHANNELS 3 Zrotation Xrotation Yrotation"
       start_loc new_world
     = (Raise e, w') /\ trace w' = trace new_world).
Proof.
  destruct (rotation_order_target Sim.Dec Sim.Scene (host := sim))
    as (Hchan & Hoff & Hkept & Hunbound).
  split; [| split; [| split]].
  - apply (Hchan "CHANNELS 3 Zrotation Xrotation Yrotation" hip_end_loc
             new_world hip_end_loc); [reflexivity |].
    vm_compute. reflexivity.
  - apply (Hoff "OFFSET 1 2 3" start_loc hip_world
             (set_jnt (JntRef "grp") start_loc)); [reflexivity |].
    vm_compute. reflexivity.
  - apply (Hkept "}" (set_motion false hip_end_loc) hip_world
             (set_my_parent None (set_motion false hip_end_loc)) hip_world);
      [reflexivity | reflexivity | reflexivity |].
    vm_compute. reflexivity.
  - apply Hunbound; reflexivity.
Defined.

(** C7 on the second scenario.  The file has an [End Site] block inside the
    joint [B].  The import creates the joints [Hip], [A] and [B] and no
    joint [B_tip]: at the [OFFSET] line of the block the host finds the
    enclosing joint [B], so the translation of [B], first set to 4 5 6, is
    set again to the 0 0 5 of the block. *)
Theorem end_site_tip_is_not_created :
  fst (init (host := sim) "takes\arm.bvh" one new_world)
  = Ok (mkLocals false true 2 (Some (Dag (ObjStr "_mocap_arm.bvh_grp") None))
          (Some (JntRef "_mocap_arm.bvh_grp|Hip|A|B"))) /\
  joints_created (trace arm_world) = ["Hip"; "A"; "B"] /\
  translations (trace arm_world)
  = [("Hip.translate", [(0, O); (0, O); (0, O)]);
     ("A.translate", [(1, O); (2, O); (3, O)]);
     ("B.translate", [(4, O); (5, O); (6, O)]);
     ("_mocap_arm.bvh_grp|Hip|A|B.translate", [(0, O); (0, O); (5, O)])].
Proof. vm_compute. repeat split. Qed.

(** C1 (as the specification has it) fails on the first scenario: the
    first pass sets its keys on [_mocap_hip.bvh_grp|Hip.translateX] and the
    like, the second pass on [Hip.translateX] and the like, so that the
    second pass sets a key that is no key of the first pass and the two
    lists of keys differ. *)
Lemma reimport_keys_have_other_paths :
  readFile (host := sim) hip_loaded = (Ok hip_end_loc, hip_first) /\
  readFile (host := sim) hip_first = (Ok hip_again_loc, hip_second) /\
  In ("_mocap_hip.bvh_grp|Hip.translateX", 0, (0, O)) hip_first_keys /\
  In ("Hip.translateX", 0, (0, O)) hip_second_keys /\
  ~ In ("Hip.translateX", 0, (0, O)) hip_first_keys /\
  hip_second_keys <> hip_first_keys.
Proof.
  split; [vm_compute; reflexivity |]. split; [vm_compute; reflexivity |].
  split; [vm_compute; left; reflexivity |].
  split; [vm_compute; left; reflexivity |].
  split.
  - vm_compute. intros H.
    repeat (destruct H as [H | H]; [discriminate H |]). exact H.
  - vm_compute. intros H. discriminate H.
Qed.

Lemma reimport_keyframes_witness :
  exists grp r w_clear set1 set2,
    _root_node (self hip_first) = Some r /\
    _root_node_full_path (self hip_first) = Some (grp ++ "|" ++ dag_str r) /\
    _clear_animation
      (with_event
         (EvSetAttrF (split_head "|" (root_node (self hip_first)) ++ ".scale")
            [scale (self hip_first); scale (self hip_first);
             scale (self hip_first)] None)
         (mkWorld (set_channels [] (self hip_first)) (scene hip_first)
            (trace hip_first)))
    = (Ok tt, w_clear) /\
    keyframes (trace w_clear) = keyframes (trace hip_first) /\
    readFile hip_first
    = read_lines hip_bvh
        (mkLocals false false 0 (Some (Dag (ObjDag r) None)) None) w_clear /\
    keyframes (trace hip_first) = (keyframes (trace hip_loaded) ++ set1)%list /\
    keyframes (trace hip_second) = (keyframes (trace hip_first) ++ set2)%list /\
    set1 = map (under (grp ++ "|")) set2 /\
    _channels (self hip_first)
    = map (append (grp ++ "|")) (_channels (self hip_second)).
Proof.
  apply (reimport_keyframes Sim.Dec Sim.Scene (host := sim) hip_loaded hip_bvh
           hip_end_loc hip_first hip_again_loc hip_second).
  - reflexivity.
  - reflexivity.
  - vm_compute. reflexivity.
  - vm_compute. reflexivity.
  - vm_compute. reflexivity.
  - vm_compute. reflexivity.
Defined.

(** ** Further properties on the simulated host *)

Lemma cleanPath_normalises_witness :
  cleanPath "takes/arm.bvh" = "takes/arm.bvh".
Proof.
  destruct (cleanPath_normalises "takes/arm.bvh") as (_ & _ & _ & H).
  apply H. reflexivity.
Defined.

Lemma ascend_descend_witness :
  Nat.iter (1 + List.length ["Hip"; "A"]) pop
    (Some (descend (Dag (ObjStr "grp") None) ["Hip"; "A"]))
  = None.
Proof.
  destruct (ascend_descend ["Hip"; "A"] (Dag (ObjStr "grp") None) 0)
    as (_ & _ & H).
  apply H. reflexivity.
Defined.

Lemma readFile_keeps_object_witness :
  _root_node (self (snd (readFile (host := sim) hip_first))) = Some hip_root /\
  _root_node_full_path (self (snd (readFile (host := sim) hip_first)))
  = _root_node_full_path (self hip_first).
Proof.
  pose proof (readFile_keeps_object Sim.Dec Sim.Scene (host := sim) hip_first)
    as H.
  cbv zeta in H. destruct H as (_ & _ & _ & H). apply (H hip_root).
  vm_compute. reflexivity.
Defined.

Lemma root_on_record_witness :
  rooted hip_bvh (self (snd (readFile (host := sim) hip_loaded))).
Proof.
  apply (root_on_record Sim.Dec Sim.Scene (host := sim) hip_loaded hip_bvh).
  - reflexivity.
  - vm_compute. reflexivity.
Defined.

Lemma first_pass_events_witness :
  let name := "_mocap_" ++ basename "hip.bvh" ++ "_grp" in
  let grp := maya_group (Host := sim) name (scene hip_loaded) in
  exists evs,
    trace (snd (readFile (host := sim) hip_loaded))
    = (trace hip_loaded
       ++ EvGroup name grp
          :: EvSetAttrF (grp ++ ".scale")
               [scale (self hip_loaded); scale (self hip_loaded);
                scale (self hip_loaded)] None
          :: evs)%list /\
    forallb line_event evs = true.
Proof.
  apply (first_pass_events Sim.Dec Sim.Scene (host := sim) hip_loaded "hip.bvh");
    reflexivity.
Defined.

Lemma construction_success_witness :
  let name := "_mocap_" ++ basename (cleanPath "hip.bvh") ++ "_grp" in
  let grp := maya_group (Host := sim) name (scene new_world) in
  exists first rest evs,
    os_path_exists (Host := sim) (cleanPath "hip.bvh") = true /\
    open_readlines (Host := sim) (cleanPath "hip.bvh") = Some (first :: rest) /\
    startswith first "HIERARCHY" = true /\
    data (self hip_world) = Some (first :: rest) /\
    scale (self hip_world) = one /\
    file_path (self hip_world) = Some (cleanPath "hip.bvh") /\
    rooted (first :: rest) (self hip_world) /\
    trace hip_world
    = (trace new_world
       ++ EvGroup name grp :: EvSetAttrF (grp ++ ".scale") [one; one; one] None
          :: evs)%list /\
    forallb line_event evs = true.
Proof.
  apply (construction_success Sim.Dec Sim.Scene (host := sim)
           "hip.bvh" one new_world hip_end_loc hip_world).
  vm_compute. reflexivity.
Defined.

Lemma construction_unreadable_or_empty_witness :
  (exists w',
     init (host := locked_host) "locked.bvh" one new_world
     = (Raise OSError, w') /\
     trace w' = trace new_world /\ scene w' = scene new_world /\
     data (self w') = None) /\
  (exists w',
     init (host := empty_file_host) "empty.bvh" one new_world
     = (Raise IndexError, w') /\
     trace w' = trace new_world /\ scene w' = scene new_world /\
     data (self w') = Some []).
Proof.
  split.
  - destruct (construction_unreadable_or_empty Sim.Dec Sim.Scene
                (host := locked_host)) as (H & _).
    apply H; reflexivity.
  - destruct (construction_unreadable_or_empty Sim.Dec Sim.Scene
                (host := empty_file_host)) as (_ & H).
    apply H; reflexivity.
Defined.

Lemma first_pass_records_root_witness :
  let grp :=
    maya_group (Host := sim) ("_mocap_" ++ basename "hip.bvh" ++ "_grp")
      (scene hip_loaded) in
  let name := rstrip (slice_from 5 (norm (nth 1 hip_bvh ""))) in
  let s' := self (snd (readFile (host := sim) hip_loaded)) in
  _root_node s' = Some (Dag (ObjStr name) (Some (Dag (ObjStr grp) None))) /\
  root_node s' = grp ++ "|" ++ name /\
  (contains "|" grp = false -> split_head "|" (root_node s') = grp).
Proof.
  apply (first_pass_records_root Sim.Dec Sim.Scene (host := sim) hip_loaded
           "hip.bvh" (firstn 1 hip_bvh) (nth 1 hip_bvh "") (skipn 2 hip_bvh));
    vm_compute; reflexivity.
Defined.

Lemma motion_section_sets_keys_only_witness :
  let out :=
    read_lines (host := sim) ["Frames: 2"; "1 2 3"; "ROOT x y"]
      hip_end_loc hip_world in
  self (snd out) = self hip_world /\
  (forall loc', fst out = Ok loc' ->
     motion loc' = true /\ safe_close loc' = safe_close hip_end_loc /\
     my_parent loc' = my_parent hip_end_loc /\ jnt loc' = jnt hip_end_loc /\
     frame hip_end_loc <= frame loc') /\
  exists evs,
    trace (snd out) = (trace hip_world ++ evs)%list /\
    Forall (key_within (_channels (self hip_world)) (frame hip_end_loc)
              (frame_of out)) evs.
Proof.
  apply (motion_section_sets_keys_only Sim.Dec Sim.Scene (host := sim)).
  reflexivity.
Defined.

Lemma blank_motion_line_witness :
  read_line (host := sim) "   " hip_end_loc hip_world =
  match _channels (self hip_world) with
  | [] => (Raise IndexError, hip_world)
  | attr :: _ =>
      match py_float (Host := sim) "" with
      | None => (Raise ValueError, hip_world)
      | Some v => (Ok (set_frame (frame hip_end_loc + 1) hip_end_loc),
                   with_event (host := sim)
                     (EvSetKeyframe attr (frame hip_end_loc) v) hip_world)
      end
  end.
Proof.
  apply (blank_motion_line Sim.Dec Sim.Scene (host := sim)); reflexivity.
Defined.

Lemma data_line_bad_number_witness :
  exists w',
    read_line (host := sim) "1 2 x 4" hip_end_loc hip_world
    = (Raise (if (List.length ["1"; "2"]
                  <? List.length (_channels (self hip_world)))%nat
              then ValueError else IndexError), w') /\
    self w' = self hip_world /\
    trace w' = (trace hip_world
                ++ map (key_event (frame hip_end_loc))
                     (combine (_channels (self hip_world)) [one; (2, O)]))%list.
Proof.
  apply (data_line_bad_number Sim.Dec Sim.Scene (host := sim)
           "1 2 x 4" hip_end_loc hip_world ["1"; "2"] "x" ["4"]);
    vm_compute; reflexivity.
Defined.

Lemma channels_line_stops_at_bad_name_witness :
  step_channels (host := sim) "CHANNELS 6 Xrotation Yrotation Zrotation"
    start_loc new_world
  = (Raise match nth_error
                   (tokens "CHANNELS 6 Xrotation Yrotation Zrotation") (2 + 3)
           with
           | Some _ => KeyError
           | None => IndexError
           end,
     mkWorld
       (set_channels
          (_channels (self new_world)
           ++ ["grp.rotateX"; "grp.rotateY"; "grp.rotateZ"])
          (self new_world))
       (scene new_world) (trace new_world)).
Proof.
  apply (channels_line_stops_at_bad_name Sim.Dec Sim.Scene (host := sim)
           "CHANNELS 6 Xrotation Yrotation Zrotation" start_loc new_world
           (Dag (ObjStr "grp") None) 5 "6" 6 3
           ["grp.rotateX"; "grp.rotateY"; "grp.rotateZ"]);
    try (vm_compute; reflexivity); try (vm_compute; lia);
    try (vm_compute; exact I).
  vm_compute. repeat constructor.
Defined.

Lemma reimport_ignores_the_scene_witness :
  same_outcome same_locals hip_first
    (mkWorld (self hip_first) empty_scene [])
    (readFile (host := sim) hip_first)
    (readFile (host := sim) (mkWorld (self hip_first) empty_scene [])).
Proof.
  apply (reimport_ignores_the_scene Sim.Dec Sim.Scene (host := sim)
           hip_first (mkWorld (self hip_first) empty_scene [])
           hip_root hip_bvh).
  - vm_compute. reflexivity.
  - vm_compute. reflexivity.
  - reflexivity.
Defined.

Lemma later_passes_repeat_witness :
  same_outcome same_locals hip_first (snd (readFile (host := sim) hip_first))
    (readFile (host := sim) hip_first)
    (readFile (host := sim) (snd (readFile (host := sim) hip_first))).
Proof.
  apply (later_passes_repeat Sim.Dec Sim.Scene (host := sim)
           hip_first hip_root hip_bvh).
  - vm_compute. reflexivity.
  - vm_compute. reflexivity.
Defined.

Lemma hierarchy_sets_no_key_witness :
  let out := read_lines (host := sim) (firstn 6 hip_bvh) start_loc hip_loaded in
  keyframes (trace (snd out)) = keyframes (trace hip_loaded) /\
  forall loc', fst out = Ok loc' ->
    motion loc' = false /\ frame loc' = frame start_loc.
Proof.
  apply (hierarchy_sets_no_key Sim.Dec Sim.Scene (host := sim)).
  - reflexivity.
  - vm_compute. reflexivity.
Defined.
